(** * pair_ap: client side of HomeKit pairing (pair_homekit.c)

    A shallow embedding of the parts of [pair_homekit.c] that the pairing
    specification talks about: the key schedule ([pair_keys_map],
    [hkdf_extract_expand]), the SRP-6a client ([srp_user_process_challenge]
    and its helpers), the context constructors and result accessors of the
    Pair-Setup and Pair-Verify flows, the two response handlers that open
    the peer's sealed record, and the framed control channel
    ([pair_encrypt], [pair_decrypt]).

    Conventions.
    - A buffer is a [list byte]; a pointer that may be [NULL] is an [option].
    - A C string is a [list byte] read up to its first NUL ([strlen]).
    - Big numbers ([bnum]) are [Z]; fixed-width integers are [Z] with the
      wrap-around written out ([to_uint16], [to_uint64], [to_int]).
    - The libraries the C file calls (hash, HMAC, ChaCha20-Poly1305,
      libsodium, the TLV codec of tlv.c) are the fields of the class
      [Capabilities]; [Fakes] gives a deterministic instance that runs.
    - Memory allocation is taken to succeed; a read outside an object,
      a NULL dereference and a failed [assert] stop the process ([Trap]). *)

From Stdlib Require Import ZArith List Lia Bool.
From Stdlib Require Import Init.Byte Strings.Byte.
From Stdlib Require String.
Import ListNotations.
Import String.StringSyntax.
Abbreviation string := String.string.
Local Open Scope string_scope.
Local Open Scope list_scope.
Local Open Scope Z_scope.

(* ------------------------------------------------------------------ *)
(** ** Bytes, fixed-width integers, C strings *)

Definition bytes := list byte.

Definition byte_to_Z (b : byte) : Z := Z.of_N (Byte.to_N b).

Definition byte_of_Z (z : Z) : byte :=
  match Byte.of_N (Z.to_N (z mod 256)) with
  | Some b => b
  | None => x00
  end.

Definition to_uint16 (z : Z) : Z := z mod 2 ^ 16.
Definition to_uint64 (z : Z) : Z := z mod 2 ^ 64.

(** Conversion to [int] (32 bits, two's complement), as gcc does it. *)
Definition to_int (z : Z) : Z := (z + 2 ^ 31) mod 2 ^ 32 - 2 ^ 31.

Definition INT_MAX : Z := 2 ^ 31 - 1.

(** [n] bytes of [z], least significant first. *)
Fixpoint le_bytes (n : nat) (z : Z) : bytes :=
  match n with
  | O => []
  | S n' => byte_of_Z z :: le_bytes n' (z / 256)
  end.

Fixpoint le_value (bs : bytes) : Z :=
  match bs with
  | [] => 0
  | b :: rest => byte_to_Z b + 256 * le_value rest
  end.

(** Most significant byte first, as the big-number libraries serialise. *)
Definition be_bytes (n : nat) (z : Z) : bytes := rev (le_bytes n z).
Definition be_value (bs : bytes) : Z := le_value (rev bs).

Definition byte_xor (a b : byte) : byte :=
  byte_of_Z (Z.lxor (byte_to_Z a) (byte_to_Z b)).

(** [strlen]: the number of bytes before the first NUL. *)
Fixpoint strlen (s : bytes) : nat :=
  match s with
  | [] => O
  | b :: rest => if Byte.eqb b x00 then O else S (strlen rest)
  end.

(** A string literal of the C source as the bytes [strlen] sees. *)
Definition cstr (s : string) : bytes := String.list_byte_of_string s.

(** [memcpy] of [src] to the start of the zeroed array [dst]. *)
Definition memcpy_into (dst src : bytes) : bytes :=
  src ++ skipn (length src) dst.

Definition zeros (n : nat) : bytes := repeat x00 n.

(** A [const char name[n]] initialised from a literal: the literal's
    characters, the rest of the array zero. *)
Definition char_array (n : nat) (s : string) : bytes :=
  firstn n (cstr s ++ zeros n).

(** How a call of the C file ends: it returns a value, it returns its
    failure indicator (-1 or NULL), or the process stops (a failed
    [assert], a NULL dereference, a read outside an object). *)
Inductive res (A : Type) : Type :=
| Ok (a : A)
| Error
| Trap.
Arguments Ok {A} a.
Arguments Error {A}.
Arguments Trap {A}.

(* ------------------------------------------------------------------ *)
(** ** Defines and enumerations *)

Definition USERNAME : string := "Pair-Setup".
Definition AUTHTAG_LENGTH : Z := 16.
Definition NONCE_LENGTH : Z := 12.
Definition REQUEST_BUFSIZE : Z := 4096.
Definition ENCRYPTED_LEN_MAX : Z := 0x400.
Definition SHA512_DIGEST_LENGTH : Z := 64.
Definition crypto_sign_PUBLICKEYBYTES : Z := 32.
Definition crypto_sign_SECRETKEYBYTES : Z := 64.

Inductive pair_keys : Type :=
| PAIR_SETUP_MSG01
| PAIR_SETUP_MSG02
| PAIR_SETUP_MSG03
| PAIR_SETUP_MSG04
| PAIR_SETUP_MSG05
| PAIR_SETUP_MSG06
| PAIR_SETUP_SIGN
| PAIR_VERIFY_MSG01
| PAIR_VERIFY_MSG02
| PAIR_VERIFY_MSG03
| PAIR_VERIFY_MSG04
| PAIR_CONTROL_WRITE
| PAIR_CONTROL_READ.

(** The value of each enumerator: its row in [pair_keys_map]. *)
Definition pair_keys_index (k : pair_keys) : nat :=
  match k with
  | PAIR_SETUP_MSG01 => 0
  | PAIR_SETUP_MSG02 => 1
  | PAIR_SETUP_MSG03 => 2
  | PAIR_SETUP_MSG04 => 3
  | PAIR_SETUP_MSG05 => 4
  | PAIR_SETUP_MSG06 => 5
  | PAIR_SETUP_SIGN => 6
  | PAIR_VERIFY_MSG01 => 7
  | PAIR_VERIFY_MSG02 => 8
  | PAIR_VERIFY_MSG03 => 9
  | PAIR_VERIFY_MSG04 => 10
  | PAIR_CONTROL_WRITE => 11
  | PAIR_CONTROL_READ => 12
  end%nat.

(** [struct pair_keys_map]; a NULL label is [None]. *)
Record pair_keys_entry : Type := mk_keys_entry {
  state : byte;
  salt : option string;
  info : option string;
  nonce : bytes
}.

Definition keys_row (st : byte) (s i : option string) (n : string)
  : pair_keys_entry :=
  mk_keys_entry st s i (char_array 8 n).

Definition pair_keys_table : list pair_keys_entry :=
  [ (* Used for /pair-setup *)
    keys_row x01 None None "";
    keys_row x02 None None "";
    keys_row x03 None None "";
    keys_row x04 None None "";
    keys_row x05 (Some "Pair-Setup-Encrypt-Salt") (Some "Pair-Setup-Encrypt-Info") "PS-Msg05";
    keys_row x06 (Some "Pair-Setup-Encrypt-Salt") (Some "Pair-Setup-Encrypt-Info") "PS-Msg06";
    keys_row x00 (Some "Pair-Setup-Controller-Sign-Salt") (Some "Pair-Setup-Controller-Sign-Info") "";
    (* Used for /pair-verify *)
    keys_row x01 None None "";
    keys_row x02 (Some "Pair-Verify-Encrypt-Salt") (Some "Pair-Verify-Encrypt-Info") "PV-Msg02";
    keys_row x03 (Some "Pair-Verify-Encrypt-Salt") (Some "Pair-Verify-Encrypt-Info") "PV-Msg03";
    keys_row x04 None None "";
    (* Encryption/decryption *)
    keys_row x00 (Some "Control-Salt") (Some "Control-Write-Encryption-Key") "";
    keys_row x00 (Some "Control-Salt") (Some "Control-Read-Encryption-Key") "" ].

(** [pair_keys_map[pair_key]]. *)
Definition pair_keys_map (pair_key : pair_keys) : pair_keys_entry :=
  nth (pair_keys_index pair_key) pair_keys_table (keys_row x00 None None "").

(** The stages that derive a key: the rows whose labels are not NULL. *)
Definition derives_key (k : pair_keys) : bool :=
  match salt (pair_keys_map k), info (pair_keys_map k) with
  | Some _, Some _ => true
  | _, _ => false
  end.

Inductive hash_alg : Type :=
| HASH_SHA1
| HASH_SHA224
| HASH_SHA256
| HASH_SHA384
| HASH_SHA512.

Definition hash_length (alg : hash_alg) : Z :=
  match alg with
  | HASH_SHA1 => 20
  | HASH_SHA224 => 28
  | HASH_SHA256 => 32
  | HASH_SHA384 => 48
  | HASH_SHA512 => 64
  end.

(** The tags and peer error codes of tlv.h that the C file names. *)
Inductive TLVType : Type :=
| TLVType_Method
| TLVType_Identifier
| TLVType_Salt
| TLVType_PublicKey
| TLVType_Proof
| TLVType_EncryptedData
| TLVType_State
| TLVType_Error
| TLVType_Signature.

Inductive TLVError : Type :=
| TLVError_Authentication
| TLVError_Backoff
| TLVError_MaxPeers
| TLVError_MaxTries
| TLVError_Unavailable.

Inductive pair_method : Type :=
| PairingMethodPairSetup
| PairingMethodPairSetupWithAuth
| PairingMethodPairVerify
| PairingMethodAddPairing
| PairingMethodRemovePairing
| PairingMethodListPairings.

Definition pair_method_code (m : pair_method) : byte :=
  match m with
  | PairingMethodPairSetup => x00
  | PairingMethodPairSetupWithAuth => x01
  | PairingMethodPairVerify => x02
  | PairingMethodAddPairing => x03
  | PairingMethodRemovePairing => x04
  | PairingMethodListPairings => x05
  end.

(* ------------------------------------------------------------------ *)
(** ** The libraries behind the C file

    What [pair_homekit.c] gets from OpenSSL or libgcrypt, from libsodium
    and from tlv.c, and the byte order of the host. *)

Class Capabilities : Type := {
  (** [memcpy] of an integer writes it in the host's byte order. *)
  host_big_endian : bool;
  (** libsodium *)
  sodium_init : Z;
  (** [crypto_scalarmult(q, n, p)]: the bytes left in [q] and the return value *)
  crypto_scalarmult : bytes -> bytes -> bytes * Z;
  (** [hash(alg, d, n, md)], also what init/update/final give on the
      concatenation of the updates *)
  hash : hash_alg -> bytes -> bytes;
  (** HMAC-SHA512 of a message under a key *)
  hmac_sha512 : bytes -> bytes -> bytes;
  (** The failure exits of the key derivation's library calls. The
      first is for the calls made before a label is read ([gcry_md_open];
      [EVP_PKEY_CTX_new_id], [EVP_PKEY_derive_init],
      [EVP_PKEY_CTX_set_hkdf_md]); the second for the later ones
      ([gcry_md_setkey]; [EVP_PKEY_CTX_set1_hkdf_salt] to
      [EVP_PKEY_derive]), for an output length, a salt, a key and an
      info. *)
  hkdf_open_fails : bool;
  hkdf_derive_fails : Z -> bytes -> bytes -> bytes -> bool;
  (** ChaCha20-Poly1305 under key, nonce and associated data: the
      ciphertext and the tag, or the plaintext when the tag checks *)
  chacha20_poly1305_seal : bytes -> bytes -> bytes -> bytes -> option (bytes * bytes);
  chacha20_poly1305_open : bytes -> bytes -> bytes -> bytes -> bytes -> option bytes;
  (** tlv.c *)
  tlv_values : Type;
  tlv_new : tlv_values;
  tlv_add_value : tlv_values -> TLVType -> bytes -> tlv_values;
  tlv_format : tlv_values -> Z -> option bytes;
  tlv_parse : bytes -> option tlv_values;
  tlv_get_value : tlv_values -> TLVType -> option bytes;
  TLVError_code : TLVError -> byte
}.

Section KeySchedule.
Context {C : Capabilities}.

(** [hkdf_extract_expand]: RFC 5869 extract and expand with SHA-512, one
    block of output. A library call that fails gives -1; [strlen] of a
    NULL label stops the process (the rows of the table have both labels
    or neither). *)
Definition hkdf_extract_expand (okm_len : Z) (ikm : bytes) (pair_key : pair_keys)
  : res bytes :=
  if okm_len >? SHA512_DIGEST_LENGTH then Error
  else if hkdf_open_fails then Error
  else
    match salt (pair_keys_map pair_key), info (pair_keys_map pair_key) with
    | Some salt_label, Some info_label =>
        if hkdf_derive_fails okm_len (cstr salt_label) ikm (cstr info_label) then Error
        else
          let prk := hmac_sha512 (cstr salt_label) ikm in
          let t1 := hmac_sha512 prk (cstr info_label ++ [x01]) in
          Ok (firstn (Z.to_nat okm_len) t1)
    | _, _ => Trap
    end.

(** The 12-byte nonce of a handshake message: four zero bytes, then the
    stage's label. *)
Definition stage_nonce (pair_key : pair_keys) : bytes :=
  zeros 4 ++ firstn (Z.to_nat (NONCE_LENGTH - 4)) (nonce (pair_keys_map pair_key)).

End KeySchedule.

(* ------------------------------------------------------------------ *)
(** ** Big numbers (the bnum_ macros) *)

Definition bnum := Z.

Definition bnum_is_zero (bn : bnum) : bool := bn =? 0.

(** [(bits + 7) / 8]; zero has no bits. *)
Definition bnum_num_bytes (bn : bnum) : Z :=
  if bn =? 0 then 0 else (Z.log2 (Z.abs bn) + 1 + 7) / 8.

(** Big-endian magnitude, [bnum_num_bytes] bytes. *)
Definition bnum_bn2bin (bn : bnum) : bytes :=
  be_bytes (Z.to_nat (bnum_num_bytes bn)) (Z.abs bn).

Definition bnum_bin2bn (buf : bytes) : bnum := be_value buf.

Definition hex_value (b : byte) : option Z :=
  let c := byte_to_Z b in
  if (48 <=? c) && (c <=? 57) then Some (c - 48)
  else if (97 <=? c) && (c <=? 102) then Some (c - 87)
  else if (65 <=? c) && (c <=? 70) then Some (c - 55)
  else None.

(** The value of the leading hexadecimal digits of [s], after [acc]. *)
Fixpoint hex_digits_value (acc : Z) (s : bytes) : Z :=
  match s with
  | [] => acc
  | b :: rest =>
      match hex_value b with
      | Some d => hex_digits_value (16 * acc + d) rest
      | None => acc
      end
  end.

(** [bnum_hex2bn]: an optional minus sign, then the leading hexadecimal
    digits. Where the string has no digit the library reads no number and
    leaves the bnum as it was, NULL after [calloc]; a NULL has no value
    here and 0 stands for it (the flows pass the predefined groups only,
    whose strings are digits). *)
Definition bnum_hex2bn (buf : string) : bnum :=
  match cstr buf with
  | x2d :: digits => - hex_digits_value 0 digits
  | digits => hex_digits_value 0 digits
  end.

Fixpoint modexp_pos (y : Z) (q : positive) (p : Z) : Z :=
  match q with
  | xH => y mod p
  | xO q' => let r := modexp_pos y q' p in (r * r) mod p
  | xI q' => let r := modexp_pos y q' p in ((r * r) mod p * y) mod p
  end.

(** [y ^ q mod p] by square and multiply; the residue is taken in
    [0, p). *)
Definition bnum_modexp (y q p : bnum) : bnum :=
  match q with
  | Z0 => 1 mod p
  | Zpos q' => modexp_pos y q' p
  | Zneg _ => 0
  end.

(* ------------------------------------------------------------------ *)
(** ** SRP *)

Inductive SRP_NGType : Type :=
| SRP_NG_2048
| SRP_NG_3072
| SRP_NG_CUSTOM.

Record NGConstant : Type := mk_NGConstant {
  ng_N : bnum;
  ng_g : bnum
}.

Record NGHex : Type := mk_NGHex {
  n_hex : string;
  g_hex : string
}.

(** Appendix A of RFC 5054. *)
Definition Ng_2048 : NGHex := mk_NGHex
  "AC6BDB41324A9A9BF166DE5E1389582FAF72B6651987EE07FC3192943DB56050A37329CBB4A099ED8193E0757767A13DD52312AB4B03310DCD7F48A9DA04FD50E8083969EDB767B0CF6095179A163AB3661A05FBD5FAAAE82918A9962F0B93B855F97993EC975EEAA80D740ADBF4FF747359D041D5C33EA71D281E446B14773BCA97B43A23FB801676BD207A436C6481F1D2B9078717461A5B9D32E688F87748544523B524B0D57D5EA77A2775D2ECFA032CFBDBF52FB3786160279004E57AE6AF874E7303CE53299CCC041C7BC308D82A5698F3A8D0C38271AE35F8E9DBFBB694B5C803D89F7AE435DE236D525F54759B65E372FCD68EF20FA7111F9E4AFF73"
  "2".

Definition Ng_3072 : NGHex := mk_NGHex
  "FFFFFFFFFFFFFFFFC90FDAA22168C234C4C6628B80DC1CD129024E088A67CC74020BBEA63B139B22514A08798E3404DDEF9519B3CD3A431B302B0A6DF25F14374FE1356D6D51C245E485B576625E7EC6F44C42E9A637ED6B0BFF5CB6F406B7EDEE386BFB5A899FA5AE9F24117C4B1FE649286651ECE45B3DC2007CB8A163BF0598DA48361C55D39A69163FA8FD24CF5F83655D23DCA3AD961C62F356208552BB9ED529077096966D670C354E4ABC9804F1746C08CA18217C32905E462E36CE3BE39E772C180E86039B2783A2EC07A28FB5C55DF06F4C52C9DE2BCBF6955817183995497CEA956AE515D2261898FA051015728E5A8AAAC42DAD33170D04507A33A85521ABDF1CBA64ECFB850458DBEF0A8AEA71575D060C7DB3970F85A6E1E4C7ABF5AE8CDB0933D71E8C94E04A25619DCEE3D2261AD2EE6BF12FFA06D98A0864D87602733EC86A64521F2B18177B200CBBE117577A615D6C770988C0BAD946E208E24FA074E5AB3143DB5BFCE0FD108E4B82D120A93AD2CAFFFFFFFFFFFFFFFF"
  "5".

Definition global_Ng_constants (ng_type : SRP_NGType) : option NGHex :=
  match ng_type with
  | SRP_NG_2048 => Some Ng_2048
  | SRP_NG_3072 => Some Ng_3072
  | SRP_NG_CUSTOM => None
  end.

(** [new_ng]: the strings are read for [SRP_NG_CUSTOM] only (the flows
    pass NULL with a predefined group; here the empty string). *)
Definition new_ng (ng_type : SRP_NGType) (n_hex' g_hex' : string) : NGConstant :=
  match global_Ng_constants ng_type with
  | Some c => mk_NGConstant (bnum_hex2bn (n_hex c)) (bnum_hex2bn (g_hex c))
  | None => mk_NGConstant (bnum_hex2bn n_hex') (bnum_hex2bn g_hex')
  end.

Record SRPUser : Type := mk_SRPUser {
  usr_alg : hash_alg;
  usr_ng : NGConstant;
  usr_a : bnum;
  usr_A : bnum;
  usr_S : bnum;
  usr_bytes_A : option bytes;
  usr_authenticated : Z;
  usr_username : bytes;
  usr_password : bytes;
  usr_password_len : Z;
  usr_M : bytes;
  usr_H_AMK : bytes;
  usr_session_key : bytes;
  usr_session_key_len : Z
}.

Section SRP.
Context {C : Capabilities}.

(** The digest as the C file reads it: [hash_length alg] bytes of [md]. *)
Definition hash_md (alg : hash_alg) (d : bytes) : bytes :=
  firstn (Z.to_nat (hash_length alg)) (hash alg d).

Definition H_nn_pad (alg : hash_alg) (n1 n2 : bnum) : option bnum :=
  let len_n1 := bnum_num_bytes n1 in
  let len_n2 := bnum_num_bytes n2 in
  if (len_n2 <? 1) || (len_n2 >? len_n1) then None
  else
    let bin := bnum_bn2bin n1 ++ zeros (Z.to_nat (len_n1 - len_n2)) ++ bnum_bn2bin n2 in
    Some (bnum_bin2bn (hash_md alg bin)).

Definition H_ns (alg : hash_alg) (n : bnum) (bs : bytes) : bnum :=
  bnum_bin2bn (hash_md alg (bnum_bn2bin n ++ bs)).

Definition calculate_x (alg : hash_alg) (salt' : bnum) (username password : bytes)
    (password_len : Z) : bnum :=
  let ucp_hash :=
    hash_md alg (firstn (strlen username) username ++ cstr ":"
                 ++ firstn (Z.to_nat password_len) password) in
  H_ns alg salt' ucp_hash.

Definition hash_num (alg : hash_alg) (n : bnum) : bytes :=
  hash_md alg (bnum_bn2bin n).

Fixpoint xor_bytes (a b : bytes) : bytes :=
  match a, b with
  | x :: a', y :: b' => byte_xor x y :: xor_bytes a' b'
  | _, _ => []
  end.

Definition calculate_M (alg : hash_alg) (ng : NGConstant) (I : bytes) (s A B : bnum) (K : bytes)
  : bytes :=
  let H_N := hash_num alg (ng_N ng) in
  let H_g := hash_num alg (ng_g ng) in
  let H_I := hash_md alg (firstn (strlen I) I) in
  let H_xor := xor_bytes H_N H_g in
  hash_md alg (H_xor ++ H_I ++ bnum_bn2bin s ++ bnum_bn2bin A ++ bnum_bn2bin B ++ K).

Definition calculate_H_AMK (alg : hash_alg) (A : bnum) (M K : bytes) : bytes :=
  hash_md alg (bnum_bn2bin A ++ M ++ K).

(** [srp_user_new]: a zeroed user with copies of the name and password. *)
Definition srp_user_new (alg : hash_alg) (ng_type : SRP_NGType) (username : bytes)
    (bytes_password : bytes) (len_password : Z) (n_hex' g_hex' : string) : SRPUser :=
  {| usr_alg := alg;
     usr_ng := new_ng ng_type n_hex' g_hex';
     usr_a := 0; usr_A := 0; usr_S := 0;
     usr_bytes_A := None;
     usr_authenticated := 0;
     usr_username := firstn (strlen username) username ++ [x00];
     usr_password := firstn (Z.to_nat len_password) bytes_password;
     usr_password_len := len_password;
     usr_M := zeros 64;
     usr_H_AMK := zeros 64;
     usr_session_key := zeros 64;
     usr_session_key_len := 0 |}.

Definition srp_user_is_authenticated (usr : SRPUser) : Z := usr_authenticated usr.

Definition srp_user_get_session_key (usr : SRPUser) : bytes * Z :=
  (usr_session_key usr, usr_session_key_len usr).

(** [srp_user_start_authentication]; [rnd] is what [bnum_random] draws.
    Returns the user and the outputs (username, bytes_A). *)
Definition srp_user_start_authentication (usr : SRPUser) (rnd : bnum)
  : SRPUser * (bytes * bytes) :=
  let A := bnum_modexp (ng_g (usr_ng usr)) rnd (ng_N (usr_ng usr)) in
  let bytes_A := bnum_bn2bin A in
  ({| usr_alg := usr_alg usr; usr_ng := usr_ng usr;
      usr_a := rnd; usr_A := A; usr_S := usr_S usr;
      usr_bytes_A := Some bytes_A;
      usr_authenticated := usr_authenticated usr;
      usr_username := usr_username usr;
      usr_password := usr_password usr;
      usr_password_len := usr_password_len usr;
      usr_M := usr_M usr; usr_H_AMK := usr_H_AMK usr;
      usr_session_key := usr_session_key usr;
      usr_session_key_len := usr_session_key_len usr |},
   (usr_username usr, bytes_A)).

(** The user with a computed secret and the arrays that go with it. *)
Definition with_session (usr : SRPUser) (S' : bnum) (session_key : bytes)
    (session_key_len : Z) (M H_AMK : bytes) : SRPUser :=
  {| usr_alg := usr_alg usr; usr_ng := usr_ng usr;
     usr_a := usr_a usr; usr_A := usr_A usr; usr_S := S';
     usr_bytes_A := usr_bytes_A usr;
     usr_authenticated := usr_authenticated usr;
     usr_username := usr_username usr;
     usr_password := usr_password usr;
     usr_password_len := usr_password_len usr;
     usr_M := M;
     usr_H_AMK := H_AMK;
     usr_session_key := session_key;
     usr_session_key_len := session_key_len |}.

(** [srp_user_process_challenge]. Returns the user and the outputs
    (bytes_M, len_M); a NULL [bytes_M] is [None], and a proof is the
    array [usr->M] it points to. A digest is written to the start of its
    64-byte array of the struct and read back from there. *)
Definition srp_user_process_challenge (usr : SRPUser) (bytes_s bytes_B : bytes)
  : SRPUser * (option bytes * Z) :=
  let alg := usr_alg usr in
  let N := ng_N (usr_ng usr) in
  let g := ng_g (usr_ng usr) in
  let s := bnum_bin2bn bytes_s in
  let B := bnum_bin2bn bytes_B in
  match H_nn_pad alg N g with
  | None => (usr, (None, 0))
  | Some k =>
      match H_nn_pad alg (usr_A usr) B with
      | None => (usr, (None, 0))
      | Some u =>
          let x := calculate_x alg s (usr_username usr)
                     (usr_password usr) (usr_password_len usr) in
          (* SRP-6a safety check *)
          if negb (bnum_is_zero B) && negb (bnum_is_zero u) then
            (* S = (B - k*(g^x)) ^ (a + ux) *)
            let tmp1 := u * x in
            let tmp2 := usr_a usr + tmp1 in
            let tmp1 := bnum_modexp g x N in
            let tmp3 := k * tmp1 in
            let tmp1 := B - tmp3 in
            let S' := bnum_modexp tmp1 tmp2 N in
            let session_key := memcpy_into (usr_session_key usr) (hash_num alg S') in
            let session_key_len := hash_length alg in
            let K := firstn (Z.to_nat session_key_len) session_key in
            let M :=
              memcpy_into (usr_M usr)
                (calculate_M alg (usr_ng usr) (usr_username usr) s (usr_A usr) B K) in
            let H_AMK :=
              memcpy_into (usr_H_AMK usr)
                (calculate_H_AMK alg (usr_A usr)
                   (firstn (Z.to_nat (hash_length alg)) M) K) in
            let usr' := with_session usr S' session_key session_key_len M H_AMK in
            (usr', (Some (usr_M usr'), hash_length alg))
          else (usr, (None, 0))
      end
  end.

End SRP.

(* ------------------------------------------------------------------ *)
(** ** The contexts *)

Record pair_setup_context : Type := mk_pair_setup_context {
  sctx_user : option SRPUser;
  sctx_pin : bytes;
  sctx_device_id : bytes;
  sctx_pkA : option bytes;
  sctx_pkB : option bytes;
  sctx_M1 : option bytes;
  sctx_M2 : option bytes;
  sctx_salt : option bytes;
  sctx_public_key : bytes;
  sctx_private_key : bytes;
  sctx_auth_key : bytes;
  sctx_epk : option bytes;
  sctx_authtag : option bytes;
  sctx_errmsg : option string
}.

Record pair_verify_context : Type := mk_pair_verify_context {
  vctx_device_id : bytes;
  server_eph_public_key : bytes;
  server_public_key : bytes;
  client_public_key : bytes;
  client_private_key : bytes;
  client_eph_public_key : bytes;
  client_eph_private_key : bytes;
  shared_secret : bytes;
  vctx_errmsg : option string
}.

Record pair_cipher_context : Type := mk_pair_cipher_context {
  encryption_key : bytes;
  decryption_key : bytes;
  encryption_counter : Z;
  decryption_counter : Z;
  cctx_errmsg : option string
}.

Definition sctx_set_errmsg (sctx : pair_setup_context) (msg : string) : pair_setup_context :=
  {| sctx_user := sctx_user sctx; sctx_pin := sctx_pin sctx;
     sctx_device_id := sctx_device_id sctx;
     sctx_pkA := sctx_pkA sctx; sctx_pkB := sctx_pkB sctx;
     sctx_M1 := sctx_M1 sctx; sctx_M2 := sctx_M2 sctx;
     sctx_salt := sctx_salt sctx;
     sctx_public_key := sctx_public_key sctx;
     sctx_private_key := sctx_private_key sctx;
     sctx_auth_key := sctx_auth_key sctx;
     sctx_epk := sctx_epk sctx; sctx_authtag := sctx_authtag sctx;
     sctx_errmsg := Some msg |}.

Definition sctx_set_user (sctx : pair_setup_context) (usr : SRPUser) : pair_setup_context :=
  {| sctx_user := Some usr; sctx_pin := sctx_pin sctx;
     sctx_device_id := sctx_device_id sctx;
     sctx_pkA := sctx_pkA sctx; sctx_pkB := sctx_pkB sctx;
     sctx_M1 := sctx_M1 sctx; sctx_M2 := sctx_M2 sctx;
     sctx_salt := sctx_salt sctx;
     sctx_public_key := sctx_public_key sctx;
     sctx_private_key := sctx_private_key sctx;
     sctx_auth_key := sctx_auth_key sctx;
     sctx_epk := sctx_epk sctx; sctx_authtag := sctx_authtag sctx;
     sctx_errmsg := sctx_errmsg sctx |}.

Definition sctx_set_auth_key (sctx : pair_setup_context) (k : bytes) : pair_setup_context :=
  {| sctx_user := sctx_user sctx; sctx_pin := sctx_pin sctx;
     sctx_device_id := sctx_device_id sctx;
     sctx_pkA := sctx_pkA sctx; sctx_pkB := sctx_pkB sctx;
     sctx_M1 := sctx_M1 sctx; sctx_M2 := sctx_M2 sctx;
     sctx_salt := sctx_salt sctx;
     sctx_public_key := sctx_public_key sctx;
     sctx_private_key := sctx_private_key sctx;
     sctx_auth_key := k;
     sctx_epk := sctx_epk sctx; sctx_authtag := sctx_authtag sctx;
     sctx_errmsg := sctx_errmsg sctx |}.

Definition vctx_set_errmsg (vctx : pair_verify_context) (msg : string) : pair_verify_context :=
  {| vctx_device_id := vctx_device_id vctx;
     server_eph_public_key := server_eph_public_key vctx;
     server_public_key := server_public_key vctx;
     client_public_key := client_public_key vctx;
     client_private_key := client_private_key vctx;
     client_eph_public_key := client_eph_public_key vctx;
     client_eph_private_key := client_eph_private_key vctx;
     shared_secret := shared_secret vctx;
     vctx_errmsg := Some msg |}.

Definition vctx_set_client_eph_public_key (vctx : pair_verify_context) (k : bytes)
  : pair_verify_context :=
  {| vctx_device_id := vctx_device_id vctx;
     server_eph_public_key := server_eph_public_key vctx;
     server_public_key := server_public_key vctx;
     client_public_key := client_public_key vctx;
     client_private_key := client_private_key vctx;
     client_eph_public_key := k;
     client_eph_private_key := client_eph_private_key vctx;
     shared_secret := shared_secret vctx;
     vctx_errmsg := vctx_errmsg vctx |}.

Definition vctx_set_server_eph_public_key (vctx : pair_verify_context) (k : bytes)
  : pair_verify_context :=
  {| vctx_device_id := vctx_device_id vctx;
     server_eph_public_key := k;
     server_public_key := server_public_key vctx;
     client_public_key := client_public_key vctx;
     client_private_key := client_private_key vctx;
     client_eph_public_key := client_eph_public_key vctx;
     client_eph_private_key := client_eph_private_key vctx;
     shared_secret := shared_secret vctx;
     vctx_errmsg := vctx_errmsg vctx |}.

Definition vctx_set_shared_secret (vctx : pair_verify_context) (k : bytes)
  : pair_verify_context :=
  {| vctx_device_id := vctx_device_id vctx;
     server_eph_public_key := server_eph_public_key vctx;
     server_public_key := server_public_key vctx;
     client_public_key := client_public_key vctx;
     client_private_key := client_private_key vctx;
     client_eph_public_key := client_eph_public_key vctx;
     client_eph_private_key := client_eph_private_key vctx;
     shared_secret := k;
     vctx_errmsg := vctx_errmsg vctx |}.

Definition cctx_set_errmsg (cctx : pair_cipher_context) (msg : string) : pair_cipher_context :=
  {| encryption_key := encryption_key cctx;
     decryption_key := decryption_key cctx;
     encryption_counter := encryption_counter cctx;
     decryption_counter := decryption_counter cctx;
     cctx_errmsg := Some msg |}.

(** [cctx->encryption_counter++] on a [uint64_t]. *)
Definition cctx_incr_encryption_counter (cctx : pair_cipher_context) : pair_cipher_context :=
  {| encryption_key := encryption_key cctx;
     decryption_key := decryption_key cctx;
     encryption_counter := to_uint64 (encryption_counter cctx + 1);
     decryption_counter := decryption_counter cctx;
     cctx_errmsg := cctx_errmsg cctx |}.

Definition cctx_incr_decryption_counter (cctx : pair_cipher_context) : pair_cipher_context :=
  {| encryption_key := encryption_key cctx;
     decryption_key := decryption_key cctx;
     encryption_counter := encryption_counter cctx;
     decryption_counter := to_uint64 (decryption_counter cctx + 1);
     cctx_errmsg := cctx_errmsg cctx |}.

(* ------------------------------------------------------------------ *)
(** ** Helpers of the C library that the API uses *)

Definition hex_digit (n : Z) : byte :=
  if n <? 10 then byte_of_Z (48 + n) else byte_of_Z (87 + n).

(** [sprintf(ptr, "%02x", b)] for an [uint8_t] [b]: two characters. *)
Definition sprintf_02x (b : byte) : bytes :=
  [hex_digit (byte_to_Z b / 16); hex_digit (byte_to_Z b mod 16)].

Definition isspace (b : byte) : bool :=
  let c := byte_to_Z b in (c =? 32) || ((9 <=? c) && (c <=? 13)).

Fixpoint skip_spaces (s : bytes) : bytes :=
  match s with
  | b :: rest => if isspace b then skip_spaces rest else s
  | [] => []
  end.

(** [strtol(s, NULL, 16)]: blanks, a sign, a 0x prefix before a digit,
    then the hexadecimal digits. *)
Definition strtol16 (s : bytes) : Z :=
  let s1 := skip_spaces s in
  let '(negative, s2) :=
    match s1 with
    | x2d :: rest => (true, rest)
    | x2b :: rest => (false, rest)
    | _ => (false, s1)
    end in
  let s3 :=
    match s2 with
    | x30 :: x78 :: d :: rest | x30 :: x58 :: d :: rest =>
        match hex_value d with
        | Some _ => d :: rest
        | None => s2
        end
    | _ => s2
    end in
  let v := hex_digits_value 0 s3 in
  if negative then - v else v.

(** The first [n] elements of an array, by index. *)
Definition array_read (n : nat) (arr : bytes) : bytes :=
  map (fun i => nth i arr x00) (seq 0 n).

(** The loops of [pair_verify_new]: [n] bytes, each from two characters
    at [ptr], [ptr] moving on by two. *)
Fixpoint decode_hex_pairs (n : nat) (ptr : bytes) : bytes :=
  match n with
  | O => []
  | S n' =>
      let hex := [nth 0 ptr x00; nth 1 ptr x00; x00] in
      byte_of_Z (strtol16 hex) :: decode_hex_pairs n' (skipn 2 ptr)
  end.

Definition newline : string := String.String (Ascii.ascii_of_nat 10) String.EmptyString.

Section API.
Context {C : Capabilities}.

Definition encrypt_chacha (plain key ad nonce' : bytes) : option (bytes * bytes) :=
  chacha20_poly1305_seal key nonce' ad plain.

Definition decrypt_chacha (cipher key ad tag nonce' : bytes) : option bytes :=
  chacha20_poly1305_open key nonce' ad cipher tag.

(** [response_process]: the parsed response, or NULL ([Error]) with the
    message it leaves in [*errmsg]. The first byte of an Error item is
    read with no look at the size of the item: for an item of no bytes
    the read is outside the value, and the process is taken to stop
    there. *)
Definition response_process (data : bytes) : res tlv_values * option string :=
  match tlv_parse data with
  | None => (Error, Some (String.append "Could not parse TLV" newline))
  | Some response =>
      match tlv_get_value response TLVType_Error with
      | Some [] => (Trap, None)
      | Some (e0 :: _) =>
          let msg :=
            if Byte.eqb e0 (TLVError_code TLVError_Authentication)
            then "Device returned an authtication failure"
            else if Byte.eqb e0 (TLVError_code TLVError_Backoff)
            then String.append "Device told us to back off pairing attempts" newline
            else if Byte.eqb e0 (TLVError_code TLVError_MaxPeers)
            then String.append "Max peers trying to connect to device" newline
            else if Byte.eqb e0 (TLVError_code TLVError_MaxTries)
            then String.append "Max pairing attemps reached" newline
            else if Byte.eqb e0 (TLVError_code TLVError_Unavailable)
            then String.append "Device is unuavailble at this time" newline
            else String.append "Device is busy/returned unknown error" newline in
          (Error, Some msg)
      | None => (Ok response, None)
      end
  end.

(* ---------------------------------- API ---------------------------------- *)

(** [device_id && strlen(device_id) != 16] *)
Definition device_id_rejected (device_id : option bytes) : bool :=
  match device_id with
  | Some d => negb (Nat.eqb (strlen d) 16)
  | None => false
  end.

(** The zeroed [char device_id[17]] after the copy of [device_id]. *)
Definition device_id_array (device_id : option bytes) : bytes :=
  match device_id with
  | Some d => memcpy_into (zeros 17) (firstn (strlen d) d)
  | None => zeros 17
  end.

Definition pair_setup_new (pin device_id : option bytes) : option pair_setup_context :=
  if sodium_init =? -1 then None
  else
    match pin with
    | None => None
    | Some pin' =>
        if Nat.ltb (strlen pin') 4 then None
        else if device_id_rejected device_id then None
        else
          Some {| sctx_user := None;
                  sctx_pin := firstn 4 pin';
                  sctx_device_id := device_id_array device_id;
                  sctx_pkA := None; sctx_pkB := None;
                  sctx_M1 := None; sctx_M2 := None;
                  sctx_salt := None;
                  sctx_public_key := zeros (Z.to_nat crypto_sign_PUBLICKEYBYTES);
                  sctx_private_key := zeros (Z.to_nat crypto_sign_SECRETKEYBYTES);
                  sctx_auth_key :=
                    zeros (Z.to_nat (2 * (crypto_sign_PUBLICKEYBYTES + crypto_sign_SECRETKEYBYTES) + 1));
                  sctx_epk := None; sctx_authtag := None;
                  sctx_errmsg := None |}
    end.

Definition pair_setup_errmsg (sctx : pair_setup_context) : option string := sctx_errmsg sctx.

(** [pair_setup_request1]: the context and the request (NULL is [None]).
    The SRP user is made from the four bytes of [sctx->pin]. *)
Definition pair_setup_request1 (sctx : pair_setup_context) : pair_setup_context * option bytes :=
  let request := tlv_new in
  let usr := srp_user_new HASH_SHA512 SRP_NG_3072 (cstr USERNAME)
               (sctx_pin sctx) 4 "" "" in
  let sctx := sctx_set_user sctx usr in
  let method := pair_method_code PairingMethodPairSetup in
  let request := tlv_add_value request TLVType_State [state (pair_keys_map PAIR_SETUP_MSG01)] in
  let request := tlv_add_value request TLVType_Method [method] in
  match tlv_format request REQUEST_BUFSIZE with
  | None => (sctx_set_errmsg sctx "Setup request 1: tlv_format returned an error", None)
  | Some data => (sctx, Some data)
  end.

(** [pair_setup_response3]: [Ok tt] is the return value 0. *)
Definition pair_setup_response3 (sctx : pair_setup_context) (data : bytes)
  : pair_setup_context * res unit :=
  match fst (response_process data) with
  | Trap => (sctx, Trap)
  | Error => (sctx_set_errmsg sctx "Setup response 3: Could not parse TLV", Error)
  | Ok response =>
      match tlv_get_value response TLVType_EncryptedData with
      | None => (sctx_set_errmsg sctx "Setup response 3: Missing encrypted_data", Error)
      | Some encrypted_data =>
          match sctx_user sctx with
          | None => (sctx, Trap)
          | Some usr =>
              (* the address of an array of the user: never NULL *)
              let session_key := fst (srp_user_get_session_key usr) in
              match hkdf_extract_expand 32 (firstn 64 session_key) PAIR_SETUP_MSG06 with
              | Trap => (sctx, Trap)
              | Error =>
                  (sctx_set_errmsg sctx "Setup response 3: hkdf error getting derived_key", Error)
              | Ok derived_key =>
                  (* the encrypted payload + the auth tag *)
                  if Z.of_nat (length encrypted_data) <? AUTHTAG_LENGTH
                  then (sctx_set_errmsg sctx "Setup response 3: Invalid encrypted data", Error)
                  else
                    let encrypted_len := Z.of_nat (length encrypted_data) - AUTHTAG_LENGTH in
                    let tag := skipn (Z.to_nat encrypted_len) encrypted_data in
                    let nonce' := stage_nonce PAIR_SETUP_MSG06 in
                    match decrypt_chacha (firstn (Z.to_nat encrypted_len) encrypted_data)
                            derived_key [] tag nonce' with
                    | None => (sctx_set_errmsg sctx "Setup response 3: Decryption error", Error)
                    | Some decrypted_data =>
                        match fst (response_process decrypted_data) with
                        | Trap => (sctx, Trap)
                        | Error =>
                            (sctx_set_errmsg sctx "Setup response 3: Could not parse decrypted TLV",
                             Error)
                        | Ok _ =>
                            (* TODO check identifier and signature *)
                            (sctx, Ok tt)
                        end
                    end
              end
          end
      end
  end.

(** [pair_setup_result]: the context and [*authorisation_key]. *)
Definition pair_setup_result (sctx : pair_setup_context) : pair_setup_context * res bytes :=
  if negb (crypto_sign_PUBLICKEYBYTES =? crypto_sign_PUBLICKEYBYTES)
     || negb (crypto_sign_SECRETKEYBYTES =? crypto_sign_SECRETKEYBYTES)
  then (sctx_set_errmsg sctx "Setup result: Bug!", Error)
  else
    let hex :=
      flat_map sprintf_02x (array_read (Z.to_nat crypto_sign_PUBLICKEYBYTES) (sctx_public_key sctx))
      ++ flat_map sprintf_02x (array_read (Z.to_nat crypto_sign_SECRETKEYBYTES) (sctx_private_key sctx)) in
    let auth_key := memcpy_into (sctx_auth_key sctx) (hex ++ [x00]) in
    (sctx_set_auth_key sctx auth_key, Ok auth_key).

Definition pair_verify_new (authorisation_key device_id : option bytes)
  : option pair_verify_context :=
  if sodium_init =? -1 then None
  else
    match authorisation_key with
    | None => None
    | Some key =>
        if negb (Z.of_nat (strlen key)
                 =? 2 * (crypto_sign_PUBLICKEYBYTES + crypto_sign_SECRETKEYBYTES))
        then None
        else if device_id_rejected device_id then None
        else
          let npk := Z.to_nat crypto_sign_PUBLICKEYBYTES in
          let nsk := Z.to_nat crypto_sign_SECRETKEYBYTES in
          Some {| vctx_device_id := device_id_array device_id;
                  server_eph_public_key := zeros 32;
                  server_public_key := zeros 64;
                  client_public_key := decode_hex_pairs npk key;
                  client_private_key := decode_hex_pairs nsk (skipn (2 * npk) key);
                  client_eph_public_key := zeros 32;
                  client_eph_private_key := zeros 32;
                  shared_secret := zeros 32;
                  vctx_errmsg := None |}
    end.

Definition pair_verify_errmsg (vctx : pair_verify_context) : option string := vctx_errmsg vctx.

Definition basepoint : bytes := x09 :: zeros 31.

Definition pair_verify_request1 (vctx : pair_verify_context)
  : pair_verify_context * option bytes :=
  let request := tlv_new in
  let '(q, ret) := crypto_scalarmult (client_eph_private_key vctx) basepoint in
  let vctx := vctx_set_client_eph_public_key vctx q in
  if ret <? 0
  then (vctx_set_errmsg vctx "Verify request 1: Curve 25519 returned an error", None)
  else
    let request := tlv_add_value request TLVType_State [state (pair_keys_map PAIR_VERIFY_MSG01)] in
    let request := tlv_add_value request TLVType_PublicKey (client_eph_public_key vctx) in
    match tlv_format request REQUEST_BUFSIZE with
    | None => (vctx_set_errmsg vctx "Verify request 1: tlv_format returned an error", None)
    | Some data => (vctx, Some data)
    end.

Definition pair_verify_response1 (vctx : pair_verify_context) (data : bytes)
  : pair_verify_context * res unit :=
  match fst (response_process data) with
  | Trap => (vctx, Trap)
  | Error => (vctx_set_errmsg vctx "Verify response 1: Could not parse TLV", Error)
  | Ok response =>
      match tlv_get_value response TLVType_EncryptedData with
      | None => (vctx_set_errmsg vctx "Verify response 1: Missing encrypted_data", Error)
      | Some encrypted_data =>
          match tlv_get_value response TLVType_PublicKey with
          | None =>
              (vctx_set_errmsg vctx "Verify response 1: Missing or invalid public_key", Error)
          | Some public_key =>
              if negb (Z.of_nat (length public_key) =? 32)
              then (vctx_set_errmsg vctx "Verify response 1: Missing or invalid public_key", Error)
              else
                let vctx := vctx_set_server_eph_public_key vctx public_key in
                let '(secret, ret) :=
                  crypto_scalarmult (client_eph_private_key vctx) (server_eph_public_key vctx) in
                let vctx := vctx_set_shared_secret vctx secret in
                if ret <? 0
                then (vctx_set_errmsg vctx "Verify response 1: Curve 25519 returned an error", Error)
                else
                    match hkdf_extract_expand 32 (firstn 32 (shared_secret vctx)) PAIR_VERIFY_MSG02 with
                    | Trap => (vctx, Trap)
                    | Error =>
                        (vctx_set_errmsg vctx "Verify response 1: hkdf error getting derived_key",
                         Error)
                    | Ok derived_key =>
                        if Z.of_nat (length encrypted_data) <? AUTHTAG_LENGTH
                        then (vctx_set_errmsg vctx "Verify response 1: Invalid encrypted data", Error)
                        else
                          let encrypted_len := Z.of_nat (length encrypted_data) - AUTHTAG_LENGTH in
                          let tag := skipn (Z.to_nat encrypted_len) encrypted_data in
                          let nonce' := stage_nonce PAIR_VERIFY_MSG02 in
                          match decrypt_chacha (firstn (Z.to_nat encrypted_len) encrypted_data)
                                  derived_key [] tag nonce' with
                          | None =>
                              (vctx_set_errmsg vctx "Verify response 1: Decryption error", Error)
                          | Some decrypted_data =>
                              match fst (response_process decrypted_data) with
                              | Trap => (vctx, Trap)
                              | Error =>
                                  (vctx_set_errmsg vctx
                                     "Verify response 1: Could not parse decrypted TLV", Error)
                              | Ok _ =>
                                  (* TODO check identifier and signature *)
                                  (vctx, Ok tt)
                              end
                          end
                    end
          end
      end
  end.

(** [pair_verify_result]: [*shared_secret] and the return value. *)
Definition pair_verify_result (vctx : pair_verify_context) : bytes * Z :=
  (shared_secret vctx, 0).

End API.

(* ------------------------------------------------------------------ *)
(** ** The framed control channel *)

Section Channel.
Context {C : Capabilities}.

(** [memcpy] of an [n]-byte unsigned integer, and the read back. *)
Definition host_bytes (n : nat) (z : Z) : bytes :=
  if host_big_endian then be_bytes n z else le_bytes n z.

Definition host_value (bs : bytes) : Z :=
  if host_big_endian then be_value bs else le_value bs.

(** The nonce of a block: four zero bytes, then the 64-bit counter. *)
Definition counter_nonce (counter : Z) : bytes := zeros 4 ++ host_bytes 8 counter.

Definition pair_cipher_new (shared_secret' : bytes) : res pair_cipher_context :=
  match hkdf_extract_expand 32 (firstn 32 shared_secret') PAIR_CONTROL_WRITE with
  | Ok ekey =>
      match hkdf_extract_expand 32 (firstn 32 shared_secret') PAIR_CONTROL_READ with
      | Ok dkey =>
          Ok {| encryption_key := ekey; decryption_key := dkey;
                encryption_counter := 0; decryption_counter := 0;
                cctx_errmsg := None |}
      | Error => Error
      | Trap => Trap
      end
  | Error => Error
  | Trap => Trap
  end.

Definition pair_cipher_errmsg (cctx : pair_cipher_context) : option string := cctx_errmsg cctx.

(** The loop of [pair_encrypt], [todo] iterations from index [i].
    [plain_block] is what lies from that pointer to the end of the
    plaintext, [cipher] what has been written. [None]: the return of -1
    from inside the loop. *)
Fixpoint encrypt_blocks (todo : nat) (i nblocks : Z) (plain_block cipher : bytes)
    (cctx : pair_cipher_context) : pair_cipher_context * option (bytes * bytes) :=
  match todo with
  | O => (cctx, Some (plain_block, cipher))
  | S todo' =>
      (* If it is the last block we will encrypt only the remaining data *)
      let block_len :=
        if i + 1 =? nblocks then to_uint16 (Z.of_nat (length plain_block))
        else ENCRYPTED_LEN_MAX in
      let nonce' := counter_nonce (encryption_counter cctx) in
      let prefix := host_bytes 2 block_len in
      match encrypt_chacha (firstn (Z.to_nat block_len) plain_block)
              (encryption_key cctx) prefix nonce' with
      | None => (cctx_set_errmsg cctx "Encryption with chacha poly1305 failed", None)
      | Some (c, tag) =>
          encrypt_blocks todo' (i + 1) nblocks
            (skipn (Z.to_nat block_len) plain_block)
            (cipher ++ prefix ++ c ++ tag)
            (cctx_incr_encryption_counter cctx)
      end
  end.

(** The number of blocks [pair_encrypt] computes for a length. *)
Definition encrypt_nblocks (plaintext_len : Z) : Z :=
  to_int (1 + (plaintext_len - 1) / ENCRYPTED_LEN_MAX).

(** [pair_encrypt]: the context and [*ciphertext]. *)
Definition pair_encrypt (plaintext : option bytes) (cctx : pair_cipher_context)
  : pair_cipher_context * res bytes :=
  match plaintext with
  | None => (cctx, Error)
  | Some plain =>
      let plaintext_len := Z.of_nat (length plain) in
      if plaintext_len =? 0 then (cctx, Error)
      else
        let nblocks := encrypt_nblocks plaintext_len in
        let ciphertext_len := to_uint64 (nblocks * (2 + AUTHTAG_LENGTH) + plaintext_len) in
        match encrypt_blocks (Z.to_nat nblocks) 0 nblocks plain [] cctx with
        | (cctx', None) => (cctx', Error)
        | (cctx', Some (plain_block, cipher)) =>
            (* assert(plain_block == plaintext + plaintext_len);
               assert(cipher_block == *ciphertext + *ciphertext_len); *)
            if (Nat.eqb (length plain_block) 0) && (Z.of_nat (length cipher) =? ciphertext_len)
            then (cctx', Ok cipher)
            else (cctx', Trap)
        end
  end.

(** How the loop of [pair_decrypt] ends. *)
Inductive decrypt_end : Type :=
| Decrypted (plain : bytes)
| DecryptFailed
| OutOfFuel.

(** The loop of [pair_decrypt]. [cipher_block] is what lies from that
    pointer to the end of the ciphertext, [plain] what has been written.
    When one byte is left the second byte of the length is read past the
    buffer; whatever it is, the bounds check that follows fails. *)
Fixpoint decrypt_blocks (fuel : nat) (cipher_block plain : bytes)
    (cctx : pair_cipher_context) : pair_cipher_context * decrypt_end :=
  match fuel with
  | O => (cctx, OutOfFuel)
  | S fuel' =>
      if Nat.ltb 0 (length cipher_block) then
        let block_len := host_value [nth 0 cipher_block x00; nth 1 cipher_block x00] in
        if block_len + 2 + AUTHTAG_LENGTH >? Z.of_nat (length cipher_block)
        then (cctx_set_errmsg cctx "Corrupt block length in encrypted data", DecryptFailed)
        else
          let body := skipn 2 cipher_block in
          let tag := firstn (Z.to_nat AUTHTAG_LENGTH) (skipn (Z.to_nat block_len) body) in
          let nonce' := counter_nonce (decryption_counter cctx) in
          match decrypt_chacha (firstn (Z.to_nat block_len) body) (decryption_key cctx)
                  (host_bytes 2 block_len) tag nonce' with
          | None => (cctx_set_errmsg cctx "Decryption with chacha poly1305 failed", DecryptFailed)
          | Some p =>
              decrypt_blocks fuel'
                (skipn (Z.to_nat (block_len + 2 + AUTHTAG_LENGTH)) cipher_block)
                (plain ++ p)
                (cctx_incr_decryption_counter cctx)
          end
      else (cctx, Decrypted plain)
  end.

(** [pair_decrypt]: the context and [*plaintext]. Every block takes at
    least 18 bytes, so the loop runs at most once per byte. *)
Definition pair_decrypt (ciphertext : option bytes) (cctx : pair_cipher_context)
  : pair_cipher_context * res bytes :=
  match ciphertext with
  | None => (cctx, Error)
  | Some cipher =>
      let ciphertext_len := Z.of_nat (length cipher) in
      if ciphertext_len <? 2 then (cctx, Error)
      else
        match decrypt_blocks (S (length cipher)) cipher [] cctx with
        | (cctx', Decrypted plain) =>
            (* assert(plain_block < *plaintext + ciphertext_len);
               the second assertion holds when the loop ends *)
            if Z.of_nat (length plain) <? ciphertext_len
            then (cctx', Ok plain)
            else (cctx', Trap)
        | (cctx', DecryptFailed) => (cctx', Error)
        | (cctx', OutOfFuel) => (cctx', Trap)
        end
  end.

End Channel.

(* ------------------------------------------------------------------ *)
(** ** Deterministic fakes of the libraries

    An instance of [Capabilities] that computes, for running the model
    on concrete inputs. Nothing about it is cryptographic: the hash is a
    stream of bytes drawn from a polynomial checksum, the cipher shifts
    every byte by one and the tag is a checksum of key, nonce, associated
    data and ciphertext; no library call fails; the TLV codec is the
    plain type-length-value layout. *)

Module Fakes.

Fixpoint bytes_eqb (a b : bytes) : bool :=
  match a, b with
  | [], [] => true
  | x :: a', y :: b' => Byte.eqb x y && bytes_eqb a' b'
  | _, _ => false
  end.

Definition checksum (d : bytes) : Z :=
  fold_left (fun acc b => (acc * 131 + byte_to_Z b + 1) mod 4294967291) d 7.

(** [n] bytes drawn from a seed by a linear congruential generator. *)
Fixpoint stream (n : nat) (seed : Z) : bytes :=
  match n with
  | O => []
  | S n' =>
      let next := (seed * 1103515245 + 12345) mod 2147483648 in
      byte_of_Z (next / 65536) :: stream n' next
  end.

Definition checksum_hash (alg : hash_alg) (d : bytes) : bytes :=
  stream (Z.to_nat (hash_length alg)) (checksum d).

Definition checksum_hmac (key msg : bytes) : bytes :=
  checksum_hash HASH_SHA512 (key ++ [xff] ++ msg).

Definition shift_up (b : byte) : byte := byte_of_Z (byte_to_Z b + 1).
Definition shift_down (b : byte) : byte := byte_of_Z (byte_to_Z b - 1).

Definition tag_of (key nonce' ad cipher : bytes) : bytes :=
  be_bytes 16 (checksum (key ++ [xff] ++ nonce' ++ [xff] ++ ad ++ [xff] ++ cipher)).

Definition seal (key nonce' ad plain : bytes) : option (bytes * bytes) :=
  let cipher := map shift_up plain in
  Some (cipher, tag_of key nonce' ad cipher).

Definition open (key nonce' ad cipher tag : bytes) : option bytes :=
  if bytes_eqb tag (tag_of key nonce' ad cipher)
  then Some (map shift_down cipher)
  else None.

(** The scalar multiplication only has to be some function of its
    arguments. *)
Definition scalarmult (n p' : bytes) : bytes * Z :=
  (stream 32 (checksum (n ++ [xff] ++ p')), 0).

Definition tlv := list (byte * bytes).

Definition type_code (t : TLVType) : byte :=
  match t with
  | TLVType_Method => x00
  | TLVType_Identifier => x01
  | TLVType_Salt => x02
  | TLVType_PublicKey => x03
  | TLVType_Proof => x04
  | TLVType_EncryptedData => x05
  | TLVType_State => x06
  | TLVType_Error => x07
  | TLVType_Signature => x0a
  end.

Definition error_code (e : TLVError) : byte :=
  match e with
  | TLVError_Authentication => x02
  | TLVError_Backoff => x03
  | TLVError_MaxPeers => x04
  | TLVError_MaxTries => x05
  | TLVError_Unavailable => x06
  end.

Definition add_value (vals : tlv) (t : TLVType) (v : bytes) : tlv :=
  vals ++ [(type_code t, v)].

Definition format_item (item : byte * bytes) : bytes :=
  fst item :: byte_of_Z (Z.of_nat (length (snd item))) :: snd item.

(** Values of at most 255 bytes, in a buffer of [size] bytes. *)
Definition format (vals : tlv) (size : Z) : option bytes :=
  let out := flat_map format_item vals in
  if forallb (fun item => Z.of_nat (length (snd item)) <=? 255) vals
     && (Z.of_nat (length out) <=? size)
  then Some out
  else None.

Fixpoint parse_items (fuel : nat) (data : bytes) : option tlv :=
  match fuel with
  | O => None
  | S fuel' =>
      match data with
      | [] => Some []
      | [_] => None
      | t :: l :: rest =>
          let n := Z.to_nat (byte_to_Z l) in
          if Nat.ltb (length rest) n then None
          else
            match parse_items fuel' (skipn n rest) with
            | Some items => Some ((t, firstn n rest) :: items)
            | None => None
            end
      end
  end.

Definition parse (data : bytes) : option tlv := parse_items (S (length data)) data.

Definition get_value (vals : tlv) (t : TLVType) : option bytes :=
  match find (fun item => Byte.eqb (fst item) (type_code t)) vals with
  | Some item => Some (snd item)
  | None => None
  end.

#[local] Instance capabilities : Capabilities := {|
  host_big_endian := false;
  sodium_init := 0;
  crypto_scalarmult := scalarmult;
  hash := checksum_hash;
  hmac_sha512 := checksum_hmac;
  hkdf_open_fails := false;
  hkdf_derive_fails := fun _ _ _ _ => false;
  chacha20_poly1305_seal := seal;
  chacha20_poly1305_open := open;
  tlv_values := tlv;
  tlv_new := [];
  tlv_add_value := add_value;
  tlv_format := format;
  tlv_parse := parse;
  tlv_get_value := get_value;
  TLVError_code := error_code
|}.

End Fakes.

(* ------------------------------------------------------------------ *)
(** ** Vocabulary of the statements *)

(** The pairs of stages whose rows carry the same salt and info labels. *)
Definition shares_labels (x y : pair_keys) : bool :=
  match x, y with
  | PAIR_SETUP_MSG05, PAIR_SETUP_MSG06
  | PAIR_SETUP_MSG06, PAIR_SETUP_MSG05
  | PAIR_VERIFY_MSG02, PAIR_VERIFY_MSG03
  | PAIR_VERIFY_MSG03, PAIR_VERIFY_MSG02 => true
  | _, _ => false
  end.

Definition labels (k : pair_keys) : option string * option string :=
  (salt (pair_keys_map k), info (pair_keys_map k)).

(** Two inputs of HMAC-SHA512, each a key and a message, that are
    distinct and whose outputs have the same first [n] bytes. *)
Definition hmac_collision {C : Capabilities} (n : nat) (k1 m1 k2 m2 : bytes) : Prop :=
  (k1, m1) <> (k2, m2)
  /\ firstn n (hmac_sha512 k1 m1) = firstn n (hmac_sha512 k2 m2).

(* ------------------------------------------------------------------ *)
(** ** Concrete runs on the fakes *)

Module Examples.

Definition FC : Capabilities := Fakes.capabilities.

Definition pin : bytes := cstr "1234".
Definition device_id : bytes := cstr "0123456789ABCDEF".

(** A Pair-Setup context after [pair_setup_request1]. *)
Definition started_setup : option pair_setup_context :=
  option_map (fun sctx => fst (pair_setup_request1 (C := FC) sctx))
    (pair_setup_new (C := FC) (Some pin) (Some device_id)).

Definition public_key : bytes := repeat xab 32.
Definition private_key : bytes := repeat x0f 64.

(** A Pair-Setup context that holds a long-term key pair. *)
Definition keyed_setup : pair_setup_context :=
  {| sctx_user := None; sctx_pin := pin; sctx_device_id := device_id ++ [x00];
     sctx_pkA := None; sctx_pkB := None; sctx_M1 := None; sctx_M2 := None;
     sctx_salt := None;
     sctx_public_key := public_key; sctx_private_key := private_key;
     sctx_auth_key := zeros 193;
     sctx_epk := None; sctx_authtag := None; sctx_errmsg := None |}.

Definition credential : bytes := flat_map sprintf_02x (public_key ++ private_key) ++ [x00].

Definition fresh_verify : option pair_verify_context :=
  pair_verify_new (C := FC) (Some credential) (Some device_id).

(** A peer record with an identifier and no signature. *)
Definition unsigned_record : bytes :=
  Fakes.format_item (Fakes.type_code TLVType_Identifier, cstr "intruder").

(** [record] sealed for a handshake stage under the key derived from
    [secret], as the EncryptedData item of a response. *)
Definition sealed_item (record secret : bytes) (okm_len : Z) (stage : pair_keys) : bytes :=
  match hkdf_extract_expand (C := FC) okm_len secret stage with
  | Ok key =>
      match Fakes.seal key (stage_nonce stage) [] record with
      | Some (c, tag) => Fakes.format_item (Fakes.type_code TLVType_EncryptedData, c ++ tag)
      | None => []
      end
  | _ => []
  end.

(** The response to M5 that carries [unsigned_record], for a context
    whose session key is the zeroed array. *)
Definition setup_response3_data : bytes :=
  sealed_item unsigned_record (zeros 64) 32 PAIR_SETUP_MSG06.

Definition peer_eph_public_key : bytes := repeat x42 32.

(** The response to Pair-Verify M1 that carries [unsigned_record]. *)
Definition verify_response1_data : bytes :=
  Fakes.format_item (Fakes.type_code TLVType_PublicKey, peer_eph_public_key)
  ++ sealed_item unsigned_record (fst (Fakes.scalarmult (zeros 32) peer_eph_public_key))
       32 PAIR_VERIFY_MSG02.

(** An SRP user of the 3072-bit group after
    [srp_user_start_authentication] drew the exponent 1321. *)
Definition srp_user : SRPUser :=
  Eval vm_compute in
    fst (srp_user_start_authentication
           (srp_user_new HASH_SHA512 SRP_NG_3072 (cstr USERNAME) pin 4 "" "")
           1321).

Definition srp_salt : bytes := repeat x5a 16.

(** The peer's public value B = N. *)
Definition srp_B_equal_N : bytes := bnum_bn2bin (ng_N (usr_ng srp_user)).

End Examples.

Section ChannelVocabulary.
Context {C : Capabilities}.

(** What the C code relies on when it sizes its buffers: the seal writes
    as many bytes as it read and a tag of [AUTHTAG_LENGTH] bytes. *)
Definition aead_lengths : Prop :=
  forall key nonce' ad plain c tag,
    chacha20_poly1305_seal key nonce' ad plain = Some (c, tag) ->
    length c = length plain /\ Z.of_nat (length tag) = AUTHTAG_LENGTH.

(** Opening what was sealed, under the same key, nonce and associated
    data, gives the plaintext back. *)
Definition aead_opens : Prop :=
  forall key nonce' ad plain c tag,
    chacha20_poly1305_seal key nonce' ad plain = Some (c, tag) ->
    chacha20_poly1305_open key nonce' ad c tag = Some plain.

(** [frames key counter plain wire lens]: [wire] is [plain] cut into
    chunks of the lengths [lens], each chunk given as the block
    [2-byte length][ciphertext][16-byte tag], sealed under [key] with the
    length prefix as associated data and the successive counter values
    from [counter] in the nonce. *)
Inductive frames (key : bytes) : Z -> bytes -> bytes -> list Z -> Prop :=
| frames_nil : forall counter, frames key counter [] [] []
| frames_block : forall counter chunk c tag plain wire lens,
    1 <= Z.of_nat (length chunk) <= ENCRYPTED_LEN_MAX ->
    encrypt_chacha chunk key (host_bytes 2 (Z.of_nat (length chunk))) (counter_nonce counter)
      = Some (c, tag) ->
    length c = length chunk ->
    Z.of_nat (length tag) = AUTHTAG_LENGTH ->
    frames key (to_uint64 (counter + 1)) plain wire lens ->
    frames key counter (chunk ++ plain)
      (host_bytes 2 (Z.of_nat (length chunk)) ++ c ++ tag ++ wire)
      (Z.of_nat (length chunk) :: lens).

(** [decodes cctx wire plain cctx']: [wire] is a sequence of whole
    blocks that [pair_decrypt] opens one after the other from the
    context [cctx], giving [plain] and leaving the context [cctx']. *)
Inductive decodes : pair_cipher_context -> bytes -> bytes -> pair_cipher_context -> Prop :=
| decodes_nil : forall cctx, decodes cctx [] [] cctx
| decodes_block : forall cctx block_len c tag p wire plain cctx',
    0 <= block_len < 2 ^ 16 ->
    Z.of_nat (length c) = block_len ->
    Z.of_nat (length tag) = AUTHTAG_LENGTH ->
    decrypt_chacha c (decryption_key cctx) (host_bytes 2 block_len) tag
      (counter_nonce (decryption_counter cctx)) = Some p ->
    decodes (cctx_incr_decryption_counter cctx) wire plain cctx' ->
    decodes cctx (host_bytes 2 block_len ++ c ++ tag ++ wire) (p ++ plain) cctx'.


(** Successive calls of [pair_encrypt] on one context, all successful. *)
Fixpoint encrypt_calls (cctx : pair_cipher_context) (plaintexts : list bytes)
  : option pair_cipher_context :=
  match plaintexts with
  | [] => Some cctx
  | plain :: more =>
      match pair_encrypt (Some plain) cctx with
      | (cctx', Ok _) => encrypt_calls cctx' more
      | _ => None
      end
  end.

End ChannelVocabulary.

(** The number of blocks of a plaintext: its length over 1024, rounded up. *)
Definition blocks_of (plain : bytes) : Z :=
  (Z.of_nat (length plain) + ENCRYPTED_LEN_MAX - 1) / ENCRYPTED_LEN_MAX.

Definition total_blocks (plaintexts : list bytes) : Z :=
  fold_right (fun plain acc => blocks_of plain + acc) 0 plaintexts.

(** The largest plaintext whose block count fits the [int] it is kept in. *)
Definition PLAINTEXT_LEN_MAX : Z := INT_MAX * ENCRYPTED_LEN_MAX.

(** The chunk lengths of a plaintext of [len] bytes cut into [n] blocks:
    1024 for every block but the last, which takes the rest. *)
Fixpoint chunk_lengths (n : nat) (len : Z) : list Z :=
  match n with
  | O => []
  | S n' =>
      match n' with
      | O => [len]
      | S _ => ENCRYPTED_LEN_MAX :: chunk_lengths n' (len - ENCRYPTED_LEN_MAX)
      end
  end.

(** The seal never fails. *)
Definition aead_total {C : Capabilities} : Prop :=
  forall key nonce' ad plain, chacha20_poly1305_seal key nonce' ad plain <> None.

(** Inputs of the framed channel, on the fakes. *)
Module ChannelExamples.

(** The context [pair_cipher_new] makes from a zero shared secret. *)
Definition sender : pair_cipher_context :=
  Eval vm_compute in
    match pair_cipher_new (C := Examples.FC) (zeros 32) with
    | Ok cctx => cctx
    | _ => mk_pair_cipher_context [] [] 0 0 None
    end.

(** The context at the other end: the keys the other way round. *)
Definition peer_of (cctx : pair_cipher_context) : pair_cipher_context :=
  {| encryption_key := decryption_key cctx;
     decryption_key := encryption_key cctx;
     encryption_counter := 0;
     decryption_counter := 0;
     cctx_errmsg := None |}.

Definition plain_1025 : bytes := repeat x41 1025.
Definition plain_4096 : bytes := repeat x42 4096.

End ChannelExamples.

(* ------------------------------------------------------------------ *)
(** ** The rest of the SRP client and of the Pair-Setup flow *)

Definition srp_user_set_authenticated (usr : SRPUser) (v : Z) : SRPUser :=
  {| usr_alg := usr_alg usr; usr_ng := usr_ng usr;
     usr_a := usr_a usr; usr_A := usr_A usr; usr_S := usr_S usr;
     usr_bytes_A := usr_bytes_A usr;
     usr_authenticated := v;
     usr_username := usr_username usr;
     usr_password := usr_password usr;
     usr_password_len := usr_password_len usr;
     usr_M := usr_M usr; usr_H_AMK := usr_H_AMK usr;
     usr_session_key := usr_session_key usr;
     usr_session_key_len := usr_session_key_len usr |}.

(** [memcmp(s1, s2, n) == 0]; the lists are the memory from the two
    pointers on, at least [n] bytes of it. *)
Fixpoint memcmp_equal (n : nat) (s1 s2 : bytes) : bool :=
  match n with
  | O => true
  | S n' =>
      match s1, s2 with
      | a :: s1', b :: s2' => Byte.eqb a b && memcmp_equal n' s1' s2'
      | _, _ => false
      end
  end.

(** [srp_user_verify_session]: [bytes_HAMK] is the memory at that
    pointer. *)
Definition srp_user_verify_session (usr : SRPUser) (bytes_HAMK : bytes) : SRPUser :=
  if memcmp_equal (Z.to_nat (hash_length (usr_alg usr))) (usr_H_AMK usr) bytes_HAMK
  then srp_user_set_authenticated usr 1
  else usr.

Definition sctx_set_pkB_salt (sctx : pair_setup_context) (pkB salt' : bytes)
  : pair_setup_context :=
  {| sctx_user := sctx_user sctx; sctx_pin := sctx_pin sctx;
     sctx_device_id := sctx_device_id sctx;
     sctx_pkA := sctx_pkA sctx; sctx_pkB := Some pkB;
     sctx_M1 := sctx_M1 sctx; sctx_M2 := sctx_M2 sctx;
     sctx_salt := Some salt';
     sctx_public_key := sctx_public_key sctx;
     sctx_private_key := sctx_private_key sctx;
     sctx_auth_key := sctx_auth_key sctx;
     sctx_epk := sctx_epk sctx; sctx_authtag := sctx_authtag sctx;
     sctx_errmsg := sctx_errmsg sctx |}.

Definition sctx_set_M2 (sctx : pair_setup_context) (M2 : bytes) : pair_setup_context :=
  {| sctx_user := sctx_user sctx; sctx_pin := sctx_pin sctx;
     sctx_device_id := sctx_device_id sctx;
     sctx_pkA := sctx_pkA sctx; sctx_pkB := sctx_pkB sctx;
     sctx_M1 := sctx_M1 sctx; sctx_M2 := Some M2;
     sctx_salt := sctx_salt sctx;
     sctx_public_key := sctx_public_key sctx;
     sctx_private_key := sctx_private_key sctx;
     sctx_auth_key := sctx_auth_key sctx;
     sctx_epk := sctx_epk sctx; sctx_authtag := sctx_authtag sctx;
     sctx_errmsg := sctx_errmsg sctx |}.

(** The context after the two SRP calls of [pair_setup_request2]. *)
Definition sctx_set_challenge (sctx : pair_setup_context) (usr : SRPUser)
    (pkA : bytes) (M1 : option bytes) : pair_setup_context :=
  {| sctx_user := Some usr; sctx_pin := sctx_pin sctx;
     sctx_device_id := sctx_device_id sctx;
     sctx_pkA := Some pkA; sctx_pkB := sctx_pkB sctx;
     sctx_M1 := M1; sctx_M2 := sctx_M2 sctx;
     sctx_salt := sctx_salt sctx;
     sctx_public_key := sctx_public_key sctx;
     sctx_private_key := sctx_private_key sctx;
     sctx_auth_key := sctx_auth_key sctx;
     sctx_epk := sctx_epk sctx; sctx_authtag := sctx_authtag sctx;
     sctx_errmsg := sctx_errmsg sctx |}.

Definition sctx_set_keypair (sctx : pair_setup_context) (pk sk : bytes)
  : pair_setup_context :=
  {| sctx_user := sctx_user sctx; sctx_pin := sctx_pin sctx;
     sctx_device_id := sctx_device_id sctx;
     sctx_pkA := sctx_pkA sctx; sctx_pkB := sctx_pkB sctx;
     sctx_M1 := sctx_M1 sctx; sctx_M2 := sctx_M2 sctx;
     sctx_salt := sctx_salt sctx;
     sctx_public_key := pk;
     sctx_private_key := sk;
     sctx_auth_key := sctx_auth_key sctx;
     sctx_epk := sctx_epk sctx; sctx_authtag := sctx_authtag sctx;
     sctx_errmsg := sctx_errmsg sctx |}.

(** A buffer given as pointer and length, the pointer NULL when nothing
    was stored: the length is then 0 and nothing is read. *)
Definition buffer_or_empty (b : option bytes) : bytes :=
  match b with
  | Some bs => bs
  | None => []
  end.

Section SetupFlow.
Context {C : Capabilities}.

Definition pair_setup_response1 (sctx : pair_setup_context) (data : bytes)
  : pair_setup_context * res unit :=
  match fst (response_process data) with
  | Trap => (sctx, Trap)
  | Error => (sctx_set_errmsg sctx "Setup response 1: Could not parse TLV", Error)
  | Ok response =>
      match tlv_get_value response TLVType_PublicKey,
            tlv_get_value response TLVType_Salt with
      | Some pk, Some salt' => (sctx_set_pkB_salt sctx pk salt', Ok tt)
      | _, _ =>
          (sctx_set_errmsg sctx "Setup response 1: Missing or invalid pk/salt", Error)
      end
  end.

(** [pair_setup_request2]; [rnd] is what [bnum_random] draws. The
    proof goes into the request as the [M1_len] bytes at [M1], none when
    [srp_user_process_challenge] gave no proof. *)
Definition pair_setup_request2 (sctx : pair_setup_context) (rnd : bnum)
  : pair_setup_context * res bytes :=
  let request := tlv_new in
  match sctx_user sctx with
  | None => (sctx, Trap)
  | Some usr =>
      (* Calculate A *)
      let '(usr, (_, pkA)) := srp_user_start_authentication usr rnd in
      (* Calculate M1 (client proof) *)
      let '(usr, (M1, M1_len)) :=
        srp_user_process_challenge usr
          (buffer_or_empty (sctx_salt sctx)) (buffer_or_empty (sctx_pkB sctx)) in
      let sctx := sctx_set_challenge sctx usr pkA M1 in
      let request := tlv_add_value request TLVType_State [state (pair_keys_map PAIR_SETUP_MSG03)] in
      let request := tlv_add_value request TLVType_PublicKey pkA in
      let request :=
        tlv_add_value request TLVType_Proof (firstn (Z.to_nat M1_len) (buffer_or_empty M1)) in
      match tlv_format request REQUEST_BUFSIZE with
      | None => (sctx_set_errmsg sctx "Setup request 2: tlv_format returned an error", Error)
      | Some data => (sctx, Ok data)
      end
  end.

(** [pair_setup_response2]. The proof is compared over
    [hash_length] bytes whatever its size: [beyond] is the memory that
    follows the copy of the proof. *)
Definition pair_setup_response2 (sctx : pair_setup_context) (data beyond : bytes)
  : pair_setup_context * res unit :=
  match fst (response_process data) with
  | Trap => (sctx, Trap)
  | Error => (sctx_set_errmsg sctx "Setup response 2: Could not parse TLV", Error)
  | Ok response =>
      match tlv_get_value response TLVType_Proof with
      | None => (sctx_set_errmsg sctx "Setup response 2: Missing proof", Error)
      | Some proof =>
          let sctx := sctx_set_M2 sctx proof in
          match sctx_user sctx with
          | None => (sctx, Trap)
          | Some usr =>
              (* Check M2 *)
              let usr := srp_user_verify_session usr (proof ++ beyond) in
              let sctx := sctx_set_user sctx usr in
              if srp_user_is_authenticated usr =? 0
              then (sctx_set_errmsg sctx "Setup response 2: Server authentication failed", Error)
              else (sctx, Ok tt)
          end
      end
  end.

End SetupFlow.

Section Signing.
Context {C : Capabilities}.

(** libsodium's [crypto_sign_detached]: the signature of a message under
    a secret key. *)
Variable crypto_sign_detached : bytes -> bytes -> bytes.

Definition crypto_sign_BYTES : Z := 64.

(** [create_and_sign_device_info]; [data_len] is the room in [data]. *)
Definition create_and_sign_device_info (data_len : Z) (device_id device_pk pk sk : bytes)
  : option bytes :=
  let device_id_len := strlen device_id in
  let device_info := device_pk ++ firstn device_id_len device_id ++ pk in
  let signature := crypto_sign_detached device_info sk in
  let tlv := tlv_new in
  let tlv := tlv_add_value tlv TLVType_Identifier (firstn device_id_len device_id) in
  let tlv := tlv_add_value tlv TLVType_Signature
               (firstn (Z.to_nat crypto_sign_BYTES) signature) in
  tlv_format tlv data_len.

(** [pair_setup_request3]; [keypair] is what [crypto_sign_keypair]
    generates (public key, secret key). *)
Definition pair_setup_request3 (sctx : pair_setup_context) (keypair : bytes * bytes)
  : pair_setup_context * res bytes :=
  let request := tlv_new in
  match sctx_user sctx with
  | None => (sctx, Trap)
  | Some usr =>
      let '(session_key, session_key_len) := srp_user_get_session_key usr in
      match hkdf_extract_expand 32 (firstn (Z.to_nat session_key_len) session_key)
              PAIR_SETUP_SIGN with
      | Trap => (sctx, Trap)
      | Error => (sctx_set_errmsg sctx "Setup request 3: hkdf error getting device_x", Error)
      | Ok device_x =>
          let sctx := sctx_set_keypair sctx (fst keypair) (snd keypair) in
          match create_and_sign_device_info REQUEST_BUFSIZE (sctx_device_id sctx)
                  (firstn 32 device_x)
                  (firstn (Z.to_nat crypto_sign_PUBLICKEYBYTES) (sctx_public_key sctx))
                  (sctx_private_key sctx) with
          | None =>
              (sctx_set_errmsg sctx "Setup request 3: error creating signed device info", Error)
          | Some data =>
              match hkdf_extract_expand 32 (firstn 64 session_key) PAIR_SETUP_MSG05 with
              | Trap => (sctx, Trap)
              | Error =>
                  (sctx_set_errmsg sctx "Setup request 3: hkdf error getting derived_key", Error)
              | Ok derived_key =>
                  (* Append TLV-encoded public key to *data *)
                  let append := tlv_new in
                  let append_len := REQUEST_BUFSIZE - Z.of_nat (length data) in
                  let append :=
                    tlv_add_value append TLVType_PublicKey
                      (firstn (Z.to_nat crypto_sign_PUBLICKEYBYTES) (sctx_public_key sctx)) in
                  match tlv_format append append_len with
                  | None =>
                      (sctx_set_errmsg sctx
                         "Setup request 3: error appending public key to TLV", Error)
                  | Some appended =>
                      let data := data ++ appended in
                      let nonce' := stage_nonce PAIR_SETUP_MSG05 in
                      match encrypt_chacha data derived_key [] nonce' with
                      | None =>
                          (sctx_set_errmsg sctx "Setup request 3: Could not encrypt", Error)
                      | Some (c, tag) =>
                          let encrypted_data := c ++ tag in
                          let request :=
                            tlv_add_value request TLVType_State
                              [state (pair_keys_map PAIR_SETUP_MSG05)] in
                          let request :=
                            tlv_add_value request TLVType_EncryptedData encrypted_data in
                          match tlv_format request REQUEST_BUFSIZE with
                          | None =>
                              (sctx_set_errmsg sctx
                                 "Setup request 3: error appending public key to TLV", Error)
                          | Some out => (sctx, Ok out)
                          end
                      end
                  end
              end
          end
      end
  end.

(** [pair_verify_request2]. *)
Definition pair_verify_request2 (vctx : pair_verify_context)
  : pair_verify_context * res bytes :=
  let request := tlv_new in
  match create_and_sign_device_info REQUEST_BUFSIZE (vctx_device_id vctx)
          (firstn 32 (client_eph_public_key vctx))
          (firstn 32 (server_eph_public_key vctx))
          (client_private_key vctx) with
  | None => (vctx_set_errmsg vctx "Verify request 2: error creating signed device info", Error)
  | Some data =>
      match hkdf_extract_expand 32 (firstn 32 (shared_secret vctx)) PAIR_VERIFY_MSG03 with
      | Trap => (vctx, Trap)
      | Error =>
          (vctx_set_errmsg vctx "Verify request 2: hkdf error getting derived_key", Error)
      | Ok derived_key =>
          let nonce' := stage_nonce PAIR_VERIFY_MSG03 in
          match encrypt_chacha data derived_key [] nonce' with
          | None => (vctx_set_errmsg vctx "Verify request 2: Could not encrypt", Error)
          | Some (c, tag) =>
              let encrypted_data := c ++ tag in
              let request :=
                tlv_add_value request TLVType_State [state (pair_keys_map PAIR_VERIFY_MSG03)] in
              let request := tlv_add_value request TLVType_EncryptedData encrypted_data in
              match tlv_format request REQUEST_BUFSIZE with
              | None =>
                  (vctx_set_errmsg vctx "Verify request 2: tlv_format returned an error", Error)
              | Some out => (vctx, Ok out)
              end
          end
      end
  end.

End Signing.

(* ------------------------------------------------------------------ *)
(** ** More vocabulary of the statements *)

Section SessionVocabulary.
Context {C : Capabilities}.

(** The open returns as many bytes as it reads. *)
Definition aead_open_lengths : Prop :=
  forall key nonce' ad c tag p,
    chacha20_poly1305_open key nonce' ad c tag = Some p -> length p = length c.

(** The receiver [r] reads what the sender [s] writes: it decrypts with
    the sender's key, and its receive counter is the sender's send
    counter. *)
Definition in_sync (s r : pair_cipher_context) : Prop :=
  decryption_key r = encryption_key s
  /\ decryption_counter r = encryption_counter s.

(** Successive [pair_encrypt] calls, all successful, with their outputs. *)
Fixpoint encrypt_all (cctx : pair_cipher_context) (plaintexts : list bytes)
  : option (pair_cipher_context * list bytes) :=
  match plaintexts with
  | [] => Some (cctx, [])
  | plain :: more =>
      match pair_encrypt (Some plain) cctx with
      | (cctx', Ok out) =>
          match encrypt_all cctx' more with
          | Some (cctx'', outs) => Some (cctx'', out :: outs)
          | None => None
          end
      | _ => None
      end
  end.

(** Successive [pair_decrypt] calls, all successful, with their outputs. *)
Fixpoint decrypt_all (cctx : pair_cipher_context) (ciphertexts : list bytes)
  : option (pair_cipher_context * list bytes) :=
  match ciphertexts with
  | [] => Some (cctx, [])
  | cipher :: more =>
      match pair_decrypt (Some cipher) cctx with
      | (cctx', Ok plain) =>
          match decrypt_all cctx' more with
          | Some (cctx'', plains) => Some (cctx'', plain :: plains)
          | None => None
          end
      | _ => None
      end
  end.

End SessionVocabulary.

(** [n] steps of a 64-bit counter. *)
Definition advance (n : nat) (counter : Z) : Z :=
  Nat.iter n (fun c => to_uint64 (c + 1)) counter.

(* ------------------------------------------------------------------ *)
(** ** A session on concrete inputs *)

Module SessionExamples.

Definition ok_or_empty (r : res bytes) : bytes :=
  match r with Ok b => b | _ => [] end.

(** What [pair_encrypt] makes of 1025 bytes on the fresh sender: two
    blocks, 1061 bytes. *)
Definition sender_after_1025 : pair_cipher_context :=
  Eval vm_compute in
    fst (pair_encrypt (C := Examples.FC) (Some ChannelExamples.plain_1025)
           ChannelExamples.sender).

Definition wire_1025 : bytes :=
  Eval vm_compute in
    ok_or_empty (snd (pair_encrypt (C := Examples.FC) (Some ChannelExamples.plain_1025)
                        ChannelExamples.sender)).

(** Three messages sent one after the other. *)
Definition messages : list bytes := [ChannelExamples.plain_1025; [x68; x69]; [x21]].

Definition sent : option (pair_cipher_context * list bytes) :=
  Eval vm_compute in encrypt_all (C := Examples.FC) ChannelExamples.sender messages.

Definition sender_after_messages : pair_cipher_context :=
  match sent with Some (s, _) => s | None => ChannelExamples.sender end.

Definition wires : list bytes :=
  match sent with Some (_, outs) => outs | None => [] end.

End SessionExamples.

(* ------------------------------------------------------------------ *)
(** ** The handshakes on concrete inputs *)

Module HandshakeExamples.

(** The Pair-Setup context of [Examples.started_setup]. *)
Definition setup_started : pair_setup_context :=
  match Examples.started_setup with
  | Some sctx => sctx
  | None => Examples.keyed_setup
  end.

(** A response to M1 whose public value B is four zero bytes. *)
Definition zero_challenge_items : Fakes.tlv :=
  [(Fakes.type_code TLVType_PublicKey, zeros 4);
   (Fakes.type_code TLVType_Salt, Examples.srp_salt)].

Definition zero_challenge : bytes := flat_map Fakes.format_item zero_challenge_items.

(** A response to M3 whose proof is 64 zero bytes. *)
Definition zero_proof_items : Fakes.tlv := [(Fakes.type_code TLVType_Proof, zeros 64)].

Definition zero_proof : bytes := flat_map Fakes.format_item zero_proof_items.

(** A response that reports the error Backoff. *)
Definition backoff_items : Fakes.tlv :=
  [(Fakes.type_code TLVType_State, [x02]);
   (Fakes.type_code TLVType_Error, [Fakes.error_code TLVError_Backoff])].

Definition backoff : bytes := flat_map Fakes.format_item backoff_items.

(** The Pair-Verify context of [Examples.fresh_verify]. *)
Definition verify_started : pair_verify_context :=
  match Examples.fresh_verify with
  | Some vctx => vctx
  | None => mk_pair_verify_context [] [] [] [] [] [] [] [] None
  end.

(** A signature that only has to be some function of its arguments. *)
Definition sign (message sk : bytes) : bytes :=
  Fakes.stream 64 (Fakes.checksum (sk ++ [xff] ++ message)).

End HandshakeExamples.

(* ------------------------------------------------------------------ *)
(** ** The peer of the SRP client

    What a server of SRP-6a computes from its verifier v and its
    exponent b, for stating that the client agrees with it. The server
    is not in the sources; it hashes A and B at the width of N. *)

Section SRPServer.
Context {C : Capabilities}.

(** A number on as many bytes as N has, big-endian. *)
Definition srp6a_PAD (N n : bnum) : bytes :=
  be_bytes (Z.to_nat (bnum_num_bytes N)) n.

(** u = H(PAD(A) | PAD(B)) *)
Definition srp6a_u (alg : hash_alg) (N A B : bnum) : bnum :=
  bnum_bin2bn (hash_md alg (srp6a_PAD N A ++ srp6a_PAD N B)).

(** B = k*v + g^b *)
Definition srp6a_server_B (N g k v b : bnum) : bnum :=
  (k * v + bnum_modexp g b N) mod N.

(** S = (A * v^u)^b *)
Definition srp6a_server_S (alg : hash_alg) (N A B v b : bnum) : bnum :=
  bnum_modexp (A * bnum_modexp v (srp6a_u alg N A B) N) b N.

End SRPServer.

(* ------------------------------------------------------------------ *)
(** ** An SRP exchange with an honest server, on concrete inputs *)

Module SRPExamples.

(** A client of a custom group: N = 2^64 - 59, g = 5. *)
Definition client : SRPUser :=
  srp_user_new HASH_SHA512 SRP_NG_CUSTOM (cstr USERNAME) Examples.pin 4
    "FFFFFFFFFFFFFFC5" "5".

Definition N : bnum := ng_N (usr_ng client).
Definition g : bnum := ng_g (usr_ng client).

(** The multiplier k = H(N | PAD(g)). *)
Definition k : bnum :=
  Eval vm_compute in
    match H_nn_pad (C := Examples.FC) HASH_SHA512 N g with
    | Some k => k
    | None => 0
    end.

(** The server's verifier for the client's salt and password, and its
    public value for the exponent b = 7. *)
Definition v : bnum :=
  bnum_modexp g
    (calculate_x (C := Examples.FC) HASH_SHA512 (bnum_bin2bn Examples.srp_salt)
       (usr_username client) (usr_password client) (usr_password_len client))
    N.

Definition server_B : bytes :=
  Eval vm_compute in bnum_bn2bin (srp6a_server_B N g k v 7).

(** The public value for the exponent b = 139: it has 7 bytes, as has
    the A of a client that draws 21. *)
Definition short_B : bytes :=
  Eval vm_compute in bnum_bn2bin (srp6a_server_B N g k v 139).

End SRPExamples.

(* ================================================================== *)
(** * Properties *)

(* ------------------------------------------------------------------ *)
(** ** Bytes and integers *)

Lemma byte_to_Z_range (b : byte) : 0 <= byte_to_Z b < 256.
Proof.
  unfold byte_to_Z. pose proof (Byte.to_N_bounded b). lia.
Qed.

Lemma byte_of_to_Z (b : byte) : byte_of_Z (byte_to_Z b) = b.
Proof.
  unfold byte_of_Z. rewrite Z.mod_small by apply byte_to_Z_range.
  unfold byte_to_Z. rewrite N2Z.id, Byte.of_to_N. reflexivity.
Qed.

Lemma byte_to_of_Z (z : Z) : byte_to_Z (byte_of_Z z) = z mod 256.
Proof.
  unfold byte_of_Z, byte_to_Z.
  assert (Hr : 0 <= z mod 256 < 256) by (apply Z.mod_pos_bound; lia).
  destruct (Byte.of_N (Z.to_N (z mod 256))) as [b|] eqn:E.
  - apply Byte.to_of_N in E. rewrite E. apply Z2N.id. lia.
  - apply Byte.of_N_None_iff in E. lia.
Qed.

Lemma length_le_bytes (n : nat) (z : Z) : length (le_bytes n z) = n.
Proof.
  revert z. induction n as [|n IH]; intro z; simpl; [reflexivity | now rewrite IH].
Qed.

Lemma length_be_bytes (n : nat) (z : Z) : length (be_bytes n z) = n.
Proof.
  unfold be_bytes. now rewrite length_rev, length_le_bytes.
Qed.

Lemma le_value_nonneg (bs : bytes) : 0 <= le_value bs.
Proof.
  induction bs as [|b bs IH]; cbn [le_value]; [lia|].
  pose proof (byte_to_Z_range b). lia.
Qed.

Lemma le_value_le_bytes (n : nat) (z : Z) :
  le_value (le_bytes n z) = z mod 256 ^ Z.of_nat n.
Proof.
  revert z. induction n as [|n IH]; intro z.
  - simpl. now rewrite Z.mod_1_r.
  - cbn [le_bytes le_value]. rewrite IH, byte_to_of_Z.
    rewrite Nat2Z.inj_succ, Z.pow_succ_r by lia.
    rewrite Z.rem_mul_r by lia. reflexivity.
Qed.

Lemma be_value_be_bytes (n : nat) (z : Z) :
  be_value (be_bytes n z) = z mod 256 ^ Z.of_nat n.
Proof.
  unfold be_value, be_bytes. rewrite rev_involutive. apply le_value_le_bytes.
Qed.

Lemma length_zeros (n : nat) : length (zeros n) = n.
Proof. apply repeat_length. Qed.

Lemma to_uint64_idem (z : Z) : to_uint64 (to_uint64 z) = to_uint64 z.
Proof. unfold to_uint64. apply Z.mod_mod. lia. Qed.

Lemma to_uint64_succ (z : Z) : to_uint64 (to_uint64 z + 1) = to_uint64 (z + 1).
Proof.
  unfold to_uint64. rewrite Z.add_mod_idemp_l by lia. reflexivity.
Qed.

Lemma array_read_exact (n : nat) (arr : bytes) :
  length arr = n -> array_read n arr = arr.
Proof.
  intros <-. unfold array_read.
  induction arr as [|b arr IH]; [reflexivity|].
  cbn [length seq map nth]. f_equal.
  rewrite <- seq_shift, map_map. exact IH.
Qed.

Lemma length_array_read (n : nat) (arr : bytes) : length (array_read n arr) = n.
Proof. unfold array_read. now rewrite length_map, length_seq. Qed.

(* ------------------------------------------------------------------ *)
(** ** Key schedule *)

Lemma hkdf_by_labels {C : Capabilities} (x y : pair_keys) :
  labels x = labels y ->
  forall okm_len ikm, hkdf_extract_expand okm_len ikm x = hkdf_extract_expand okm_len ikm y.
Proof.
  unfold labels, hkdf_extract_expand. intros H okm_len ikm.
  injection H as Hs Hi. rewrite Hs, Hi. reflexivity.
Qed.

(** A row of the table has both labels or neither. *)
Lemma labels_both_or_neither (k : pair_keys) :
  derives_key k = true \/ labels k = (None, None).
Proof. destruct k; vm_compute; auto. Qed.

Lemma cstr_inj (a b : string) : cstr a = cstr b -> a = b.
Proof.
  unfold cstr. intro H.
  rewrite <- (String.string_of_list_byte_of_string a),
          <- (String.string_of_list_byte_of_string b), H.
  reflexivity.
Qed.

(** A derived key is the first [okm_len] bytes of the second HMAC. *)
Lemma hkdf_value {C : Capabilities} (k : pair_keys) (okm_len : Z) (ikm key : bytes)
    (s i : string) :
  labels k = (Some s, Some i) ->
  hkdf_extract_expand okm_len ikm k = Ok key ->
  key = firstn (Z.to_nat okm_len)
          (hmac_sha512 (hmac_sha512 (cstr s) ikm) (cstr i ++ [x01])).
Proof.
  unfold labels, hkdf_extract_expand. intros Hl H.
  injection Hl as Hs Hi. rewrite Hs, Hi in H.
  destruct (okm_len >? SHA512_DIGEST_LENGTH); [discriminate H|].
  destruct hkdf_open_fails; [discriminate H|].
  destruct (hkdf_derive_fails _ _ _ _); [discriminate H|].
  injection H as <-. reflexivity.
Qed.

(** C1, as the code has it. The derived key depends on the stage only
    through the salt and info labels of its row. Two distinct
    key-deriving stages carry the same labels exactly when they are
    Pair-Setup M5 and M6 or Pair-Verify M2 and M3: for those the derived
    keys are equal for every secret and output length, and the two stages
    are told apart by their fixed nonces alone. All other distinct
    key-deriving stages have distinct label pairs, and their keys are
    separated as far as HMAC separates its inputs: if the two stages
    derive the same key from one secret, then HMAC-SHA512 collides,
    either in the extract step (one output for the two distinct salts) or
    in the expand step (the same first [okm_len] bytes for two distinct
    inputs). *)
Theorem key_schedule_separation :
  forall (C : Capabilities) (x y : pair_keys),
    derives_key x = true -> derives_key y = true -> x <> y ->
    (labels x = labels y <-> shares_labels x y = true)
    /\ (shares_labels x y = true ->
        stage_nonce x <> stage_nonce y
        /\ forall okm_len secret,
             hkdf_extract_expand okm_len secret x = hkdf_extract_expand okm_len secret y)
    /\ (shares_labels x y = false ->
        forall okm_len secret key,
          hkdf_extract_expand okm_len secret x = Ok key ->
          hkdf_extract_expand okm_len secret y = Ok key ->
          exists sx ix sy iy,
            labels x = (Some sx, Some ix)
            /\ labels y = (Some sy, Some iy)
            /\ ((cstr sx <> cstr sy
                 /\ hmac_sha512 (cstr sx) secret = hmac_sha512 (cstr sy) secret)
                \/ hmac_collision (Z.to_nat okm_len)
                     (hmac_sha512 (cstr sx) secret) (cstr ix ++ [x01])
                     (hmac_sha512 (cstr sy) secret) (cstr iy ++ [x01]))).
Proof.
  intros C x y Hx Hy Hne.
  assert (Hiff : labels x = labels y <-> shares_labels x y = true).
  { destruct x, y; try discriminate Hx; try discriminate Hy;
      try (exfalso; apply Hne; reflexivity);
      vm_compute; split; intro H; first [reflexivity | discriminate H]. }
  split; [exact Hiff|].
  split.
  - intro Hs. split.
    + destruct x, y; try discriminate Hs; vm_compute; intro H; discriminate H.
    + apply hkdf_by_labels. apply Hiff. exact Hs.
  - intros Hs okm_len secret key Hkx Hky.
    assert (Hlab : labels x <> labels y).
    { intro H. apply Hiff in H. rewrite H in Hs. discriminate Hs. }
    unfold derives_key in Hx, Hy.
    destruct (salt (pair_keys_map x)) as [sx|] eqn:Esx; [|discriminate Hx].
    destruct (info (pair_keys_map x)) as [ix|] eqn:Eix; [|discriminate Hx].
    destruct (salt (pair_keys_map y)) as [sy|] eqn:Esy; [|discriminate Hy].
    destruct (info (pair_keys_map y)) as [iy|] eqn:Eiy; [|discriminate Hy].
    assert (Lx : labels x = (Some sx, Some ix)) by (unfold labels; rewrite Esx, Eix; reflexivity).
    assert (Ly : labels y = (Some sy, Some iy)) by (unfold labels; rewrite Esy, Eiy; reflexivity).
    exists sx, ix, sy, iy. split; [exact Lx|]. split; [exact Ly|].
    pose proof (hkdf_value x okm_len secret key sx ix Lx Hkx) as Vx.
    pose proof (hkdf_value y okm_len secret key sy iy Ly Hky) as Vy.
    rewrite Vx in Vy.
    destruct (list_eq_dec byte_eq_dec (cstr sx) (cstr sy)) as [Es | Es].
    + (* one salt: the infos differ *)
      right. split; [|exact Vy].
      intro H. injection H as _ Hi. apply app_inv_tail in Hi.
      apply cstr_inj in Es. apply cstr_inj in Hi.
      apply Hlab. rewrite Lx, Ly, Es, Hi. reflexivity.
    + destruct (list_eq_dec byte_eq_dec (hmac_sha512 (cstr sx) secret)
                  (hmac_sha512 (cstr sy) secret)) as [Ep | Ep].
      * left. split; [exact Es | exact Ep].
      * right. split; [|exact Vy].
        intro H. injection H as Hp _. contradiction.
Qed.

(** Pair-Setup M5 and M6, which share their labels, and the two control
    keys, which share the salt alone, on the fakes. *)
Lemma key_schedule_separation_witness :
  ((labels PAIR_SETUP_MSG05 = labels PAIR_SETUP_MSG06
      <-> shares_labels PAIR_SETUP_MSG05 PAIR_SETUP_MSG06 = true)
   /\ (shares_labels PAIR_SETUP_MSG05 PAIR_SETUP_MSG06 = true ->
       stage_nonce PAIR_SETUP_MSG05 <> stage_nonce PAIR_SETUP_MSG06
       /\ forall okm_len secret,
            hkdf_extract_expand (C := Fakes.capabilities) okm_len secret PAIR_SETUP_MSG05
            = hkdf_extract_expand (C := Fakes.capabilities) okm_len secret PAIR_SETUP_MSG06))
  /\ (forall key,
        hkdf_extract_expand (C := Fakes.capabilities) 32 (zeros 32) PAIR_CONTROL_WRITE = Ok key ->
        hkdf_extract_expand (C := Fakes.capabilities) 32 (zeros 32) PAIR_CONTROL_READ <> Ok key).
Proof.
  split.
  - destruct (key_schedule_separation Fakes.capabilities PAIR_SETUP_MSG05 PAIR_SETUP_MSG06)
      as (H1 & H2 & _).
    + reflexivity.
    + reflexivity.
    + discriminate.
    + split; [exact H1 | exact H2].
  - intros key Hw Hr.
    destruct (key_schedule_separation Fakes.capabilities PAIR_CONTROL_WRITE PAIR_CONTROL_READ)
      as (_ & _ & H3).
    + reflexivity.
    + reflexivity.
    + discriminate.
    + destruct (H3 eq_refl 32 (zeros 32) key Hw Hr)
        as (sx & ix & sy & iy & Lx & Ly & [[Hs _] | [_ Hc]]).
      * injection Lx as <- _. injection Ly as <- _. apply Hs. reflexivity.
      * injection Lx as <- <-. injection Ly as <- <-.
        vm_compute in Hc. discriminate Hc.
Defined.

(** C1 as stated fails: Pair-Setup M5 and M6 are distinct key-deriving
    stages, and for every library instance, output length and secret they
    derive the same key (a key is derived: the fakes give one, and it is
    not the key the fakes give for the signing stage). *)
Lemma key_schedule_msg05_msg06_same_key :
  PAIR_SETUP_MSG05 <> PAIR_SETUP_MSG06
  /\ derives_key PAIR_SETUP_MSG05 = true
  /\ derives_key PAIR_SETUP_MSG06 = true
  /\ (forall (C : Capabilities) okm_len secret,
        hkdf_extract_expand okm_len secret PAIR_SETUP_MSG05
        = hkdf_extract_expand okm_len secret PAIR_SETUP_MSG06)
  /\ (exists key,
        hkdf_extract_expand (C := Fakes.capabilities) 32 (zeros 32) PAIR_SETUP_MSG05 = Ok key
        /\ hkdf_extract_expand (C := Fakes.capabilities) 32 (zeros 32) PAIR_SETUP_MSG06 = Ok key
        /\ hkdf_extract_expand (C := Fakes.capabilities) 32 (zeros 32) PAIR_SETUP_SIGN <> Ok key).
Proof.
  split; [discriminate|].
  split; [reflexivity|].
  split; [reflexivity|].
  split.
  - intros C okm_len secret. apply hkdf_by_labels. reflexivity.
  - eexists. split; [vm_compute; reflexivity|].
    split; [vm_compute; reflexivity|].
    vm_compute. intro H. discriminate H.
Qed.

(* ------------------------------------------------------------------ *)
(** ** C strings and the hexadecimal credential *)

Lemma strlen_le (s : bytes) : (strlen s <= length s)%nat.
Proof.
  induction s as [|b s IH]; simpl; [lia|].
  destruct (Byte.eqb b x00); lia.
Qed.

Lemma strlen_sprintf_02x (b : byte) (rest : bytes) :
  strlen (sprintf_02x b ++ rest) = S (S (strlen rest)).
Proof. destruct b; reflexivity. Qed.

Lemma strlen_hex (l rest : bytes) :
  strlen (flat_map sprintf_02x l ++ rest) = (2 * length l + strlen rest)%nat.
Proof.
  induction l as [|b l IH]; [reflexivity|].
  cbn [flat_map length]. rewrite <- app_assoc, strlen_sprintf_02x, IH. lia.
Qed.

Lemma length_hex (l : bytes) : length (flat_map sprintf_02x l) = (2 * length l)%nat.
Proof.
  induction l as [|b l IH]; [reflexivity|].
  cbn [flat_map length]. rewrite length_app, IH. simpl. lia.
Qed.

Lemma strtol16_sprintf_02x (b : byte) (rest : bytes) :
  let ptr := sprintf_02x b ++ rest in
  byte_of_Z (strtol16 [nth 0 ptr x00; nth 1 ptr x00; x00]) = b.
Proof. destruct b; reflexivity. Qed.

Lemma skipn_2_sprintf_02x (b : byte) (rest : bytes) :
  skipn 2 (sprintf_02x b ++ rest) = rest.
Proof. reflexivity. Qed.

Lemma decode_hex_pairs_hex (l rest : bytes) :
  decode_hex_pairs (length l) (flat_map sprintf_02x l ++ rest) = l.
Proof.
  induction l as [|b l IH]; [reflexivity|].
  cbn [flat_map length decode_hex_pairs]. rewrite <- app_assoc.
  rewrite skipn_2_sprintf_02x, IH.
  f_equal. apply strtol16_sprintf_02x.
Qed.

Lemma skipn_hex (l rest : bytes) :
  skipn (2 * length l) (flat_map sprintf_02x l ++ rest) = rest.
Proof.
  rewrite <- length_hex. rewrite skipn_app, Nat.sub_diag, skipn_all. reflexivity.
Qed.

(* ------------------------------------------------------------------ *)
(** ** Construction of the contexts *)

Section Construction.
Context {C : Capabilities}.

Lemma device_id_rejected_Some (d : bytes) :
  strlen d <> 16%nat -> device_id_rejected (Some d) = true.
Proof.
  intro H. unfold device_id_rejected.
  destruct (Nat.eqb (strlen d) 16) eqn:E; [|reflexivity].
  apply Nat.eqb_eq in E. contradiction.
Qed.

Lemma pair_setup_new_accepts (pin : bytes) (device_id : option bytes) :
  sodium_init <> -1 -> (4 <= strlen pin)%nat -> device_id_rejected device_id = false ->
  exists sctx, pair_setup_new (Some pin) device_id = Some sctx
               /\ sctx_pin sctx = firstn 4 pin
               /\ sctx_user sctx = None.
Proof.
  intros Hs Hp Hd. unfold pair_setup_new.
  destruct (sodium_init =? -1) eqn:E; [apply Z.eqb_eq in E; contradiction|].
  destruct (Nat.ltb (strlen pin) 4) eqn:E2; [apply Nat.ltb_lt in E2; lia|].
  rewrite Hd. eexists. split; [reflexivity|]. split; reflexivity.
Qed.

(** C8. Construction fails when the PIN has fewer than 4 characters, when
    a device id is supplied that does not have exactly 16 characters
    (both constructors), and when the credential string does not have the
    192 characters of the two keys in hexadecimal. *)
Theorem construction_rejects_malformed :
  (forall pin device_id,
      (strlen pin < 4)%nat -> pair_setup_new (Some pin) device_id = None)
  /\ (forall pin d,
      strlen d <> 16%nat -> pair_setup_new pin (Some d) = None)
  /\ (forall authorisation_key d,
      strlen d <> 16%nat -> pair_verify_new authorisation_key (Some d) = None)
  /\ (forall key device_id,
      strlen key <> 192%nat -> pair_verify_new (Some key) device_id = None).
Proof.
  repeat apply conj.
  - intros pin device_id H. unfold pair_setup_new.
    destruct (sodium_init =? -1); [reflexivity|].
    apply Nat.ltb_lt in H. rewrite H. reflexivity.
  - intros pin d H. unfold pair_setup_new.
    destruct (sodium_init =? -1); [reflexivity|].
    destruct pin as [pin|]; [|reflexivity].
    destruct (Nat.ltb (strlen pin) 4); [reflexivity|].
    rewrite device_id_rejected_Some by exact H. reflexivity.
  - intros key d H. unfold pair_verify_new.
    destruct (sodium_init =? -1); [reflexivity|].
    destruct key as [key|]; [|reflexivity].
    destruct (negb _); [reflexivity|].
    rewrite device_id_rejected_Some by exact H. reflexivity.
  - intros key device_id H. unfold pair_verify_new.
    destruct (sodium_init =? -1); [reflexivity|].
    destruct (Z.of_nat (strlen key)
              =? 2 * (crypto_sign_PUBLICKEYBYTES + crypto_sign_SECRETKEYBYTES)) eqn:E;
      [|reflexivity].
    apply Z.eqb_eq in E. exfalso. apply H.
    unfold crypto_sign_PUBLICKEYBYTES, crypto_sign_SECRETKEYBYTES in E. lia.
Qed.

(** C9. Two PINs of at least 4 characters with the same first four give
    the same context, whose pin field is those four bytes; so whatever is
    computed from the context afterwards is the same, and the password of
    the SRP user made by [pair_setup_request1] is those four bytes. *)
Theorem pin_only_first_four :
  forall (pin1 pin2 : bytes) (device_id : option bytes),
    (4 <= strlen pin1)%nat -> (4 <= strlen pin2)%nat ->
    firstn 4 pin1 = firstn 4 pin2 ->
    pair_setup_new (Some pin1) device_id = pair_setup_new (Some pin2) device_id
    /\ (forall (T : Type) (operation : pair_setup_context -> T),
          option_map operation (pair_setup_new (Some pin1) device_id)
          = option_map operation (pair_setup_new (Some pin2) device_id))
    /\ (forall sctx,
          pair_setup_new (Some pin1) device_id = Some sctx ->
          sctx_pin sctx = firstn 4 pin1
          /\ length (sctx_pin sctx) = 4%nat
          /\ exists usr,
               sctx_user (fst (pair_setup_request1 sctx)) = Some usr
               /\ usr_password usr = firstn 4 pin1
               /\ usr_password_len usr = 4).
Proof.
  intros pin1 pin2 device_id H1 H2 Heq.
  assert (Hnew : pair_setup_new (Some pin1) device_id = pair_setup_new (Some pin2) device_id).
  { unfold pair_setup_new. rewrite Heq.
    destruct (sodium_init =? -1); [reflexivity|].
    destruct (Nat.ltb (strlen pin1) 4) eqn:E1; [apply Nat.ltb_lt in E1; lia|].
    destruct (Nat.ltb (strlen pin2) 4) eqn:E2; [apply Nat.ltb_lt in E2; lia|].
    reflexivity. }
  split; [exact Hnew|]. split.
  - intros T operation. rewrite Hnew. reflexivity.
  - intros sctx Hs. unfold pair_setup_new in Hs.
    destruct (sodium_init =? -1); [discriminate|].
    destruct (Nat.ltb (strlen pin1) 4); [discriminate|].
    destruct (device_id_rejected device_id); [discriminate|].
    remember (firstn 4 pin1) as p4 eqn:Hp4.
    injection Hs as <-. cbn [sctx_pin].
    pose proof (strlen_le pin1) as Hle.
    assert (Hl4 : length p4 = 4%nat) by (subst p4; rewrite length_firstn; lia).
    split; [reflexivity|]. split; [exact Hl4|].
    unfold pair_setup_request1.
    destruct (tlv_format _ _); cbn [fst sctx_set_errmsg sctx_set_user sctx_user sctx_pin];
      (eexists; split; [reflexivity|]; split; [|reflexivity]);
      cbn [srp_user_new usr_password]; change (Z.to_nat 4) with 4%nat;
      apply firstn_all2; rewrite Hl4; apply Nat.le_refl.
Qed.

(** C10. [pair_verify_result] returns 0 and the shared_secret field for
    every context; on a context fresh from [pair_verify_new], also after
    [pair_verify_request1], that field is 32 zero bytes. *)
Theorem verify_result_never_fails :
  forall (vctx : pair_verify_context),
    pair_verify_result vctx = (shared_secret vctx, 0)
    /\ (forall authorisation_key device_id,
          pair_verify_new authorisation_key device_id = Some vctx ->
          pair_verify_result vctx = (zeros 32, 0)
          /\ pair_verify_result (fst (pair_verify_request1 vctx)) = (zeros 32, 0)).
Proof.
  intro vctx. split; [reflexivity|].
  intros key device_id H. unfold pair_verify_new in H.
  destruct (sodium_init =? -1); [discriminate|].
  destruct key as [key|]; [|discriminate].
  destruct (negb _); [discriminate|].
  destruct (device_id_rejected device_id); [discriminate|].
  injection H as <-. split; [reflexivity|].
  unfold pair_verify_request1, pair_verify_result.
  destruct (crypto_scalarmult _ _) as [q ret].
  destruct (ret <? 0); [reflexivity|].
  destruct (tlv_format _ _); reflexivity.
Qed.

Lemma pair_setup_result_eq (sctx : pair_setup_context) :
  let hex := flat_map sprintf_02x
               (array_read 32 (sctx_public_key sctx) ++ array_read 64 (sctx_private_key sctx)) in
  let auth_key := memcpy_into (sctx_auth_key sctx) (hex ++ [x00]) in
  pair_setup_result sctx = (sctx_set_auth_key sctx auth_key, Ok auth_key).
Proof.
  cbv zeta. unfold pair_setup_result.
  change (negb (crypto_sign_PUBLICKEYBYTES =? crypto_sign_PUBLICKEYBYTES)
          || negb (crypto_sign_SECRETKEYBYTES =? crypto_sign_SECRETKEYBYTES)) with false.
  cbv iota.
  change (Z.to_nat crypto_sign_PUBLICKEYBYTES) with 32%nat.
  change (Z.to_nat crypto_sign_SECRETKEYBYTES) with 64%nat.
  rewrite flat_map_app. reflexivity.
Qed.

(** C7. The credential [pair_setup_result] returns is the lowercase
    hexadecimal of the public key followed by the private key (192
    characters and the terminator), and [pair_verify_new] on it decodes
    the same 32 and 64 bytes. *)
Theorem credential_round_trip :
  forall (sctx : pair_setup_context) (device_id : option bytes),
    sodium_init <> -1 ->
    length (sctx_public_key sctx) = 32%nat ->
    length (sctx_private_key sctx) = 64%nat ->
    device_id_rejected device_id = false ->
    exists sctx' auth vctx,
      pair_setup_result sctx = (sctx', Ok auth)
      /\ sctx_auth_key sctx' = auth
      /\ strlen auth = 192%nat
      /\ firstn 192 auth
         = flat_map sprintf_02x (sctx_public_key sctx ++ sctx_private_key sctx)
      /\ pair_verify_new (Some auth) device_id = Some vctx
      /\ client_public_key vctx = sctx_public_key sctx
      /\ client_private_key vctx = sctx_private_key sctx.
Proof.
  intros sctx device_id Hs Hpk Hsk Hd.
  pose proof (pair_setup_result_eq sctx) as Hres. cbv zeta in Hres.
  rewrite (array_read_exact 32) in Hres by exact Hpk.
  rewrite (array_read_exact 64) in Hres by exact Hsk.
  set (pk := sctx_public_key sctx) in *. set (sk := sctx_private_key sctx) in *.
  set (auth := memcpy_into (sctx_auth_key sctx) (flat_map sprintf_02x (pk ++ sk) ++ [x00])) in *.
  assert (Hauth : auth = flat_map sprintf_02x pk
                           ++ flat_map sprintf_02x sk
                           ++ x00 :: skipn 193 (sctx_auth_key sctx)).
  { unfold auth, memcpy_into. rewrite flat_map_app, <- !app_assoc.
    rewrite !length_app, !length_hex, Hpk, Hsk. reflexivity. }
  assert (Hlen : strlen auth = 192%nat).
  { rewrite Hauth, strlen_hex, strlen_hex, Hpk, Hsk. reflexivity. }
  exists (sctx_set_auth_key sctx auth), auth.
  eexists. split; [exact Hres|]. split; [reflexivity|]. split; [exact Hlen|].
  split.
  { rewrite Hauth, flat_map_app, app_assoc.
    rewrite firstn_app. rewrite length_app, !length_hex, Hpk, Hsk.
    change (192 - (2 * 32 + 2 * 64))%nat with 0%nat.
    rewrite firstn_O, app_nil_r. apply firstn_all2.
    rewrite length_app, !length_hex, Hpk, Hsk. apply Nat.le_refl. }
  unfold pair_verify_new.
  destruct (sodium_init =? -1) eqn:E; [apply Z.eqb_eq in E; contradiction|].
  rewrite Hlen, Hd.
  change (negb (Z.of_nat 192
                =? 2 * (crypto_sign_PUBLICKEYBYTES + crypto_sign_SECRETKEYBYTES))) with false.
  cbv iota.
  change (Z.to_nat crypto_sign_PUBLICKEYBYTES) with 32%nat.
  change (Z.to_nat crypto_sign_SECRETKEYBYTES) with 64%nat.
  split; [reflexivity|]. cbn [client_public_key client_private_key].
  split.
  - rewrite Hauth. rewrite <- Hpk. apply decode_hex_pairs_hex.
  - rewrite Hauth. replace (2 * 32)%nat with (2 * length pk)%nat by (rewrite Hpk; reflexivity).
    rewrite skipn_hex. rewrite <- Hsk. apply decode_hex_pairs_hex.
Qed.

End Construction.

(** A three-character PIN, a ten-character device id, a six-character
    credential. *)
Lemma construction_rejects_malformed_witness :
  pair_setup_new (C := Examples.FC) (Some (cstr "123")) None = None
  /\ pair_setup_new (C := Examples.FC) (Some Examples.pin) (Some (cstr "0123456789")) = None
  /\ pair_verify_new (C := Examples.FC) (Some Examples.credential) (Some (cstr "0123456789")) = None
  /\ pair_verify_new (C := Examples.FC) (Some (cstr "abcdef")) None = None.
Proof.
  destruct (construction_rejects_malformed (C := Examples.FC)) as (H1 & H2 & H3 & H4).
  split; [apply H1; cbn; lia|].
  split; [apply H2; cbn; lia|].
  split; [apply H3; cbn; lia|].
  apply H4; cbn; lia.
Defined.

(** The PINs 1234 and 12345678. *)
Lemma pin_only_first_four_witness :
  pair_setup_new (C := Examples.FC) (Some (cstr "1234")) None
  = pair_setup_new (C := Examples.FC) (Some (cstr "12345678")) None
  /\ exists sctx usr,
       pair_setup_new (C := Examples.FC) (Some (cstr "12345678")) None = Some sctx
       /\ sctx_pin sctx = cstr "1234"
       /\ sctx_user (fst (pair_setup_request1 (C := Examples.FC) sctx)) = Some usr
       /\ usr_password usr = cstr "1234".
Proof.
  destruct (pin_only_first_four (C := Examples.FC) (cstr "12345678") (cstr "1234") None)
    as (Hnew & _ & Hctx).
  - cbn; lia.
  - cbn; lia.
  - reflexivity.
  - split; [symmetry; exact Hnew|].
    destruct (pair_setup_new (C := Examples.FC) (Some (cstr "12345678")) None)
      as [sctx|] eqn:E; [|discriminate E].
    destruct (Hctx sctx eq_refl) as (Hpin & _ & usr & Husr & Hpw & _).
    exists sctx, usr. split; [reflexivity|].
    split; [exact Hpin|]. split; [exact Husr|exact Hpw].
Defined.

(** The context made from the example credential. *)
Lemma verify_result_never_fails_witness :
  exists vctx,
    Examples.fresh_verify = Some vctx
    /\ pair_verify_result vctx = (zeros 32, 0)
    /\ pair_verify_result (fst (pair_verify_request1 (C := Examples.FC) vctx)) = (zeros 32, 0).
Proof.
  destruct Examples.fresh_verify as [vctx|] eqn:E; [|discriminate E].
  exists vctx. split; [reflexivity|].
  exact (proj2 (verify_result_never_fails (C := Examples.FC) vctx)
           (Some Examples.credential) (Some Examples.device_id) E).
Defined.

(** The example key pair, through its credential and back. *)
Lemma credential_round_trip_witness :
  exists sctx' auth vctx,
    pair_setup_result Examples.keyed_setup = (sctx', Ok auth)
    /\ sctx_auth_key sctx' = auth
    /\ strlen auth = 192%nat
    /\ firstn 192 auth = flat_map sprintf_02x (Examples.public_key ++ Examples.private_key)
    /\ pair_verify_new (C := Examples.FC) (Some auth) (Some Examples.device_id) = Some vctx
    /\ client_public_key vctx = Examples.public_key
    /\ client_private_key vctx = Examples.private_key.
Proof.
  apply (credential_round_trip (C := Examples.FC) Examples.keyed_setup (Some Examples.device_id)).
  - discriminate.
  - reflexivity.
  - reflexivity.
  - reflexivity.
Defined.

(* ------------------------------------------------------------------ *)
(** ** The peer's sealed record *)

Section SealedRecord.
Context {C : Capabilities}.

(** C2 against the code. Both handlers return success as soon as the
    sealed payload opens and the record inside parses without a peer
    error: nothing is asked of the identifier or the signature of the
    record, which may be wrong or missing. *)
Theorem sealed_record_accepted_unchecked :
  (forall (sctx : pair_setup_context) (usr : SRPUser)
          (data encrypted_data derived_key decrypted_data : bytes)
          (response inner : tlv_values),
      fst (response_process data) = Ok response ->
      tlv_get_value response TLVType_EncryptedData = Some encrypted_data ->
      sctx_user sctx = Some usr ->
      hkdf_extract_expand 32 (firstn 64 (usr_session_key usr)) PAIR_SETUP_MSG06
        = Ok derived_key ->
      AUTHTAG_LENGTH <= Z.of_nat (length encrypted_data) ->
      decrypt_chacha
        (firstn (Z.to_nat (Z.of_nat (length encrypted_data) - AUTHTAG_LENGTH)) encrypted_data)
        derived_key []
        (skipn (Z.to_nat (Z.of_nat (length encrypted_data) - AUTHTAG_LENGTH)) encrypted_data)
        (stage_nonce PAIR_SETUP_MSG06) = Some decrypted_data ->
      fst (response_process decrypted_data) = Ok inner ->
      pair_setup_response3 sctx data = (sctx, Ok tt))
  /\ (forall (vctx : pair_verify_context)
             (data encrypted_data public_key secret derived_key decrypted_data : bytes)
             (ret : Z) (response inner : tlv_values),
      fst (response_process data) = Ok response ->
      tlv_get_value response TLVType_EncryptedData = Some encrypted_data ->
      tlv_get_value response TLVType_PublicKey = Some public_key ->
      length public_key = 32%nat ->
      crypto_scalarmult (client_eph_private_key vctx) public_key = (secret, ret) ->
      0 <= ret ->
      hkdf_extract_expand 32 (firstn 32 secret) PAIR_VERIFY_MSG02 = Ok derived_key ->
      AUTHTAG_LENGTH <= Z.of_nat (length encrypted_data) ->
      decrypt_chacha
        (firstn (Z.to_nat (Z.of_nat (length encrypted_data) - AUTHTAG_LENGTH)) encrypted_data)
        derived_key []
        (skipn (Z.to_nat (Z.of_nat (length encrypted_data) - AUTHTAG_LENGTH)) encrypted_data)
        (stage_nonce PAIR_VERIFY_MSG02) = Some decrypted_data ->
      fst (response_process decrypted_data) = Ok inner ->
      pair_verify_response1 vctx data
      = (vctx_set_shared_secret (vctx_set_server_eph_public_key vctx public_key) secret, Ok tt)).
Proof.
  split.
  - intros sctx usr data enc key dec response inner Hr He Hu Hk Hl Hd Hi.
    unfold pair_setup_response3.
    rewrite Hr, He, Hu. cbn [srp_user_get_session_key fst]. rewrite Hk.
    destruct (Z.of_nat (length enc) <? AUTHTAG_LENGTH) eqn:E; [lia|].
    rewrite Hd, Hi. reflexivity.
  - intros vctx data enc pk secret key dec ret response inner Hr He Hp Hlp Hs Hret Hk Hl Hd Hi.
    unfold pair_verify_response1.
    rewrite Hr, He, Hp, Hlp. cbn [negb Z.of_nat Z.eqb Pos.of_succ_nat Pos.succ Pos.eqb].
    cbn [vctx_set_server_eph_public_key client_eph_private_key server_eph_public_key].
    rewrite Hs.
    destruct (ret <? 0) eqn:E; [lia|].
    cbn [vctx_set_shared_secret shared_secret]. rewrite Hk.
    destruct (Z.of_nat (length enc) <? AUTHTAG_LENGTH) eqn:E2; [lia|].
    rewrite Hd, Hi. reflexivity.
Qed.

End SealedRecord.

(** A sealed record that holds an identifier and no signature is
    accepted by both handlers. *)
Lemma sealed_record_accepted_unchecked_witness :
  (exists inner,
      Fakes.parse Examples.unsigned_record = Some inner
      /\ Fakes.get_value inner TLVType_Signature = None)
  /\ (exists sctx,
      Examples.started_setup = Some sctx
      /\ pair_setup_response3 (C := Examples.FC) sctx Examples.setup_response3_data
         = (sctx, Ok tt))
  /\ (exists vctx vctx',
      Examples.fresh_verify = Some vctx
      /\ pair_verify_response1 (C := Examples.FC) vctx Examples.verify_response1_data
         = (vctx', Ok tt)).
Proof.
  destruct (sealed_record_accepted_unchecked (C := Examples.FC)) as [Hsetup Hverify].
  split; [|split].
  - eexists. split; vm_compute; reflexivity.
  - destruct Examples.started_setup as [sctx|] eqn:E; [|discriminate E].
    exists sctx. split; [reflexivity|].
    vm_compute in E. injection E as <-.
    eapply Hsetup.
    + vm_compute. reflexivity.
    + vm_compute. reflexivity.
    + reflexivity.
    + vm_compute. reflexivity.
    + vm_compute. discriminate.
    + vm_compute. reflexivity.
    + vm_compute. reflexivity.
  - destruct Examples.fresh_verify as [vctx|] eqn:E; [|discriminate E].
    exists vctx. eexists. split; [reflexivity|].
    vm_compute in E. injection E as <-.
    eapply Hverify.
    + vm_compute. reflexivity.
    + vm_compute. reflexivity.
    + vm_compute. reflexivity.
    + reflexivity.
    + vm_compute. reflexivity.
    + discriminate.
    + vm_compute. reflexivity.
    + vm_compute. discriminate.
    + vm_compute. reflexivity.
    + vm_compute. reflexivity.
Defined.

(* ------------------------------------------------------------------ *)
(** ** The big-number model *)

Lemma modexp_pos_spec (y : Z) (q : positive) (p : Z) :
  p <> 0 -> modexp_pos y q p = (y ^ Z.pos q) mod p.
Proof.
  intro Hp. induction q as [q IH | q IH |]; cbn [modexp_pos].
  - rewrite IH. set (a := y ^ Z.pos q).
    assert (Hpow : y ^ Z.pos q~1 = a * a * y).
    { unfold a. rewrite Pos2Z.inj_xI, Z.pow_add_r, Z.pow_1_r by lia.
      replace (2 * Z.pos q) with (Z.pos q + Z.pos q) by lia.
      rewrite Z.pow_add_r by lia. reflexivity. }
    rewrite Hpow, <- (Z.mul_mod a a p) by exact Hp.
    apply Z.mul_mod_idemp_l. exact Hp.
  - rewrite IH. set (a := y ^ Z.pos q).
    assert (Hpow : y ^ Z.pos q~0 = a * a).
    { unfold a. rewrite Pos2Z.inj_xO.
      replace (2 * Z.pos q) with (Z.pos q + Z.pos q) by lia.
      rewrite Z.pow_add_r by lia. reflexivity. }
    rewrite Hpow. symmetry. apply Z.mul_mod. exact Hp.
  - now rewrite Z.pow_1_r.
Qed.

Lemma bnum_modexp_spec (y q p : Z) :
  0 <= q -> p <> 0 -> bnum_modexp y q p = (y ^ q) mod p.
Proof.
  intros Hq Hp. destruct q as [|q|q]; [reflexivity | | lia].
  apply modexp_pos_spec. exact Hp.
Qed.

(** A non-negative number is read back from its serialisation. *)
Lemma bnum_bin2bn_bn2bin (n : bnum) : 0 <= n -> bnum_bin2bn (bnum_bn2bin n) = n.
Proof.
  intro Hn. unfold bnum_bin2bn, bnum_bn2bin, bnum_num_bytes.
  rewrite be_value_be_bytes, Z.abs_eq by exact Hn.
  destruct (n =? 0) eqn:E.
  - apply Z.eqb_eq in E. subst n. reflexivity.
  - apply Z.eqb_neq in E. apply Z.mod_small. split; [exact Hn|].
    assert (Hpos : 0 < n) by lia.
    pose proof (Z.log2_nonneg n) as Hl.
    destruct (Z.log2_spec n Hpos) as [_ Hup].
    set (k := (Z.log2 n + 1 + 7) / 8).
    assert (Hk : Z.log2 n + 1 <= 8 * k).
    { unfold k. pose proof (Z.div_mod (Z.log2 n + 1 + 7) 8 ltac:(lia)) as Hdm.
      pose proof (Z.mod_pos_bound (Z.log2 n + 1 + 7) 8 ltac:(lia)) as Hm. lia. }
    rewrite Z2Nat.id by lia.
    change 256 with (2 ^ 8). rewrite <- Z.pow_mul_r by lia.
    eapply Z.lt_le_trans; [exact Hup|].
    replace (Z.succ (Z.log2 n)) with (Z.log2 n + 1) by lia.
    apply Z.pow_le_mono_r; lia.
Qed.

(* ------------------------------------------------------------------ *)
(** ** SRP: the safety check *)

Section SRPSafety.
Context {C : Capabilities}.

(** What the check does catch: a peer value of zero (empty, or all zero
    bytes) gives no proof and leaves the user untouched. *)
Lemma srp_challenge_zero_B (usr : SRPUser) (bytes_s bytes_B : bytes) :
  bnum_bin2bn bytes_B = 0 ->
  srp_user_process_challenge usr bytes_s bytes_B = (usr, (None, 0)).
Proof.
  intro HB. unfold srp_user_process_challenge. rewrite HB.
  destruct (H_nn_pad _ (ng_N _) _); [|reflexivity].
  unfold H_nn_pad at 1. change (bnum_num_bytes 0) with 0.
  change (0 <? 1) with true. reflexivity.
Qed.

(** C3 against the code. The check looks at B, not at B mod N: for a
    peer value that is a non-zero multiple of N (and no longer than A,
    so that u = H(A | B) is formed; with u non-zero), the call computes
    the secret and the session key and returns the proof. *)
Theorem srp_challenge_multiple_of_N :
  forall (usr : SRPUser) (bytes_s bytes_B : bytes) (k u : bnum),
    let N := ng_N (usr_ng usr) in
    let g := ng_g (usr_ng usr) in
    let B := bnum_bin2bn bytes_B in
    let x := calculate_x (usr_alg usr) (bnum_bin2bn bytes_s)
               (usr_username usr) (usr_password usr) (usr_password_len usr) in
    B <> 0 -> B mod N = 0 ->
    H_nn_pad (usr_alg usr) N g = Some k ->
    H_nn_pad (usr_alg usr) (usr_A usr) B = Some u ->
    u <> 0 ->
    exists usr',
      srp_user_process_challenge usr bytes_s bytes_B
      = (usr', (Some (usr_M usr'), hash_length (usr_alg usr)))
      /\ usr_S usr' = bnum_modexp (B - k * bnum_modexp g x N) (usr_a usr + u * x) N
      /\ usr_session_key usr'
         = memcpy_into (usr_session_key usr) (hash_num (usr_alg usr) (usr_S usr'))
      /\ usr_session_key_len usr' = hash_length (usr_alg usr).
Proof.
  intros usr bytes_s bytes_B k u N g B x HB0 HBN Hk Hu Hu0.
  unfold srp_user_process_challenge.
  fold N. fold g. fold B. rewrite Hk, Hu.
  unfold bnum_is_zero.
  destruct (B =? 0) eqn:EB; [apply Z.eqb_eq in EB; contradiction|].
  destruct (u =? 0) eqn:Eu; [apply Z.eqb_eq in Eu; contradiction|].
  cbn [negb andb].
  eexists. split; [reflexivity|].
  cbn [with_session usr_S usr_session_key usr_session_key_len].
  split; [reflexivity|]. split; reflexivity.
Qed.

End SRPSafety.

(** The peer value B = N of the 3072-bit group: a proof of 64 bytes comes
    back. *)
Lemma srp_challenge_multiple_of_N_witness :
  bnum_bin2bn Examples.srp_B_equal_N mod ng_N (usr_ng Examples.srp_user) = 0
  /\ exists usr',
       srp_user_process_challenge (C := Examples.FC)
         Examples.srp_user Examples.srp_salt Examples.srp_B_equal_N
       = (usr', (Some (usr_M usr'), 64))
       /\ usr_session_key_len usr' = 64.
Proof.
  assert (HBN : bnum_bin2bn Examples.srp_B_equal_N mod ng_N (usr_ng Examples.srp_user) = 0)
    by (vm_compute; reflexivity).
  split; [exact HBN|].
  destruct (srp_challenge_multiple_of_N (C := Examples.FC)
              Examples.srp_user Examples.srp_salt Examples.srp_B_equal_N
              (bnum_bin2bn (hash_md (C := Examples.FC) HASH_SHA512
                 (bnum_bn2bin (ng_N (usr_ng Examples.srp_user))
                  ++ zeros 383 ++ bnum_bn2bin (ng_g (usr_ng Examples.srp_user)))))
              (bnum_bin2bn (hash_md (C := Examples.FC) HASH_SHA512
                 (bnum_bn2bin (usr_A Examples.srp_user)
                  ++ bnum_bn2bin (bnum_bin2bn Examples.srp_B_equal_N)))))
    as (usr' & Hrun & _ & _ & Hlen).
  - vm_compute. discriminate.
  - exact HBN.
  - vm_compute. reflexivity.
  - vm_compute. reflexivity.
  - vm_compute. discriminate.
  - exists usr'. split; [exact Hrun | exact Hlen].
Defined.

(* ------------------------------------------------------------------ *)
(** ** The framed channel: decryption *)

Section Decrypt.
Context {C : Capabilities}.

Lemma length_host_bytes (n : nat) (z : Z) : length (host_bytes n z) = n.
Proof.
  unfold host_bytes. destruct host_big_endian;
    [apply length_be_bytes | apply length_le_bytes].
Qed.

Lemma host_value_host_bytes (n : nat) (z : Z) :
  host_value (host_bytes n z) = z mod 256 ^ Z.of_nat n.
Proof.
  unfold host_value, host_bytes. destruct host_big_endian;
    [apply be_value_be_bytes | apply le_value_le_bytes].
Qed.

Lemma host_value_nonneg (bs : bytes) : 0 <= host_value bs.
Proof.
  unfold host_value, be_value. destruct host_big_endian; apply le_value_nonneg.
Qed.

Lemma host_bytes_2 (z : Z) : exists b0 b1, host_bytes 2 z = [b0; b1].
Proof.
  unfold host_bytes, be_bytes. destruct host_big_endian; cbn [le_bytes rev app];
    eexists; eexists; reflexivity.
Qed.

Lemma decrypt_blocks_S (fuel : nat) (cipher_block plain : bytes) (cctx : pair_cipher_context) :
  decrypt_blocks (S fuel) cipher_block plain cctx =
  if Nat.ltb 0 (length cipher_block) then
    let block_len := host_value [nth 0 cipher_block x00; nth 1 cipher_block x00] in
    if block_len + 2 + AUTHTAG_LENGTH >? Z.of_nat (length cipher_block)
    then (cctx_set_errmsg cctx "Corrupt block length in encrypted data", DecryptFailed)
    else
      let body := skipn 2 cipher_block in
      let tag := firstn (Z.to_nat AUTHTAG_LENGTH) (skipn (Z.to_nat block_len) body) in
      let nonce' := counter_nonce (decryption_counter cctx) in
      match decrypt_chacha (firstn (Z.to_nat block_len) body) (decryption_key cctx)
              (host_bytes 2 block_len) tag nonce' with
      | None => (cctx_set_errmsg cctx "Decryption with chacha poly1305 failed", DecryptFailed)
      | Some p =>
          decrypt_blocks fuel
            (skipn (Z.to_nat (block_len + 2 + AUTHTAG_LENGTH)) cipher_block)
            (plain ++ p)
            (cctx_incr_decryption_counter cctx)
      end
  else (cctx, Decrypted plain).
Proof. reflexivity. Qed.

(** One whole block that opens: the loop moves past it. *)
Lemma decrypt_blocks_step (fuel : nat) (block_len : Z) (c tag wire plain p : bytes)
    (cctx : pair_cipher_context) :
  0 <= block_len < 2 ^ 16 ->
  Z.of_nat (length c) = block_len ->
  Z.of_nat (length tag) = AUTHTAG_LENGTH ->
  decrypt_chacha c (decryption_key cctx) (host_bytes 2 block_len) tag
    (counter_nonce (decryption_counter cctx)) = Some p ->
  decrypt_blocks (S fuel) (host_bytes 2 block_len ++ c ++ tag ++ wire) plain cctx
  = decrypt_blocks fuel wire (plain ++ p) (cctx_incr_decryption_counter cctx).
Proof.
  intros Hbl Hc Htag Hopen.
  rewrite decrypt_blocks_S.
  destruct (host_bytes_2 block_len) as (b0 & b1 & E).
  assert (Hv : host_value [b0; b1] = block_len).
  { rewrite <- E, host_value_host_bytes. apply Z.mod_small.
    change (256 ^ Z.of_nat 2) with (2 ^ 16). exact Hbl. }
  rewrite E. cbn [app length nth Nat.ltb Nat.leb]. cbv zeta.
  rewrite Hv.
  unfold AUTHTAG_LENGTH in *.
  assert (Hlen : Z.of_nat (S (S (length (c ++ tag ++ wire))))
                 = block_len + 2 + 16 + Z.of_nat (length wire)).
  { rewrite !length_app. lia. }
  rewrite Hlen.
  destruct (block_len + 2 + 16 >? block_len + 2 + 16 + Z.of_nat (length wire)) eqn:Ecmp; [lia|].
  cbn [skipn].
  assert (Hn : Z.to_nat block_len = length c) by lia.
  assert (Ht : Z.to_nat 16 = length tag) by lia.
  rewrite Hn.
  rewrite firstn_app, Nat.sub_diag, firstn_O, app_nil_r, firstn_all.
  rewrite skipn_app, Nat.sub_diag, skipn_all. cbn [app skipn].
  rewrite Ht, firstn_app, Nat.sub_diag, firstn_O, app_nil_r, firstn_all.
  rewrite Hopen.
  replace (Z.to_nat (block_len + 2 + 16)) with (S (S (length c + length tag))) by lia.
  cbn [skipn]. rewrite app_assoc, <- length_app, skipn_app, Nat.sub_diag, skipn_all.
  reflexivity.
Qed.


(** Whole blocks that open are passed one by one; the loop then stands
    at what follows them. *)
Lemma decrypt_blocks_decodes (cctx cctx' : pair_cipher_context) (wire plain : bytes) :
  decodes cctx wire plain cctx' ->
  forall fuel tail acc,
    (length (wire ++ tail) < fuel)%nat ->
    exists fuel',
      (length tail < fuel')%nat
      /\ decrypt_blocks fuel (wire ++ tail) acc cctx
         = decrypt_blocks fuel' tail (acc ++ plain) cctx'.
Proof.
  induction 1 as [cctx | cctx bl c tag p wire plain cctx' Hbl Hc Htag Hopen Hrest IH];
    intros fuel tail acc Hfuel.
  - exists fuel. split; [exact Hfuel|]. now rewrite app_nil_r.
  - destruct fuel as [|fuel]; [lia|].
    rewrite <- !app_assoc.
    rewrite (decrypt_blocks_step fuel bl c tag (wire ++ tail) acc p cctx Hbl Hc Htag Hopen).
    destruct (IH fuel tail (acc ++ p)) as (fuel' & Hf & Heq).
    + rewrite <- !app_assoc in Hfuel. rewrite !length_app in Hfuel.
      rewrite length_host_bytes in Hfuel. rewrite length_app. lia.
    + exists fuel'. split; [exact Hf|]. rewrite Heq, <- app_assoc. reflexivity.
Qed.

Lemma decodes_counter (cctx cctx' : pair_cipher_context) (wire plain : bytes) :
  decodes cctx wire plain cctx' ->
  decryption_key cctx' = decryption_key cctx
  /\ encryption_key cctx' = encryption_key cctx
  /\ encryption_counter cctx' = encryption_counter cctx.
Proof.
  induction 1 as [cctx | cctx bl c tag p wire plain cctx' Hbl Hc Htag Hopen Hrest IH].
  - repeat split.
  - destruct IH as (H1 & H2 & H3). cbn in H1, H2, H3. repeat split; assumption.
Qed.

(** A buffer too short for a length prefix is refused before the loop,
    and the context is left as it was. *)
Lemma pair_decrypt_short_buffer (cipher : bytes) (cctx : pair_cipher_context) :
  (length cipher < 2)%nat -> pair_decrypt (Some cipher) cctx = (cctx, Error).
Proof.
  intro H. unfold pair_decrypt.
  destruct (Z.of_nat (length cipher) <? 2) eqn:E; [reflexivity|lia].
Qed.


End Decrypt.

(* ------------------------------------------------------------------ *)
(** ** The framed channel: encryption *)

Section Encrypt.
Context {C : Capabilities}.

Lemma encrypt_blocks_S (todo : nat) (i nblocks : Z) (plain_block cipher : bytes)
    (cctx : pair_cipher_context) :
  encrypt_blocks (S todo) i nblocks plain_block cipher cctx =
  let block_len :=
    if i + 1 =? nblocks then to_uint16 (Z.of_nat (length plain_block))
    else ENCRYPTED_LEN_MAX in
  let nonce' := counter_nonce (encryption_counter cctx) in
  let prefix := host_bytes 2 block_len in
  match encrypt_chacha (firstn (Z.to_nat block_len) plain_block)
          (encryption_key cctx) prefix nonce' with
  | None => (cctx_set_errmsg cctx "Encryption with chacha poly1305 failed", None)
  | Some (c, tag) =>
      encrypt_blocks todo (i + 1) nblocks
        (skipn (Z.to_nat block_len) plain_block)
        (cipher ++ prefix ++ c ++ tag)
        (cctx_incr_encryption_counter cctx)
  end.
Proof. reflexivity. Qed.

(** Within [PLAINTEXT_LEN_MAX] the block count is the rounded-up
    quotient and fits its [int]. *)
Lemma encrypt_nblocks_exact (len : Z) :
  1 <= len <= PLAINTEXT_LEN_MAX ->
  encrypt_nblocks len = (len + ENCRYPTED_LEN_MAX - 1) / ENCRYPTED_LEN_MAX
  /\ 1 <= encrypt_nblocks len <= INT_MAX
  /\ ENCRYPTED_LEN_MAX * (encrypt_nblocks len - 1) < len
     <= ENCRYPTED_LEN_MAX * encrypt_nblocks len.
Proof.
  unfold PLAINTEXT_LEN_MAX, encrypt_nblocks, to_int, INT_MAX, ENCRYPTED_LEN_MAX.
  intro H.
  assert (Hq : 0 <= (len - 1) / 1024 < 2 ^ 31 - 1).
  { split; [apply Z.div_pos; lia|]. apply Z.div_lt_upper_bound; lia. }
  replace (len + 1024 - 1) with (len - 1 + 1 * 1024) by lia.
  rewrite Z.div_add by lia.
  rewrite Z.mod_small by lia.
  pose proof (Z.div_mod (len - 1) 1024 ltac:(lia)) as Hdm.
  pose proof (Z.mod_pos_bound (len - 1) 1024 ltac:(lia)) as Hm.
  lia.
Qed.

Lemma chunk_lengths_repeat (n : nat) (len : Z) :
  chunk_lengths (S n) len
  = repeat ENCRYPTED_LEN_MAX n ++ [len - ENCRYPTED_LEN_MAX * Z.of_nat n].
Proof.
  revert len. induction n as [|n IH]; intro len.
  - cbn [chunk_lengths repeat app]. f_equal. lia.
  - change (chunk_lengths (S (S n)) len)
      with (ENCRYPTED_LEN_MAX :: chunk_lengths (S n) (len - ENCRYPTED_LEN_MAX)).
    rewrite IH. cbn [repeat app]. do 3 f_equal. lia.
Qed.

Lemma length_chunk_lengths (n : nat) (len : Z) : length (chunk_lengths n len) = n.
Proof.
  destruct n as [|n]; [reflexivity|].
  rewrite chunk_lengths_repeat, length_app, repeat_length. cbn [length]. lia.
Qed.

(** The loop of [pair_encrypt], from any iteration: a failed seal ends
    it; otherwise it consumes the plaintext and what it appends is the
    framing of that plaintext. *)
Lemma encrypt_blocks_frames :
  aead_lengths ->
  forall (todo : nat) (i nblocks : Z) (plain_block cipher : bytes)
         (cctx cctx' : pair_cipher_context) (r : option (bytes * bytes)),
    nblocks = i + Z.of_nat todo ->
    (todo <> O ->
     ENCRYPTED_LEN_MAX * (Z.of_nat todo - 1) < Z.of_nat (length plain_block)
       <= ENCRYPTED_LEN_MAX * Z.of_nat todo) ->
    (todo = O -> plain_block = []) ->
    encrypt_blocks todo i nblocks plain_block cipher cctx = (cctx', r) ->
    match r with
    | None => ~ aead_total
    | Some (rest, out) =>
        rest = []
        /\ encryption_key cctx' = encryption_key cctx
        /\ decryption_key cctx' = decryption_key cctx
        /\ decryption_counter cctx' = decryption_counter cctx
        /\ exists wire,
             out = cipher ++ wire
             /\ frames (encryption_key cctx) (encryption_counter cctx) plain_block wire
                  (chunk_lengths todo (Z.of_nat (length plain_block)))
             /\ Z.of_nat (length wire)
                = Z.of_nat (length plain_block) + (2 + AUTHTAG_LENGTH) * Z.of_nat todo
    end.
Proof.
  intros Hlens todo.
  induction todo as [|todo IH]; intros i nblocks pb cipher cctx cctx' r Hn Hsize Hnil Hrun.
  - cbn [encrypt_blocks] in Hrun. injection Hrun as <- <-.
    rewrite (Hnil eq_refl).
    repeat (split; [reflexivity|]).
    exists []. rewrite app_nil_r. split; [reflexivity|].
    split; [apply frames_nil|]. cbn [length]. lia.
  - rewrite encrypt_blocks_S in Hrun. cbv zeta in Hrun.
    specialize (Hsize ltac:(discriminate)).
    unfold ENCRYPTED_LEN_MAX in *.
    set (block_len := if i + 1 =? nblocks then to_uint16 (Z.of_nat (length pb)) else 1024) in *.
    (* the length of this block, and what is left after it *)
    assert (Hbl : 1 <= block_len <= 1024
                  /\ block_len <= Z.of_nat (length pb)
                  /\ (todo = O -> block_len = Z.of_nat (length pb))
                  /\ (todo <> O -> block_len = 1024)).
    { unfold block_len. destruct (i + 1 =? nblocks) eqn:E.
      - apply Z.eqb_eq in E. assert (todo = O) by lia. subst todo.
        unfold to_uint16. rewrite Z.mod_small by lia. lia.
      - apply Z.eqb_neq in E. assert (todo <> O) by lia. lia. }
    destruct Hbl as (Hbl1 & Hbl2 & Hlast & Hmid).
    set (chunk := firstn (Z.to_nat block_len) pb) in *.
    set (rest := skipn (Z.to_nat block_len) pb) in *.
    assert (Hchunk : Z.of_nat (length chunk) = block_len).
    { unfold chunk. rewrite length_firstn. lia. }
    assert (Hrest : Z.of_nat (length rest) = Z.of_nat (length pb) - block_len).
    { unfold rest. rewrite length_skipn. lia. }
    assert (Hpb : pb = chunk ++ rest) by (symmetry; apply firstn_skipn).
    destruct (encrypt_chacha chunk (encryption_key cctx) (host_bytes 2 block_len)
                (counter_nonce (encryption_counter cctx))) as [[c tag]|] eqn:Eseal.
    + destruct (Hlens _ _ _ _ _ _ Eseal) as [Hc Htag].
      specialize (IH (i + 1) nblocks rest (cipher ++ host_bytes 2 block_len ++ c ++ tag)
                    (cctx_incr_encryption_counter cctx) cctx' r).
      assert (IH' := IH ltac:(lia)
                        ltac:(intro Hne; specialize (Hmid Hne); lia)
                        ltac:(intro He; specialize (Hlast He);
                              apply length_zero_iff_nil; lia)
                        Hrun).
      clear IH. destruct r as [[rest' out]|]; [|exact IH'].
      destruct IH' as (Hr & Hk1 & Hk2 & Hk3 & wire & Hout & Hframes & Hwire).
      cbn [cctx_incr_encryption_counter encryption_key decryption_key
           decryption_counter encryption_counter] in Hk1, Hk2, Hk3, Hframes.
      repeat (split; [assumption|]).
      exists (host_bytes 2 block_len ++ c ++ tag ++ wire).
      split; [rewrite Hout, <- !app_assoc; reflexivity|].
      split.
      * replace (chunk_lengths (S todo) (Z.of_nat (length pb)))
          with (Z.of_nat (length chunk) :: chunk_lengths todo (Z.of_nat (length rest))).
        -- rewrite Hpb at 1. rewrite <- Hchunk.
           apply frames_block; try assumption.
           ++ unfold ENCRYPTED_LEN_MAX. lia.
           ++ rewrite Hchunk. exact Eseal.
        -- destruct todo as [|todo'].
           ++ cbn [chunk_lengths]. rewrite Hchunk, (Hlast eq_refl). reflexivity.
           ++ change (chunk_lengths (S (S todo')) (Z.of_nat (length pb)))
                with (1024 :: chunk_lengths (S todo') (Z.of_nat (length pb) - 1024)).
              rewrite Hchunk, Hrest, (Hmid ltac:(discriminate)). reflexivity.
      * rewrite !length_app, length_host_bytes. unfold AUTHTAG_LENGTH in *. lia.
    + injection Hrun as <- <-. intro Htotal.
      exact (Htotal _ _ _ _ Eseal).
Qed.

(** The counter after the loop: one step per block. *)
Lemma encrypt_blocks_counter :
  forall (todo : nat) (i nblocks : Z) (plain_block cipher : bytes)
         (cctx cctx' : pair_cipher_context) (r : bytes * bytes),
    encrypt_blocks todo i nblocks plain_block cipher cctx = (cctx', Some r) ->
    0 <= encryption_counter cctx < 2 ^ 64 ->
    encryption_counter cctx' = to_uint64 (encryption_counter cctx + Z.of_nat todo).
Proof.
  induction todo as [|todo IH]; intros i nblocks pb cipher cctx cctx' r Hrun Hrange.
  - cbn [encrypt_blocks] in Hrun. injection Hrun as <- _.
    unfold to_uint64. rewrite Z.add_0_r, Z.mod_small by lia. reflexivity.
  - rewrite encrypt_blocks_S in Hrun. cbv zeta in Hrun.
    destruct (encrypt_chacha _ _ _ _) as [[c tag]|]; [|discriminate Hrun].
    apply IH in Hrun.
    + rewrite Hrun. cbn [cctx_incr_encryption_counter encryption_counter].
      rewrite Nat2Z.inj_succ. unfold to_uint64.
      rewrite Z.add_mod_idemp_l by lia. f_equal. lia.
    + cbn [cctx_incr_encryption_counter encryption_counter].
      unfold to_uint64. apply Z.mod_pos_bound. lia.
Qed.

End Encrypt.

(* ------------------------------------------------------------------ *)
(** ** The framed channel: one call, many calls, and the way back *)

Section Channel.
Context {C : Capabilities}.

Lemma blocks_of_bounds (plain : bytes) :
  1 <= Z.of_nat (length plain) <= PLAINTEXT_LEN_MAX ->
  encrypt_nblocks (Z.of_nat (length plain)) = blocks_of plain
  /\ 1 <= blocks_of plain <= INT_MAX
  /\ ENCRYPTED_LEN_MAX * (blocks_of plain - 1) < Z.of_nat (length plain)
     <= ENCRYPTED_LEN_MAX * blocks_of plain.
Proof.
  intro H. destruct (encrypt_nblocks_exact _ H) as (He & Hr & Hs).
  unfold blocks_of. rewrite <- He. auto.
Qed.

(** What one call of [pair_encrypt] does to a plaintext within bounds. *)
Lemma pair_encrypt_frames :
  aead_lengths ->
  forall (plain : bytes) (cctx cctx' : pair_cipher_context) (r : res bytes),
    1 <= Z.of_nat (length plain) <= PLAINTEXT_LEN_MAX ->
    pair_encrypt (Some plain) cctx = (cctx', r) ->
    match r with
    | Trap => False
    | Error => ~ aead_total
    | Ok out =>
        frames (encryption_key cctx) (encryption_counter cctx) plain out
          (chunk_lengths (Z.to_nat (blocks_of plain)) (Z.of_nat (length plain)))
        /\ Z.of_nat (length out)
           = Z.of_nat (length plain) + (2 + AUTHTAG_LENGTH) * blocks_of plain
    end.
Proof.
  intros Hlens plain cctx cctx' r Hlen Hrun.
  destruct (blocks_of_bounds plain Hlen) as (Hn & Hrange & Hsize).
  unfold pair_encrypt in Hrun.
  destruct (Z.of_nat (length plain) =? 0) eqn:E0; [lia|].
  rewrite Hn in Hrun.
  destruct (encrypt_blocks (Z.to_nat (blocks_of plain)) 0 (blocks_of plain) plain [] cctx)
    as [c1 r1] eqn:Erun.
  assert (H1 : blocks_of plain = 0 + Z.of_nat (Z.to_nat (blocks_of plain)))
    by (rewrite Z2Nat.id; lia).
  assert (H2 : Z.to_nat (blocks_of plain) <> O ->
               ENCRYPTED_LEN_MAX * (Z.of_nat (Z.to_nat (blocks_of plain)) - 1)
                 < Z.of_nat (length plain)
                 <= ENCRYPTED_LEN_MAX * Z.of_nat (Z.to_nat (blocks_of plain)))
    by (intros _; rewrite Z2Nat.id by lia; exact Hsize).
  assert (H3 : Z.to_nat (blocks_of plain) = O -> plain = []) by (intro Hz; lia).
  pose proof (encrypt_blocks_frames Hlens _ _ _ _ _ _ _ _ H1 H2 H3 Erun) as Hf.
  destruct r1 as [[rest out]|].
  - destruct Hf as (Hrest & _ & _ & _ & wire & Hout & Hframes & Hwire).
    cbn [app] in Hout. subst rest out.
    rewrite Z2Nat.id in Hwire by lia.
    assert (Hc : (Z.of_nat (length wire)
                  =? to_uint64 (blocks_of plain * (2 + AUTHTAG_LENGTH) + Z.of_nat (length plain)))
                 = true).
    { apply Z.eqb_eq. unfold to_uint64. rewrite Z.mod_small; [lia|].
      unfold PLAINTEXT_LEN_MAX, INT_MAX, ENCRYPTED_LEN_MAX, AUTHTAG_LENGTH in *. lia. }
    cbn [length Nat.eqb andb] in Hrun. rewrite Hc in Hrun.
    injection Hrun as <- <-. split; [exact Hframes | exact Hwire].
  - injection Hrun as <- <-. exact Hf.
Qed.

(** The counter after one successful call. *)
Lemma pair_encrypt_counter (plain : bytes) (cctx cctx' : pair_cipher_context) (out : bytes) :
  Z.of_nat (length plain) <= PLAINTEXT_LEN_MAX ->
  0 <= encryption_counter cctx < 2 ^ 64 ->
  pair_encrypt (Some plain) cctx = (cctx', Ok out) ->
  1 <= Z.of_nat (length plain)
  /\ encryption_counter cctx' = to_uint64 (encryption_counter cctx + blocks_of plain).
Proof.
  intros Hmax Hrange Hrun. unfold pair_encrypt in Hrun.
  destruct (Z.of_nat (length plain) =? 0) eqn:E0; [discriminate Hrun|].
  apply Z.eqb_neq in E0. assert (Hlen : 1 <= Z.of_nat (length plain) <= PLAINTEXT_LEN_MAX) by lia.
  split; [lia|].
  destruct (blocks_of_bounds plain Hlen) as (Hn & Hb & _).
  rewrite Hn in Hrun.
  destruct (encrypt_blocks (Z.to_nat (blocks_of plain)) 0 (blocks_of plain) plain [] cctx)
    as [c1 [[rest wire]|]] eqn:Erun; [|discriminate Hrun].
  apply encrypt_blocks_counter in Erun; [|exact Hrange].
  rewrite Z2Nat.id in Erun by lia.
  destruct (_ && _); [|discriminate Hrun].
  injection Hrun as <- _. exact Erun.
Qed.

(** C4, as the code has it. On a context whose send counter is a 64-bit
    value, after successful [pair_encrypt] calls the counter has advanced
    by the total number of blocks, one per 1024 bytes of each plaintext
    or part thereof (modulo 2^64). From a counter of 0 it equals the
    number of calls when every plaintext has at most 1024 bytes. *)
Theorem encryption_counter_counts_blocks :
  forall (plaintexts : list bytes) (cctx cctx' : pair_cipher_context),
    0 <= encryption_counter cctx < 2 ^ 64 ->
    Forall (fun plain => Z.of_nat (length plain) <= PLAINTEXT_LEN_MAX) plaintexts ->
    encrypt_calls cctx plaintexts = Some cctx' ->
    encryption_counter cctx'
      = to_uint64 (encryption_counter cctx + total_blocks plaintexts)
    /\ (Forall (fun plain => Z.of_nat (length plain) <= ENCRYPTED_LEN_MAX) plaintexts ->
        encryption_counter cctx = 0 ->
        encryption_counter cctx' = to_uint64 (Z.of_nat (length plaintexts))).
Proof.
  intros plaintexts.
  assert (Hmain : forall cctx cctx',
             0 <= encryption_counter cctx < 2 ^ 64 ->
             Forall (fun plain => Z.of_nat (length plain) <= PLAINTEXT_LEN_MAX) plaintexts ->
             encrypt_calls cctx plaintexts = Some cctx' ->
             Forall (fun plain => 1 <= Z.of_nat (length plain)) plaintexts
             /\ encryption_counter cctx'
                = to_uint64 (encryption_counter cctx + total_blocks plaintexts)).
  { induction plaintexts as [|plain more IH]; intros cctx cctx' Hrange Hmax Hrun.
    - cbn in Hrun. injection Hrun as <-. split; [constructor|].
      cbn [total_blocks fold_right]. unfold to_uint64.
      rewrite Z.add_0_r, Z.mod_small by lia. reflexivity.
    - cbn [encrypt_calls] in Hrun.
      destruct (pair_encrypt (Some plain) cctx) as [c1 [out| |]] eqn:E;
        try discriminate Hrun.
      inversion Hmax as [|? ? Hp Hmore]; subst.
      destruct (pair_encrypt_counter plain cctx c1 out Hp Hrange E) as (H1 & Hc).
      destruct (IH c1 cctx') as (Hall & Hc'); try assumption.
      + rewrite Hc. unfold to_uint64. apply Z.mod_pos_bound. lia.
      + split; [constructor; assumption|].
        rewrite Hc', Hc. cbn [total_blocks fold_right]. fold (total_blocks more).
        unfold to_uint64. rewrite Z.add_mod_idemp_l by lia. f_equal. lia. }
  intros cctx cctx' Hrange Hmax Hrun.
  destruct (Hmain cctx cctx' Hrange Hmax Hrun) as (Hpos & Hc).
  split; [exact Hc|].
  intros Hsmall Hzero. rewrite Hc, Hzero. f_equal.
  clear - Hpos Hsmall.
  induction plaintexts as [|plain more IH]; [reflexivity|].
  inversion Hpos; inversion Hsmall; subst.
  cbn [total_blocks fold_right length]. fold (total_blocks more).
  rewrite Nat2Z.inj_succ, <- (IH ltac:(assumption) ltac:(assumption)).
  assert (blocks_of plain = 1); [|lia].
  unfold blocks_of, ENCRYPTED_LEN_MAX in *.
  symmetry. apply (Z.div_unique _ 1024 1 (Z.of_nat (length plain) - 1)); lia.
Qed.

(** Blocks that frame a plaintext are blocks the peer opens, with the
    key and the counter the sender started from. *)
Lemma frames_decodes :
  aead_opens ->
  forall key counter plain wire lens,
    frames key counter plain wire lens ->
    forall dctx,
      decryption_key dctx = key ->
      decryption_counter dctx = counter ->
      exists dctx', decodes dctx wire plain dctx'.
Proof.
  intros Hopens key counter plain wire lens Hf.
  induction Hf as [counter | counter chunk c tag plain wire lens Hsize Hseal Hc Htag Hrest IH];
    intros dctx Hkey Hctr.
  - exists dctx. constructor.
  - destruct (IH (cctx_incr_decryption_counter dctx)) as (dctx' & Hdec).
    + cbn. exact Hkey.
    + cbn. rewrite Hctr. reflexivity.
    + exists dctx'. apply decodes_block; try assumption.
      * unfold ENCRYPTED_LEN_MAX in Hsize. lia.
      * lia.
      * rewrite Hkey, Hctr. unfold decrypt_chacha. apply Hopens. exact Hseal.
Qed.

Lemma frames_lengths (key : bytes) (counter : Z) (plain wire : bytes) (lens : list Z) :
  frames key counter plain wire lens ->
  Z.of_nat (length wire)
  = Z.of_nat (length plain) + (2 + AUTHTAG_LENGTH) * Z.of_nat (length lens).
Proof.
  induction 1 as [counter | counter chunk c tag plain wire lens Hsize Hseal Hc Htag Hrest IH].
  - reflexivity.
  - rewrite !length_app, length_host_bytes. cbn [length]. lia.
Qed.

(** Whole blocks that open, and nothing after them: [pair_decrypt]
    returns what they hold. *)
Lemma pair_decrypt_decodes (cctx cctx' : pair_cipher_context) (wire plain : bytes) :
  decodes cctx wire plain cctx' ->
  (2 <= length wire)%nat ->
  (length plain < length wire)%nat ->
  pair_decrypt (Some wire) cctx = (cctx', Ok plain).
Proof.
  intros Hdec H2 Hlt. unfold pair_decrypt.
  destruct (Z.of_nat (length wire) <? 2) eqn:E; [lia|].
  destruct (decrypt_blocks_decodes cctx cctx' wire plain Hdec (S (length wire)) [] [])
    as (fuel' & Hf & Heq); [rewrite app_nil_r; lia|].
  rewrite app_nil_r in Heq. rewrite Heq.
  destruct fuel' as [|fuel']; [cbn in Hf; lia|].
  rewrite decrypt_blocks_S. cbn [length Nat.ltb Nat.leb app].
  destruct (Z.of_nat (length plain) <? Z.of_nat (length wire)) eqn:E2; [reflexivity|lia].
Qed.

(** C6. For a plaintext of 1 to [PLAINTEXT_LEN_MAX] bytes, with a seal
    that returns as many bytes as it reads and a 16-byte tag and an open
    that inverts it: [pair_encrypt] never stops on an assertion, fails
    only if a seal fails, and its output is the plaintext cut into
    [blocks_of] chunks, 1024 bytes each but the last, every chunk as
    [2-byte length][ciphertext][16-byte tag]; [pair_decrypt] of that
    output, on a context that has the sender's key as decryption key and
    the sender's starting counter as decryption counter, returns the
    plaintext. *)
Theorem framing_round_trip :
  aead_lengths -> aead_opens ->
  forall (plain : bytes) (cctx cctx' : pair_cipher_context) (r : res bytes),
    1 <= Z.of_nat (length plain) <= PLAINTEXT_LEN_MAX ->
    pair_encrypt (Some plain) cctx = (cctx', r) ->
    r <> Trap
    /\ (aead_total -> r <> Error)
    /\ forall out, r = Ok out ->
         let n := Z.to_nat (blocks_of plain) in
         frames (encryption_key cctx) (encryption_counter cctx) plain out
           (repeat ENCRYPTED_LEN_MAX (n - 1)
            ++ [Z.of_nat (length plain) - ENCRYPTED_LEN_MAX * Z.of_nat (n - 1)])
         /\ forall dctx,
              decryption_key dctx = encryption_key cctx ->
              decryption_counter dctx = encryption_counter cctx ->
              exists dctx', pair_decrypt (Some out) dctx = (dctx', Ok plain).
Proof.
  intros Hlens Hopens plain cctx cctx' r Hlen Hrun.
  pose proof (pair_encrypt_frames Hlens plain cctx cctx' r Hlen Hrun) as H.
  destruct (blocks_of_bounds plain Hlen) as (_ & Hb & _).
  destruct r as [out| |].
  - split; [discriminate|]. split; [discriminate|].
    intros out' Hout. injection Hout as <-. cbv zeta.
    destruct H as (Hframes & Hwire).
    destruct (Z.to_nat (blocks_of plain)) as [|n] eqn:En; [lia|].
    rewrite chunk_lengths_repeat in Hframes.
    replace (S n - 1)%nat with n by lia.
    split; [exact Hframes|].
    intros dctx Hkey Hctr.
    destruct (frames_decodes Hopens _ _ _ _ _ Hframes dctx Hkey Hctr) as (dctx' & Hdec).
    exists dctx'. apply (pair_decrypt_decodes dctx dctx' out plain Hdec);
      unfold AUTHTAG_LENGTH in Hwire; lia.
  - split; [discriminate|]. split; [intro Ht; contradiction|]. discriminate.
  - contradiction.
Qed.

End Channel.

(* ------------------------------------------------------------------ *)
(** ** The fakes meet the contract of the seal *)

Lemma fakes_bytes_eqb_refl (a : bytes) : Fakes.bytes_eqb a a = true.
Proof.
  induction a as [|x a IH]; [reflexivity|].
  cbn [Fakes.bytes_eqb]. rewrite IH, andb_true_r. destruct x; reflexivity.
Qed.

Lemma fakes_shift_down_up (b : byte) : Fakes.shift_down (Fakes.shift_up b) = b.
Proof. destruct b; reflexivity. Qed.

Lemma fakes_aead_lengths : aead_lengths (C := Examples.FC).
Proof.
  intros key nonce' ad plain c tag H. cbn in H. unfold Fakes.seal in H.
  injection H as <- <-. split; [apply length_map|].
  unfold Fakes.tag_of. rewrite length_be_bytes. reflexivity.
Qed.

Lemma fakes_aead_opens : aead_opens (C := Examples.FC).
Proof.
  intros key nonce' ad plain c tag H. cbn in H |- *. unfold Fakes.seal in H.
  injection H as <- <-. unfold Fakes.open. rewrite fakes_bytes_eqb_refl.
  f_equal. rewrite map_map. rewrite <- (map_id plain) at 2.
  apply map_ext. intro b. apply fakes_shift_down_up.
Qed.

Lemma fakes_aead_total : aead_total (C := Examples.FC).
Proof. intros key nonce' ad plain. cbn. unfold Fakes.seal. discriminate. Qed.

(* ------------------------------------------------------------------ *)
(** ** The framed channel on concrete inputs *)

(** C4 as stated fails: on a fresh context one successful call with a
    plaintext of 1025 bytes leaves the send counter at 2. *)
Lemma encryption_counter_after_1025_bytes :
  exists cctx',
    pair_cipher_new (C := Examples.FC) (zeros 32) = Ok ChannelExamples.sender
    /\ encryption_counter ChannelExamples.sender = 0
    /\ encrypt_calls (C := Examples.FC) ChannelExamples.sender [ChannelExamples.plain_1025]
       = Some cctx'
    /\ encryption_counter cctx' = 2
    /\ encryption_counter cctx' <> Z.of_nat (length [ChannelExamples.plain_1025]).
Proof.
  eexists. split; [vm_compute; reflexivity|]. split; [reflexivity|].
  split; [vm_compute; reflexivity|]. split; [reflexivity|]. discriminate.
Qed.

(** Two calls, 1025 bytes and 3 bytes: three blocks. *)
Lemma encryption_counter_counts_blocks_witness :
  exists cctx',
    encrypt_calls (C := Examples.FC) ChannelExamples.sender
      [ChannelExamples.plain_1025; cstr "abc"] = Some cctx'
    /\ encryption_counter cctx' = 3.
Proof.
  destruct (encrypt_calls (C := Examples.FC) ChannelExamples.sender
              [ChannelExamples.plain_1025; cstr "abc"]) as [cctx'|] eqn:E;
    [|vm_compute in E; discriminate E].
  exists cctx'. split; [reflexivity|].
  refine (proj1 (encryption_counter_counts_blocks (C := Examples.FC)
                   [ChannelExamples.plain_1025; cstr "abc"]
                   ChannelExamples.sender cctx' _ _ E)).
  - vm_compute. split; [discriminate | reflexivity].
  - repeat constructor; vm_compute; discriminate.
Defined.

(** 4096 bytes: four blocks of 1024, and the peer reads them back. *)
Lemma framing_round_trip_witness :
  exists cctx' out dctx',
    pair_encrypt (C := Examples.FC) (Some ChannelExamples.plain_4096) ChannelExamples.sender
    = (cctx', Ok out)
    /\ frames (C := Examples.FC) (encryption_key ChannelExamples.sender) 0
         ChannelExamples.plain_4096 out [1024; 1024; 1024; 1024]
    /\ pair_decrypt (C := Examples.FC) (Some out)
         (ChannelExamples.peer_of ChannelExamples.sender)
       = (dctx', Ok ChannelExamples.plain_4096).
Proof.
  destruct (pair_encrypt (C := Examples.FC) (Some ChannelExamples.plain_4096)
              ChannelExamples.sender) as [cctx' r] eqn:E.
  assert (Hlen : 1 <= Z.of_nat (length ChannelExamples.plain_4096) <= PLAINTEXT_LEN_MAX)
    by (vm_compute; split; discriminate).
  destruct (framing_round_trip (C := Examples.FC) fakes_aead_lengths fakes_aead_opens
              ChannelExamples.plain_4096 ChannelExamples.sender cctx' r Hlen E)
    as (Hnotrap & Htotal & Hok).
  destruct r as [out| |].
  - destruct (Hok out eq_refl) as (Hframes & Hback).
    destruct (Hback (ChannelExamples.peer_of ChannelExamples.sender) eq_refl eq_refl)
      as (dctx' & Hdec).
    exists cctx', out, dctx'. split; [reflexivity|]. split; [exact Hframes | exact Hdec].
  - exfalso. apply (Htotal fakes_aead_total). reflexivity.
  - exfalso. apply Hnotrap. reflexivity.
Defined.


(* ================================================================== *)
(** * Further properties *)

(* ------------------------------------------------------------------ *)
(** ** Integers read back from memory *)

Lemma le_value_bound (bs : bytes) : le_value bs < 256 ^ Z.of_nat (length bs).
Proof.
  induction bs as [|b bs IH]; [cbn; lia|].
  cbn [le_value length]. rewrite Nat2Z.inj_succ, Z.pow_succ_r by lia.
  pose proof (byte_to_Z_range b). lia.
Qed.

Lemma le_bytes_le_value (bs : bytes) : le_bytes (length bs) (le_value bs) = bs.
Proof.
  induction bs as [|b bs IH]; [reflexivity|].
  cbn [length le_bytes le_value].
  pose proof (byte_to_Z_range b) as Hb.
  f_equal.
  - unfold byte_of_Z.
    replace ((byte_to_Z b + 256 * le_value bs) mod 256) with (byte_to_Z b).
    + unfold byte_to_Z. rewrite N2Z.id, Byte.of_to_N. reflexivity.
    + rewrite Z.mul_comm, Z.mod_add by lia.
      symmetry. apply Z.mod_small. exact Hb.
  - replace ((byte_to_Z b + 256 * le_value bs) / 256) with (le_value bs); [exact IH|].
    rewrite Z.mul_comm, Z.div_add by lia.
    rewrite Z.div_small by exact Hb. lia.
Qed.

Section HostOrder.
Context {C : Capabilities}.

Lemma host_bytes_host_value (bs : bytes) : host_bytes (length bs) (host_value bs) = bs.
Proof.
  unfold host_bytes, host_value, be_bytes, be_value. destruct host_big_endian.
  - rewrite <- (length_rev bs), le_bytes_le_value. apply rev_involutive.
  - apply le_bytes_le_value.
Qed.

Lemma host_value_bound (bs : bytes) : 0 <= host_value bs < 256 ^ Z.of_nat (length bs).
Proof.
  split; [apply host_value_nonneg|].
  unfold host_value, be_value. destruct host_big_endian.
  - rewrite <- (length_rev bs). apply le_value_bound.
  - apply le_value_bound.
Qed.

End HostOrder.

(* ------------------------------------------------------------------ *)
(** ** [pair_decrypt]: what a return value says about the buffer *)

Section DecryptOutcome.
Context {C : Capabilities}.

(** The loop ends well only on a buffer made of whole blocks that all
    opened. *)
Lemma decrypt_blocks_inv (fuel : nat) :
  forall cipher_block acc cctx cctx' out,
    decrypt_blocks fuel cipher_block acc cctx = (cctx', Decrypted out) ->
    exists plain, out = acc ++ plain /\ decodes cctx cipher_block plain cctx'.
Proof.
  induction fuel as [|fuel IH]; intros cb acc cctx cctx' out Hrun; [discriminate Hrun|].
  rewrite decrypt_blocks_S in Hrun.
  destruct (Nat.ltb 0 (length cb)) eqn:Elen.
  - cbv zeta in Hrun.
    set (b01 := [nth 0 cb x00; nth 1 cb x00]) in *.
    set (bl := host_value b01) in *.
    destruct (bl + 2 + AUTHTAG_LENGTH >? Z.of_nat (length cb)) eqn:Ecmp; [discriminate Hrun|].
    rewrite Z.gtb_ltb, Z.ltb_ge in Ecmp. unfold AUTHTAG_LENGTH in *.
    destruct (decrypt_chacha _ _ _ _ _) as [p|] eqn:Eopen; [|discriminate Hrun].
    destruct (IH _ _ _ _ _ Hrun) as (plain & Hout & Hdec).
    pose proof (host_value_bound b01) as Hbl. fold bl in Hbl.
    change (256 ^ Z.of_nat (length b01)) with (2 ^ 16) in Hbl.
    exists (p ++ plain). split; [rewrite Hout, app_assoc; reflexivity|].
    set (body := skipn 2 cb) in *.
    set (c := firstn (Z.to_nat bl) body) in *.
    set (tag := firstn (Z.to_nat 16) (skipn (Z.to_nat bl) body)) in *.
    assert (Hbody : Z.of_nat (length body) = Z.of_nat (length cb) - 2).
    { unfold body. rewrite length_skipn. lia. }
    assert (Hc : Z.of_nat (length c) = bl).
    { unfold c. rewrite length_firstn. lia. }
    assert (Htag : Z.of_nat (length tag) = 16).
    { unfold tag. rewrite length_firstn, length_skipn. lia. }
    assert (Hcb : cb = host_bytes 2 bl ++ c ++ tag
                         ++ skipn (Z.to_nat (bl + 2 + 16)) cb).
    { assert (H2 : cb = b01 ++ body).
      { unfold b01, body. destruct cb as [|x [|y cb']]; cbn [length] in Ecmp; try lia.
        reflexivity. }
      rewrite H2 at 1.
      change 2%nat with (length b01) at 1. unfold bl at 1.
      rewrite host_bytes_host_value. f_equal.
      unfold c, tag.
      replace (skipn (Z.to_nat (bl + 2 + 16)) cb)
        with (skipn (Z.to_nat 16) (skipn (Z.to_nat bl) body)).
      - rewrite firstn_skipn, firstn_skipn. reflexivity.
      - unfold body. rewrite !skipn_skipn. f_equal. lia. }
    rewrite Hcb. apply decodes_block; assumption.
  - injection Hrun as <- <-. exists []. rewrite app_nil_r. split; [reflexivity|].
    apply Nat.ltb_ge in Elen. assert (cb = []) by (apply length_zero_iff_nil; lia).
    subst cb. apply decodes_nil.
Qed.

(** Under [aead_open_lengths] whole blocks hold less plaintext than
    they take on the wire. *)
Lemma decodes_lengths :
  aead_open_lengths ->
  forall cctx wire plain cctx',
    decodes cctx wire plain cctx' ->
    (length plain <= length wire)%nat /\ (wire <> [] -> (length plain < length wire)%nat).
Proof.
  intros Hol cctx wire plain cctx' Hdec.
  induction Hdec as [cctx | cctx bl c tag p wire plain cctx' Hbl Hc Htag Hopen Hrest IH].
  - split; [apply Nat.le_refl | intro H; contradiction].
  - apply Hol in Hopen. destruct IH as [IH _].
    rewrite !length_app, length_host_bytes. unfold AUTHTAG_LENGTH in Htag.
    split; [lia | intros _; lia].
Qed.

Lemma decodes_nonempty (cctx cctx' : pair_cipher_context) (wire plain : bytes) :
  decodes cctx wire plain cctx' -> wire <> [] -> (18 <= length wire)%nat.
Proof.
  intros Hdec Hne. destruct Hdec as [cctx | cctx bl c tag p wire plain cctx' Hbl Hc Htag Hopen Hrest].
  - contradiction.
  - rewrite !length_app, length_host_bytes. unfold AUTHTAG_LENGTH in Htag. lia.
Qed.

(** [pair_decrypt] returns a plaintext exactly for the non-empty buffers
    made of whole blocks [2-byte length][ciphertext][tag] that open one
    after the other with the successive counter values; the plaintext is
    what they hold, and the context it leaves is the one after the last
    block. *)
Theorem pair_decrypt_ok_iff :
  aead_open_lengths ->
  forall (wire plain : bytes) (cctx cctx' : pair_cipher_context),
    pair_decrypt (Some wire) cctx = (cctx', Ok plain)
    <-> wire <> [] /\ decodes cctx wire plain cctx'.
Proof.
  intros Hol wire plain cctx cctx'. split.
  - intro Hrun. unfold pair_decrypt in Hrun.
    destruct (Z.of_nat (length wire) <? 2) eqn:E; [discriminate Hrun|].
    apply Z.ltb_ge in E.
    split; [intro Hw; subst wire; cbn in E; lia|].
    destruct (decrypt_blocks (S (length wire)) wire [] cctx) as [c1 [out| |]] eqn:Erun;
      try discriminate Hrun.
    + destruct (Z.of_nat (length out) <? Z.of_nat (length wire)); [|discriminate Hrun].
      injection Hrun as <- <-.
      destruct (decrypt_blocks_inv _ _ _ _ _ _ Erun) as (plain' & Hout & Hdec).
      cbn [app] in Hout. subst plain'. exact Hdec.
  - intros [Hne Hdec].
    pose proof (decodes_nonempty _ _ _ _ Hdec Hne) as H18.
    destruct (decodes_lengths Hol _ _ _ _ Hdec) as [_ Hlt].
    apply pair_decrypt_decodes; [exact Hdec | lia | exact (Hlt Hne)].
Qed.


End DecryptOutcome.

(* ------------------------------------------------------------------ *)
(** ** The channel: what a call leaves alone, and sessions *)

Section ChannelSession.
Context {C : Capabilities}.

Local Ltac split_all := repeat match goal with |- _ /\ _ => split end.

Lemma encrypt_blocks_frame (todo : nat) :
  forall i nblocks plain_block cipher cctx cctx' r,
    encrypt_blocks todo i nblocks plain_block cipher cctx = (cctx', r) ->
    encryption_key cctx' = encryption_key cctx
    /\ decryption_key cctx' = decryption_key cctx
    /\ decryption_counter cctx' = decryption_counter cctx
    /\ match r with
       | Some _ =>
           cctx_errmsg cctx' = cctx_errmsg cctx
           /\ encryption_counter cctx' = advance todo (encryption_counter cctx)
       | None => cctx_errmsg cctx' = Some "Encryption with chacha poly1305 failed"
       end.
Proof.
  induction todo as [|todo IH]; intros i nblocks pb cipher cctx cctx' r Hrun.
  - cbn [encrypt_blocks] in Hrun. injection Hrun as <- <-. repeat split; reflexivity.
  - rewrite encrypt_blocks_S in Hrun. cbv zeta in Hrun.
    destruct (encrypt_chacha _ _ _ _) as [[c tag]|].
    + apply IH in Hrun. destruct Hrun as (H1 & H2 & H3 & H4).
      cbn [cctx_incr_encryption_counter encryption_key decryption_key decryption_counter
           cctx_errmsg encryption_counter] in H1, H2, H3, H4.
      repeat (split; [assumption|]).
      destruct r as [r|]; [|exact H4].
      destruct H4 as [H4 H5]. split; [exact H4|].
      rewrite H5. unfold advance. rewrite Nat.iter_succ_r. reflexivity.
    + injection Hrun as <- <-. repeat split; reflexivity.
Qed.

Lemma decrypt_blocks_frame (fuel : nat) :
  forall cipher_block acc cctx cctx' r,
    decrypt_blocks fuel cipher_block acc cctx = (cctx', r) ->
    encryption_key cctx' = encryption_key cctx
    /\ decryption_key cctx' = decryption_key cctx
    /\ encryption_counter cctx' = encryption_counter cctx
    /\ match r with
       | Decrypted _ => cctx_errmsg cctx' = cctx_errmsg cctx
       | DecryptFailed =>
           cctx_errmsg cctx' = Some "Corrupt block length in encrypted data"
           \/ cctx_errmsg cctx' = Some "Decryption with chacha poly1305 failed"
       | OutOfFuel => True
       end.
Proof.
  induction fuel as [|fuel IH]; intros cb acc cctx cctx' r Hrun.
  - cbn [decrypt_blocks] in Hrun. injection Hrun as <- <-. repeat split; reflexivity.
  - rewrite decrypt_blocks_S in Hrun.
    destruct (Nat.ltb 0 (length cb)).
    + cbv zeta in Hrun.
      destruct (_ >? _).
      * injection Hrun as <- <-. repeat (split; [reflexivity|]). left. reflexivity.
      * destruct (decrypt_chacha _ _ _ _ _) as [p|].
        -- apply IH in Hrun. exact Hrun.
        -- injection Hrun as <- <-. repeat (split; [reflexivity|]). right. reflexivity.
    + injection Hrun as <- <-. repeat split; reflexivity.
Qed.

(** Whatever the outcome, [pair_encrypt] leaves both keys and the
    receive counter as they were and [pair_decrypt] leaves both keys and
    the send counter as they were; a successful call of either leaves the
    error message of the context as it was (an old message is not
    cleared), and a failure inside the loop sets one of the three
    messages of the file. *)
Theorem channel_calls_frame :
  forall (buffer : option bytes) (cctx : pair_cipher_context),
    let e := pair_encrypt buffer cctx in
    let d := pair_decrypt buffer cctx in
    (encryption_key (fst e) = encryption_key cctx
     /\ decryption_key (fst e) = decryption_key cctx
     /\ decryption_counter (fst e) = decryption_counter cctx
     /\ (snd e <> Error -> cctx_errmsg (fst e) = cctx_errmsg cctx)
     /\ (snd e = Error ->
         fst e = cctx
         \/ cctx_errmsg (fst e) = Some "Encryption with chacha poly1305 failed"))
    /\ (encryption_key (fst d) = encryption_key cctx
        /\ decryption_key (fst d) = decryption_key cctx
        /\ encryption_counter (fst d) = encryption_counter cctx
        /\ (forall plain, snd d = Ok plain -> cctx_errmsg (fst d) = cctx_errmsg cctx)
        /\ (snd d = Error ->
            fst d = cctx
            \/ cctx_errmsg (fst d) = Some "Corrupt block length in encrypted data"
            \/ cctx_errmsg (fst d) = Some "Decryption with chacha poly1305 failed")).
Proof.
  intros buffer cctx e d. split.
  - subst e. unfold pair_encrypt. destruct buffer as [plain|].
    2: { cbn [fst snd]. split_all; try reflexivity. intros _. left. reflexivity. }
    destruct (Z.of_nat (length plain) =? 0).
    { cbn [fst snd]. split_all; try reflexivity. intros _. left. reflexivity. }
    destruct (encrypt_blocks _ _ _ _ _ _) as [c1 r] eqn:Erun.
    apply encrypt_blocks_frame in Erun. destruct Erun as (H1 & H2 & H3 & H4).
    destruct r as [[rest out]|].
    + destruct H4 as [H4 _].
      destruct (_ && _); cbn [fst snd]; split_all; try assumption;
        try (intros _; exact H4); intro H; discriminate H.
    + cbn [fst snd]. split_all; try assumption.
      * intro H. contradiction H. reflexivity.
      * intros _. right. exact H4.
  - subst d. unfold pair_decrypt. destruct buffer as [cipher|].
    2: { cbn [fst snd]. split_all; try reflexivity. intros _. left. reflexivity. }
    destruct (Z.of_nat (length cipher) <? 2).
    { cbn [fst snd]. split_all; try reflexivity. intros _. left. reflexivity. }
    destruct (decrypt_blocks _ _ _ _) as [c1 r] eqn:Erun.
    apply decrypt_blocks_frame in Erun. destruct Erun as (H1 & H2 & H3 & H4).
    destruct r as [out| |].
    + destruct (_ <? _); cbn [fst snd]; split_all; try assumption;
        try (intros p _; exact H4); try (intros p H; discriminate H);
        intro H; discriminate H.
    + cbn [fst snd]. split_all; try assumption.
      * intros p H. discriminate H.
      * intros _. right. exact H4.
    + cbn [fst snd]. split_all; try assumption.
      * intros p H. discriminate H.
      * intro H. discriminate H.
Qed.

(** A successful [pair_encrypt], taken apart. *)
Lemma pair_encrypt_ok_inv :
  aead_lengths ->
  forall (plain out : bytes) (cctx cctx' : pair_cipher_context),
    Z.of_nat (length plain) <= PLAINTEXT_LEN_MAX ->
    pair_encrypt (Some plain) cctx = (cctx', Ok out) ->
    let n := Z.to_nat (blocks_of plain) in
    1 <= Z.of_nat (length plain)
    /\ (1 <= n)%nat
    /\ frames (encryption_key cctx) (encryption_counter cctx) plain out
         (chunk_lengths n (Z.of_nat (length plain)))
    /\ Z.of_nat (length out) = Z.of_nat (length plain) + (2 + AUTHTAG_LENGTH) * blocks_of plain
    /\ encryption_key cctx' = encryption_key cctx
    /\ encryption_counter cctx' = advance n (encryption_counter cctx).
Proof.
  intros Hlens plain out cctx cctx' Hmax Hrun. cbv zeta.
  assert (Hpos : 1 <= Z.of_nat (length plain)).
  { unfold pair_encrypt in Hrun.
    destruct (Z.of_nat (length plain) =? 0) eqn:E; [discriminate Hrun|].
    apply Z.eqb_neq in E. lia. }
  assert (Hlen : 1 <= Z.of_nat (length plain) <= PLAINTEXT_LEN_MAX) by lia.
  destruct (blocks_of_bounds plain Hlen) as (Hn & Hb & _).
  pose proof (pair_encrypt_frames Hlens plain cctx cctx' (Ok out) Hlen Hrun) as [Hf Hl].
  split; [exact Hpos|]. split; [lia|]. split; [exact Hf|]. split; [exact Hl|].
  unfold pair_encrypt in Hrun.
  destruct (Z.of_nat (length plain) =? 0); [discriminate Hrun|].
  rewrite Hn in Hrun.
  destruct (encrypt_blocks _ _ _ _ _ _) as [c1 [[rest wire]|]] eqn:Erun; [|discriminate Hrun].
  apply encrypt_blocks_frame in Erun. destruct Erun as (H1 & _ & _ & _ & H5).
  destruct (_ && _); [|discriminate Hrun].
  injection Hrun as <- _. split; assumption.
Qed.

(** The size of the output: the plaintext and 18 bytes per block. *)
Theorem pair_encrypt_output_length :
  aead_lengths ->
  forall (plain out : bytes) (cctx cctx' : pair_cipher_context),
    Z.of_nat (length plain) <= PLAINTEXT_LEN_MAX ->
    pair_encrypt (Some plain) cctx = (cctx', Ok out) ->
    Z.of_nat (length out)
    = Z.of_nat (length plain)
      + 18 * ((Z.of_nat (length plain) + 1023) / 1024).
Proof.
  intros Hlens plain out cctx cctx' Hmax Hrun.
  destruct (pair_encrypt_ok_inv Hlens plain out cctx cctx' Hmax Hrun) as (_ & _ & _ & Hl & _).
  rewrite Hl. unfold blocks_of, AUTHTAG_LENGTH, ENCRYPTED_LEN_MAX.
  replace (Z.of_nat (length plain) + 1024 - 1) with (Z.of_nat (length plain) + 1023) by lia.
  lia.
Qed.

(** Blocks that frame a plaintext are opened by a receiver in step, and
    leave it in step with the sender's next counter. *)
Lemma frames_decodes_advance :
  aead_opens ->
  forall key counter plain wire lens,
    frames key counter plain wire lens ->
    forall dctx,
      decryption_key dctx = key ->
      decryption_counter dctx = counter ->
      exists dctx',
        decodes dctx wire plain dctx'
        /\ decryption_key dctx' = key
        /\ decryption_counter dctx' = advance (length lens) counter.
Proof.
  intros Hopens key counter plain wire lens Hf.
  induction Hf as [counter | counter chunk c tag plain wire lens Hsize Hseal Hc Htag Hrest IH];
    intros dctx Hkey Hctr.
  - exists dctx. split; [constructor|]. split; [exact Hkey | exact Hctr].
  - destruct (IH (cctx_incr_decryption_counter dctx)) as (dctx' & Hdec & Hk & Hadv).
    + cbn. exact Hkey.
    + cbn. rewrite Hctr. reflexivity.
    + exists dctx'. split; [|split; [exact Hk|]].
      * apply decodes_block; try assumption.
        -- unfold ENCRYPTED_LEN_MAX in Hsize. lia.
        -- lia.
        -- rewrite Hkey, Hctr. unfold decrypt_chacha. apply Hopens. exact Hseal.
      * rewrite Hadv. cbn [length]. unfold advance. rewrite Nat.iter_succ_r. reflexivity.
Qed.

(** One message: the receiver in step with the sender reads it back and
    stays in step. *)
Lemma pair_encrypt_decrypt_in_sync :
  aead_lengths -> aead_opens ->
  forall (plain out : bytes) (s s' r : pair_cipher_context),
    Z.of_nat (length plain) <= PLAINTEXT_LEN_MAX ->
    in_sync s r ->
    pair_encrypt (Some plain) s = (s', Ok out) ->
    exists r', pair_decrypt (Some out) r = (r', Ok plain) /\ in_sync s' r'.
Proof.
  intros Hlens Hopens plain out s s' r Hmax [Hk Hc] Hrun.
  destruct (pair_encrypt_ok_inv Hlens plain out s s' Hmax Hrun)
    as (Hpos & Hn & Hf & Hl & Hk' & Hc').
  destruct (frames_decodes_advance Hopens _ _ _ _ _ Hf r Hk Hc) as (r' & Hdec & Hrk & Hrc).
  rewrite length_chunk_lengths in Hrc.
  exists r'. split.
  - apply pair_decrypt_decodes; [exact Hdec | |];
      unfold AUTHTAG_LENGTH in Hl;
      assert (1 <= blocks_of plain) by lia; lia.
  - split; [rewrite Hrk, Hk'; reflexivity | rewrite Hrc, Hc'; reflexivity].
Qed.

(** A session: whatever sequence of messages the sender encrypts, the
    receiver that started in step decrypts them in order to the same
    messages, and the two contexts end in step. *)
Theorem session_round_trip :
  aead_lengths -> aead_opens ->
  forall (plaintexts outs : list bytes) (s s' r : pair_cipher_context),
    Forall (fun plain => Z.of_nat (length plain) <= PLAINTEXT_LEN_MAX) plaintexts ->
    in_sync s r ->
    encrypt_all s plaintexts = Some (s', outs) ->
    exists r', decrypt_all r outs = Some (r', plaintexts) /\ in_sync s' r'.
Proof.
  intros Hlens Hopens plaintexts.
  induction plaintexts as [|plain more IH]; intros outs s s' r Hmax Hsync Hrun.
  - cbn in Hrun. injection Hrun as <- <-. exists r. split; [reflexivity | exact Hsync].
  - cbn [encrypt_all] in Hrun.
    destruct (pair_encrypt (Some plain) s) as [s1 [out| |]] eqn:E; try discriminate Hrun.
    destruct (encrypt_all s1 more) as [[s2 outs']|] eqn:E2; [|discriminate Hrun].
    injection Hrun as <- <-.
    inversion Hmax as [|? ? Hp Hmore]; subst.
    destruct (pair_encrypt_decrypt_in_sync Hlens Hopens plain out s s1 r Hp Hsync E)
      as (r1 & Hdec & Hsync1).
    destruct (IH outs' s1 s2 r1 Hmore Hsync1 E2) as (r' & Hall & Hsync').
    exists r'. split; [|exact Hsync'].
    cbn [decrypt_all]. rewrite Hdec, Hall. reflexivity.
Qed.

(* ---- truncated buffers ---- *)

Lemma length_removelast_Z (l : bytes) :
  l <> [] -> Z.of_nat (length (removelast l)) = Z.of_nat (length l) - 1.
Proof.
  intro H. rewrite removelast_firstn_len, length_firstn.
  destruct l; [contradiction|]. cbn [length]. lia.
Qed.

Lemma frames_wire_nil key counter plain lens :
  frames key counter plain [] lens -> lens = [].
Proof.
  intro H. remember [] as wire eqn:E.
  destruct H as [|counter chunk c tag plain wire' lens' Hsize Hseal Hc Htag Hrest];
    [reflexivity|].
  exfalso. apply (f_equal (@length byte)) in E.
  rewrite !length_app, length_host_bytes in E. cbn [length] in E. lia.
Qed.

Lemma frames_lens_nil key counter plain wire :
  frames key counter plain wire [] -> wire = [].
Proof.
  intro H. remember [] as lens eqn:E.
  destruct H; [reflexivity | discriminate E].
Qed.

(** The blocks of a plaintext with the last byte taken away: the loop
    passes the whole blocks, the counter moving on with each, and stops
    at the last one, whose length prefix now runs past the end. *)
Lemma frames_truncated :
  aead_opens ->
  forall key counter plain wire lens,
    frames key counter plain wire lens ->
    wire <> [] ->
    forall dctx fuel acc,
      decryption_key dctx = key ->
      decryption_counter dctx = counter ->
      (length wire <= fuel)%nat ->
      exists dctx',
        decrypt_blocks fuel (removelast wire) acc dctx
        = (cctx_set_errmsg dctx' "Corrupt block length in encrypted data", DecryptFailed)
        /\ decryption_counter dctx' = advance (length lens - 1) counter.
Proof.
  intros Hopens key counter plain wire lens Hf.
  induction Hf as [counter | counter chunk c tag plain wire lens Hsize Hseal Hc Htag Hrest IH];
    intros Hne dctx fuel acc Hkey Hctr Hfuel; [contradiction|].
  assert (Htagne : tag <> []).
  { intro Ht. subst tag. unfold AUTHTAG_LENGTH in Htag. cbn in Htag. lia. }
  rewrite !length_app, length_host_bytes in Hfuel.
  unfold AUTHTAG_LENGTH, ENCRYPTED_LEN_MAX in *.
  destruct fuel as [|fuel]; [lia|].
  destruct wire as [|x wire].
  - apply frames_wire_nil in Hrest. subst lens.
    rewrite app_nil_r.
    rewrite removelast_app by (intro H; apply app_eq_nil in H; destruct H; contradiction).
    rewrite removelast_app by exact Htagne.
    rewrite decrypt_blocks_S.
    destruct (host_bytes_2 (Z.of_nat (length chunk))) as (b0 & b1 & E).
    assert (Hv : host_value [b0; b1] = Z.of_nat (length chunk)).
    { rewrite <- E, host_value_host_bytes. apply Z.mod_small.
      change (256 ^ Z.of_nat 2) with 65536. lia. }
    rewrite E. cbn [app length nth Nat.ltb Nat.leb]. cbv zeta. rewrite Hv.
    destruct (_ >? _) eqn:Ecmp.
    + exists dctx. split; [reflexivity | exact Hctr].
    + exfalso. rewrite Z.gtb_ltb, Z.ltb_ge in Ecmp. unfold AUTHTAG_LENGTH in Ecmp.
      rewrite Nat2Z.inj_succ, Nat2Z.inj_succ, length_app, Nat2Z.inj_add in Ecmp.
      rewrite length_removelast_Z in Ecmp by exact Htagne. lia.
  - assert (Hlens : lens <> []).
    { intro Hl. subst lens. apply frames_lens_nil in Hrest. discriminate Hrest. }
    rewrite !app_assoc. rewrite removelast_app by discriminate. rewrite <- !app_assoc.
    rewrite (decrypt_blocks_step fuel (Z.of_nat (length chunk)) c tag
               (removelast (x :: wire)) acc chunk dctx).
    + destruct (IH ltac:(discriminate) (cctx_incr_decryption_counter dctx) fuel (acc ++ chunk))
        as (dctx' & Hrun & Hadv).
      * cbn. exact Hkey.
      * cbn. rewrite Hctr. reflexivity.
      * lia.
      * exists dctx'. split; [exact Hrun|]. rewrite Hadv.
        destruct lens as [|l lens]; [contradiction|].
        cbn [length]. rewrite !Nat.sub_succ, !Nat.sub_0_r.
        unfold advance. rewrite Nat.iter_succ_r. reflexivity.
    + lia.
    + lia.
    + exact Htag.
    + rewrite Hkey, Hctr. unfold decrypt_chacha. apply Hopens. exact Hseal.
Qed.

(** Taking the final byte (a byte of the last tag) off the output of
    [pair_encrypt] makes [pair_decrypt] fail with the corrupt block
    length message: no plaintext is returned, not even that of the whole
    blocks before. The failure is not atomic: the receive counter has
    moved past the blocks that opened, so for a message of more than one
    block the receiver is no longer in step with the sender's message. *)
Theorem truncated_final_byte_rejected :
  aead_lengths -> aead_opens ->
  forall (plain out : bytes) (s s' r : pair_cipher_context),
    Z.of_nat (length plain) <= PLAINTEXT_LEN_MAX ->
    in_sync s r ->
    pair_encrypt (Some plain) s = (s', Ok out) ->
    exists r',
      pair_decrypt (Some (removelast out)) r = (r', Error)
      /\ cctx_errmsg r' = Some "Corrupt block length in encrypted data"
      /\ decryption_counter r'
         = advance (Z.to_nat (blocks_of plain) - 1) (decryption_counter r).
Proof.
  intros Hlens Hopens plain out s s' r Hmax [Hk Hc] Hrun.
  destruct (pair_encrypt_ok_inv Hlens plain out s s' Hmax Hrun)
    as (Hpos & Hn & Hf & Hl & _ & _).
  unfold AUTHTAG_LENGTH in Hl.
  assert (Hb : 1 <= blocks_of plain) by lia.
  assert (Hne : out <> []) by (intro H; rewrite H in Hl; cbn [length] in Hl; lia).
  pose proof (length_removelast_Z out Hne) as Hrl.
  destruct (frames_truncated Hopens _ _ _ _ _ Hf Hne r
              (S (length (removelast out))) [] Hk Hc ltac:(lia)) as (r' & Hrun' & Hadv).
  rewrite length_chunk_lengths in Hadv.
  unfold pair_decrypt.
  destruct (Z.of_nat (length (removelast out)) <? 2) eqn:E; [lia|].
  rewrite Hrun'. eexists. split; [reflexivity|]. split; [reflexivity|].
  cbn [cctx_set_errmsg decryption_counter]. rewrite Hadv, Hc. reflexivity.
Qed.

(* ---- a buffer cut at a block boundary ---- *)

Lemma frames_cons_inv key counter plain wire l lens :
  frames key counter plain wire (l :: lens) ->
  exists chunk c tag plain' wire',
    plain = chunk ++ plain'
    /\ wire = host_bytes 2 l ++ c ++ tag ++ wire'
    /\ Z.of_nat (length chunk) = l
    /\ 1 <= l <= ENCRYPTED_LEN_MAX
    /\ length c = length chunk
    /\ Z.of_nat (length tag) = AUTHTAG_LENGTH
    /\ encrypt_chacha chunk key (host_bytes 2 l) (counter_nonce counter) = Some (c, tag)
    /\ frames key (to_uint64 (counter + 1)) plain' wire' lens.
Proof.
  intro H. remember (l :: lens) as ll eqn:E.
  destruct H as [|counter chunk c tag plain wire lens' Hsize Hseal Hc Htag Hrest];
    [discriminate E|].
  injection E as <- <-.
  exists chunk, c, tag, plain, wire. repeat (split; [first [reflexivity | assumption]|]).
  exact Hrest.
Qed.

Lemma frames_split (k : nat) :
  forall key counter plain wire rest_lens,
    frames key counter plain wire (repeat ENCRYPTED_LEN_MAX k ++ rest_lens) ->
    exists p1 p2 w1 w2,
      plain = p1 ++ p2 /\ wire = w1 ++ w2
      /\ frames key counter p1 w1 (repeat ENCRYPTED_LEN_MAX k)
      /\ Z.of_nat (length p1) = ENCRYPTED_LEN_MAX * Z.of_nat k
      /\ Z.of_nat (length w1) = (ENCRYPTED_LEN_MAX + 2 + AUTHTAG_LENGTH) * Z.of_nat k.
Proof.
  induction k as [|k IH]; intros key counter plain wire rest_lens Hf.
  - exists [], plain, [], wire. repeat split; try reflexivity. apply frames_nil.
  - cbn [repeat app] in Hf.
    apply frames_cons_inv in Hf.
    destruct Hf as (chunk & c & tag & plain' & wire' & Hplain & Hwire & Hlen & Hsize
                    & Hc & Htag & Hseal & Hrest).
    destruct (IH _ _ _ _ _ Hrest) as (p1 & p2 & w1 & w2 & Hp & Hw & Hf1 & Hlp & Hlw).
    exists (chunk ++ p1), p2,
      (host_bytes 2 (Z.of_nat (length chunk)) ++ c ++ tag ++ w1), w2.
    split; [rewrite Hplain, Hp, app_assoc; reflexivity|].
    split; [rewrite Hwire, Hw, Hlen, <- !app_assoc; reflexivity|].
    split; [|split].
    + cbn [repeat]. rewrite <- Hlen at 1.
      apply frames_block; try assumption.
      * rewrite Hlen. exact Hsize.
      * rewrite Hlen. exact Hseal.
    + rewrite length_app, Nat2Z.inj_add, Hlp. lia.
    + rewrite !length_app, length_host_bytes. unfold AUTHTAG_LENGTH in *. lia.
Qed.

(** Cutting the output of [pair_encrypt] at the start of its last block
    is not noticed: [pair_decrypt] returns the plaintext without its last
    chunk. (The blocks carry no mark of being the last.) *)
Theorem dropped_last_block_accepted :
  aead_lengths -> aead_opens ->
  forall (plain out : bytes) (s s' r : pair_cipher_context),
    ENCRYPTED_LEN_MAX < Z.of_nat (length plain) <= PLAINTEXT_LEN_MAX ->
    in_sync s r ->
    pair_encrypt (Some plain) s = (s', Ok out) ->
    let k := blocks_of plain - 1 in
    exists r',
      pair_decrypt (Some (firstn (Z.to_nat ((ENCRYPTED_LEN_MAX + 18) * k)) out)) r
      = (r', Ok (firstn (Z.to_nat (ENCRYPTED_LEN_MAX * k)) plain)).
Proof.
  intros Hlens Hopens plain out s s' r [Hbig Hmax] [Hk Hc] Hrun. cbv zeta.
  destruct (pair_encrypt_ok_inv Hlens plain out s s' Hmax Hrun)
    as (Hpos & Hn & Hf & Hl & _ & _).
  destruct (blocks_of_bounds plain ltac:(lia)) as (_ & Hb & Hsize).
  assert (Hk2 : 2 <= blocks_of plain) by (unfold ENCRYPTED_LEN_MAX in *; lia).
  destruct (Z.to_nat (blocks_of plain)) as [|n] eqn:En; [lia|].
  rewrite chunk_lengths_repeat in Hf.
  destruct (frames_split n _ _ _ _ _ Hf) as (p1 & p2 & w1 & w2 & Hp & Hw & Hf1 & Hlp & Hlw).
  assert (Hn' : Z.of_nat n = blocks_of plain - 1) by lia.
  rewrite Hn' in Hlp, Hlw. unfold AUTHTAG_LENGTH in Hlw.
  replace (Z.to_nat ((ENCRYPTED_LEN_MAX + 18) * (blocks_of plain - 1))) with (length w1)
    by (unfold ENCRYPTED_LEN_MAX in *; lia).
  replace (Z.to_nat (ENCRYPTED_LEN_MAX * (blocks_of plain - 1))) with (length p1) by lia.
  rewrite Hp, Hw.
  rewrite !firstn_app, !Nat.sub_diag, !firstn_O, !app_nil_r, !firstn_all.
  destruct (frames_decodes Hopens _ _ _ _ _ Hf1 r Hk Hc) as (r' & Hdec).
  exists r'. apply pair_decrypt_decodes; [exact Hdec | |];
    unfold ENCRYPTED_LEN_MAX in *; lia.
Qed.

End ChannelSession.

(* ------------------------------------------------------------------ *)
(** ** The channel properties on concrete inputs *)

Lemma fakes_aead_open_lengths : aead_open_lengths (C := Examples.FC).
Proof.
  intros key nonce' ad c tag p H. cbn in H. unfold Fakes.open in H.
  destruct (Fakes.bytes_eqb _ _); [|discriminate H].
  injection H as <-. apply length_map.
Qed.

Lemma sender_peer_in_sync :
  in_sync ChannelExamples.sender (ChannelExamples.peer_of ChannelExamples.sender).
Proof. split; reflexivity. Qed.

Lemma sent_1025 :
  pair_encrypt (C := Examples.FC) (Some ChannelExamples.plain_1025) ChannelExamples.sender
  = (SessionExamples.sender_after_1025, Ok SessionExamples.wire_1025).
Proof. vm_compute. reflexivity. Qed.

Lemma plain_1025_in_range :
  Z.of_nat (length ChannelExamples.plain_1025) <= PLAINTEXT_LEN_MAX.
Proof. vm_compute. discriminate. Qed.

(** The two blocks made of 1025 bytes are read back by the peer. *)
Lemma pair_decrypt_ok_iff_witness :
  SessionExamples.wire_1025 <> []
  /\ decodes (C := Examples.FC) (ChannelExamples.peer_of ChannelExamples.sender)
       SessionExamples.wire_1025 ChannelExamples.plain_1025
       (fst (pair_decrypt (C := Examples.FC) (Some SessionExamples.wire_1025)
               (ChannelExamples.peer_of ChannelExamples.sender))).
Proof.
  apply (proj1 (pair_decrypt_ok_iff (C := Examples.FC) fakes_aead_open_lengths
                  SessionExamples.wire_1025 ChannelExamples.plain_1025
                  (ChannelExamples.peer_of ChannelExamples.sender) _)).
  vm_compute. reflexivity.
Defined.


(** 1025 bytes give 1025 + 2 * 18 = 1061 bytes. *)
Lemma pair_encrypt_output_length_witness :
  Z.of_nat (length SessionExamples.wire_1025)
  = Z.of_nat (length ChannelExamples.plain_1025)
    + 18 * ((Z.of_nat (length ChannelExamples.plain_1025) + 1023) / 1024).
Proof.
  apply (pair_encrypt_output_length (C := Examples.FC) fakes_aead_lengths
           ChannelExamples.plain_1025 SessionExamples.wire_1025
           ChannelExamples.sender SessionExamples.sender_after_1025
           plain_1025_in_range sent_1025).
Defined.

(** Three messages, of 1025, 2 and 1 bytes. *)
Lemma session_round_trip_witness :
  exists r',
    decrypt_all (C := Examples.FC) (ChannelExamples.peer_of ChannelExamples.sender)
      SessionExamples.wires
    = Some (r', SessionExamples.messages)
    /\ in_sync SessionExamples.sender_after_messages r'.
Proof.
  apply (session_round_trip (C := Examples.FC) fakes_aead_lengths fakes_aead_opens
           SessionExamples.messages SessionExamples.wires
           ChannelExamples.sender SessionExamples.sender_after_messages
           (ChannelExamples.peer_of ChannelExamples.sender)).
  - repeat constructor; vm_compute; discriminate.
  - exact sender_peer_in_sync.
  - vm_compute. reflexivity.
Defined.

(** The 1061 bytes without the last one. *)
Lemma truncated_final_byte_rejected_witness :
  exists r',
    pair_decrypt (C := Examples.FC) (Some (removelast SessionExamples.wire_1025))
      (ChannelExamples.peer_of ChannelExamples.sender)
    = (r', Error)
    /\ cctx_errmsg r' = Some "Corrupt block length in encrypted data"
    /\ decryption_counter r'
       = advance (Z.to_nat (blocks_of ChannelExamples.plain_1025) - 1)
           (decryption_counter (ChannelExamples.peer_of ChannelExamples.sender)).
Proof.
  apply (truncated_final_byte_rejected (C := Examples.FC) fakes_aead_lengths fakes_aead_opens
           ChannelExamples.plain_1025 SessionExamples.wire_1025
           ChannelExamples.sender SessionExamples.sender_after_1025
           (ChannelExamples.peer_of ChannelExamples.sender)
           plain_1025_in_range sender_peer_in_sync sent_1025).
Defined.

(** The first 1042 of the 1061 bytes decrypt to the first 1024 bytes of
    the plaintext. *)
Lemma dropped_last_block_accepted_witness :
  exists r',
    pair_decrypt (C := Examples.FC)
      (Some (firstn (Z.to_nat ((ENCRYPTED_LEN_MAX + 18)
                               * (blocks_of ChannelExamples.plain_1025 - 1)))
               SessionExamples.wire_1025))
      (ChannelExamples.peer_of ChannelExamples.sender)
    = (r', Ok (firstn (Z.to_nat (ENCRYPTED_LEN_MAX
                                 * (blocks_of ChannelExamples.plain_1025 - 1)))
                 ChannelExamples.plain_1025)).
Proof.
  apply (dropped_last_block_accepted (C := Examples.FC) fakes_aead_lengths fakes_aead_opens
           ChannelExamples.plain_1025 SessionExamples.wire_1025
           ChannelExamples.sender SessionExamples.sender_after_1025
           (ChannelExamples.peer_of ChannelExamples.sender)).
  - vm_compute. split; [reflexivity | discriminate].
  - exact sender_peer_in_sync.
  - exact sent_1025.
Defined.

(* ------------------------------------------------------------------ *)
(** ** The SRP client: when a challenge is answered *)

Lemma bnum_num_bytes_nonneg (n : bnum) : 0 <= bnum_num_bytes n.
Proof.
  unfold bnum_num_bytes. destruct (n =? 0); [lia|].
  pose proof (Z.log2_nonneg (Z.abs n)). apply Z.div_pos; lia.
Qed.

Lemma bnum_num_bytes_pos (n : bnum) : 1 <= bnum_num_bytes n <-> n <> 0.
Proof.
  unfold bnum_num_bytes. destruct (n =? 0) eqn:E.
  - apply Z.eqb_eq in E. split; [lia | intro H; contradiction].
  - apply Z.eqb_neq in E. split; [intros _; exact E | intros _].
    pose proof (Z.log2_nonneg (Z.abs n)).
    apply Z.div_le_lower_bound; lia.
Qed.

(** The magnitude of a number fits its [bnum_num_bytes] bytes. *)
Lemma bnum_abs_bound (n : bnum) : Z.abs n < 256 ^ bnum_num_bytes n.
Proof.
  unfold bnum_num_bytes. destruct (n =? 0) eqn:E.
  - apply Z.eqb_eq in E. subst n. cbn. lia.
  - apply Z.eqb_neq in E.
    assert (Hpos : 0 < Z.abs n) by lia.
    pose proof (Z.log2_nonneg (Z.abs n)) as Hl.
    destruct (Z.log2_spec (Z.abs n) Hpos) as [_ Hup].
    set (k := (Z.log2 (Z.abs n) + 1 + 7) / 8).
    assert (Hk : Z.log2 (Z.abs n) + 1 <= 8 * k).
    { unfold k. pose proof (Z.div_mod (Z.log2 (Z.abs n) + 1 + 7) 8 ltac:(lia)) as Hdm.
      pose proof (Z.mod_pos_bound (Z.log2 (Z.abs n) + 1 + 7) 8 ltac:(lia)) as Hm. lia. }
    change 256 with (2 ^ 8). rewrite <- Z.pow_mul_r by lia.
    eapply Z.lt_le_trans; [exact Hup|].
    replace (Z.succ (Z.log2 (Z.abs n))) with (Z.log2 (Z.abs n) + 1) by lia.
    apply Z.pow_le_mono_r; lia.
Qed.

Lemma le_bytes_zero (n : nat) : le_bytes n 0 = zeros n.
Proof.
  induction n as [|n IH]; [reflexivity|].
  cbn [le_bytes]. change (0 / 256) with 0. rewrite IH. reflexivity.
Qed.

Lemma le_bytes_app (a b : nat) (z : Z) :
  le_bytes (a + b) z = le_bytes a z ++ le_bytes b (z / 256 ^ Z.of_nat a).
Proof.
  revert z. induction a as [|a IH]; intro z.
  - cbn [Nat.add le_bytes app]. change (256 ^ Z.of_nat 0) with 1. rewrite Z.div_1_r. reflexivity.
  - cbn [Nat.add le_bytes app]. rewrite IH. f_equal. f_equal.
    rewrite Nat2Z.inj_succ, Z.pow_succ_r by lia.
    rewrite Z.div_div by lia. reflexivity.
Qed.

Lemma rev_zeros (n : nat) : rev (zeros n) = zeros n.
Proof.
  unfold zeros. induction n as [|n IH]; [reflexivity|].
  cbn [repeat rev]. rewrite IH. symmetry. apply repeat_cons.
Qed.

(** A number written on more bytes than it needs: zero bytes in front. *)
Lemma be_bytes_pad (a b : nat) (z : Z) :
  0 <= z < 256 ^ Z.of_nat a ->
  be_bytes (a + b) z = zeros b ++ be_bytes a z.
Proof.
  intro Hz. unfold be_bytes. rewrite le_bytes_app, rev_app_distr.
  rewrite Z.div_small by exact Hz. rewrite le_bytes_zero, rev_zeros. reflexivity.
Qed.

Section Challenge.
Context {C : Capabilities}.

Lemma H_nn_pad_unfold (alg : hash_alg) (n1 n2 : bnum) :
  H_nn_pad alg n1 n2
  = if (bnum_num_bytes n2 <? 1) || (bnum_num_bytes n2 >? bnum_num_bytes n1) then None
    else Some (bnum_bin2bn
                 (hash_md alg (bnum_bn2bin n1
                               ++ zeros (Z.to_nat (bnum_num_bytes n1 - bnum_num_bytes n2))
                               ++ bnum_bn2bin n2))).
Proof. reflexivity. Qed.

(** [H_nn_pad] hashes the two numbers written big-endian on as many
    bytes as the FIRST one has, the second with zero bytes in front; it
    gives nothing when the second is zero or has more bytes than the
    first. *)
Theorem H_nn_pad_pads_to_first :
  forall (alg : hash_alg) (n1 n2 : bnum),
    let len := Z.to_nat (bnum_num_bytes n1) in
    H_nn_pad alg n1 n2
    = if (1 <=? bnum_num_bytes n2) && (bnum_num_bytes n2 <=? bnum_num_bytes n1)
      then Some (bnum_bin2bn
                   (hash_md alg (be_bytes len (Z.abs n1) ++ be_bytes len (Z.abs n2))))
      else None.
Proof.
  intros alg n1 n2 len. unfold H_nn_pad.
  destruct (bnum_num_bytes n2 <? 1) eqn:E1.
  - apply Z.ltb_lt in E1. cbn [orb].
    replace (1 <=? bnum_num_bytes n2) with false by (symmetry; apply Z.leb_gt; lia).
    reflexivity.
  - apply Z.ltb_ge in E1. cbn [orb].
    replace (1 <=? bnum_num_bytes n2) with true by (symmetry; apply Z.leb_le; lia).
    cbn [andb]. rewrite Z.gtb_ltb.
    destruct (bnum_num_bytes n1 <? bnum_num_bytes n2) eqn:E2.
    + apply Z.ltb_lt in E2.
      replace (bnum_num_bytes n2 <=? bnum_num_bytes n1) with false
        by (symmetry; apply Z.leb_gt; lia).
      reflexivity.
    + apply Z.ltb_ge in E2.
      replace (bnum_num_bytes n2 <=? bnum_num_bytes n1) with true
        by (symmetry; apply Z.leb_le; lia).
      do 3 f_equal. unfold bnum_bn2bin. fold len. f_equal.
      replace len
        with (Z.to_nat (bnum_num_bytes n2)
              + Z.to_nat (bnum_num_bytes n1 - bnum_num_bytes n2))%nat
        by (unfold len; lia).
      rewrite be_bytes_pad; [reflexivity|].
      rewrite Z2Nat.id by lia.
      split; [apply Z.abs_nonneg | apply bnum_abs_bound].
Qed.

(** [srp_user_process_challenge] answers exactly when g fits N, the
    peer's B is not zero and has no more bytes than the client's own A,
    and the scrambling value u is not zero. Otherwise it returns no proof
    and a length of 0 and the user is as before; when it answers, the
    proof is the user's M of [hash_length] bytes and only S, the session
    key, M and H_AMK of the user have changed. *)
Theorem srp_challenge_answered_iff :
  forall (usr : SRPUser) (bytes_s bytes_B : bytes),
    let N := ng_N (usr_ng usr) in
    let g := ng_g (usr_ng usr) in
    let A := usr_A usr in
    let B := bnum_bin2bn bytes_B in
    let r := srp_user_process_challenge usr bytes_s bytes_B in
    (fst (snd r) <> None
     <-> 1 <= bnum_num_bytes g <= bnum_num_bytes N
         /\ B <> 0
         /\ bnum_num_bytes B <= bnum_num_bytes A
         /\ H_nn_pad (usr_alg usr) A B <> Some 0)
    /\ (fst (snd r) = None -> r = (usr, (None, 0)))
    /\ (fst (snd r) <> None ->
        fst (snd r) = Some (usr_M (fst r))
        /\ snd (snd r) = hash_length (usr_alg usr)
        /\ usr_session_key_len (fst r) = hash_length (usr_alg usr)
        /\ usr_a (fst r) = usr_a usr
        /\ usr_A (fst r) = usr_A usr
        /\ usr_bytes_A (fst r) = usr_bytes_A usr
        /\ usr_authenticated (fst r) = usr_authenticated usr
        /\ usr_username (fst r) = usr_username usr
        /\ usr_password (fst r) = usr_password usr).
Proof.
  intros usr bytes_s bytes_B N g A B r. subst r.
  unfold srp_user_process_challenge. fold N g A B.
  pose proof (bnum_num_bytes_pos B) as HB.
  rewrite (H_nn_pad_unfold (usr_alg usr) N g), (H_nn_pad_unfold (usr_alg usr) A B).
  destruct ((bnum_num_bytes g <? 1) || (bnum_num_bytes g >? bnum_num_bytes N)) eqn:Eg.
  { cbn [fst snd]. split; [|split].
    - split; [intro H; contradiction H; reflexivity|].
      intros (Hg & _). exfalso.
      apply orb_true_iff in Eg. rewrite Z.ltb_lt, Z.gtb_ltb, Z.ltb_lt in Eg. lia.
    - reflexivity.
    - intro H. contradiction H. reflexivity. }
  apply orb_false_iff in Eg. rewrite Z.ltb_ge, Z.gtb_ltb, Z.ltb_ge in Eg.
  destruct ((bnum_num_bytes B <? 1) || (bnum_num_bytes B >? bnum_num_bytes A)) eqn:Eb.
  { cbn [fst snd]. split; [|split].
    - split; [intro H; contradiction H; reflexivity|].
      intros (_ & Hnz & Hle & _). exfalso.
      apply orb_true_iff in Eb. rewrite Z.ltb_lt, Z.gtb_ltb, Z.ltb_lt in Eb.
      apply HB in Hnz. lia.
    - reflexivity.
    - intro H. contradiction H. reflexivity. }
  apply orb_false_iff in Eb. rewrite Z.ltb_ge, Z.gtb_ltb, Z.ltb_ge in Eb.
  assert (HBnz : B <> 0) by (apply HB; lia).
  unfold bnum_is_zero. fold B.
  destruct (B =? 0) eqn:EB0; [apply Z.eqb_eq in EB0; contradiction|].
  cbn [negb andb].
  match goal with
  | |- context [negb (?v =? 0)] => set (u := v)
  end.
  destruct (u =? 0) eqn:Eu.
  - apply Z.eqb_eq in Eu. cbn [negb fst snd]. split; [|split].
    + split; [intro H; contradiction H; reflexivity|].
      intros (_ & _ & _ & Hu). exfalso. apply Hu. rewrite Eu. reflexivity.
    + reflexivity.
    + intro H. contradiction H. reflexivity.
  - apply Z.eqb_neq in Eu. cbn [negb fst snd]. split; [|split].
    + split; [|intros _; discriminate].
      intros _. split; [lia|]. split; [exact HBnz|]. split; [lia|].
      intro H. injection H as H. contradiction.
    + intro H. discriminate H.
    + intros _. repeat split; reflexivity.
Qed.

End Challenge.


(* ------------------------------------------------------------------ *)
(** ** The SRP client: the secret it shares with the server *)

Lemma bnum_bin2bn_nonneg (buf : bytes) : 0 <= bnum_bin2bn buf.
Proof. unfold bnum_bin2bn, be_value. apply le_value_nonneg. Qed.

(** The arithmetic of SRP-6a: with the verifier v = g^x and the
    server's B = k*v + g^b, the client's (B - k*g^x)^(a + u*x) is the
    server's (A*v^u)^b, modulo N. *)
Lemma srp_secret_arithmetic (N g k a b u x B : Z) :
  N <> 0 -> 0 <= a -> 0 <= b -> 0 <= u -> 0 <= x ->
  B = (k * bnum_modexp g x N + bnum_modexp g b N) mod N ->
  bnum_modexp (B - k * bnum_modexp g x N) (a + u * x) N
  = bnum_modexp (bnum_modexp g a N * bnum_modexp (bnum_modexp g x N) u N) b N.
Proof.
  intros HN Ha Hb Hu Hx HB.
  rewrite !bnum_modexp_spec by (try assumption; nia).
  rewrite bnum_modexp_spec in HB by assumption.
  rewrite (bnum_modexp_spec g b N) in HB by assumption.
  set (v := g ^ x mod N) in *.
  (* the client's base is g^b modulo N *)
  assert (Hbase : (B - k * v) mod N = g ^ b mod N).
  { rewrite HB, Zminus_mod_idemp_l.
    replace (k * v + g ^ b mod N - k * v) with (g ^ b mod N) by lia.
    apply Z.mod_mod. exact HN. }
  rewrite <- (Z.mod_pow_l (B - k * v)), Hbase, Z.mod_pow_l.
  (* the server's base is g^(a + x*u) modulo N *)
  assert (Hserver : (g ^ a mod N * (v ^ u mod N)) mod N = g ^ (a + u * x) mod N).
  { rewrite <- Z.mul_mod by exact HN.
    unfold v. rewrite Z.mul_mod, Z.mod_pow_l, <- Z.mul_mod by exact HN.
    rewrite <- Z.pow_mul_r, <- Z.pow_add_r by nia.
    f_equal. f_equal. lia. }
  rewrite <- (Z.mod_pow_l (g ^ a mod N * (v ^ u mod N))), Hserver, Z.mod_pow_l.
  rewrite <- !Z.pow_mul_r by nia.
  f_equal. f_equal. lia.
Qed.

Lemma bnum_num_bytes_mono (a b : bnum) :
  0 <= a <= b -> bnum_num_bytes a <= bnum_num_bytes b.
Proof.
  intros [Ha Hab]. unfold bnum_num_bytes.
  destruct (a =? 0) eqn:Ea.
  - destruct (b =? 0); [lia|].
    pose proof (Z.log2_nonneg (Z.abs b)). apply Z.div_pos; lia.
  - apply Z.eqb_neq in Ea.
    destruct (b =? 0) eqn:Eb; [apply Z.eqb_eq in Eb; lia|].
    apply Z.div_le_mono; [lia|].
    rewrite !Z.abs_eq by lia.
    pose proof (Z.log2_le_mono a b Hab). lia.
Qed.

Lemma bnum_modexp_range (y q p : bnum) : 0 < p -> 0 <= q -> 0 <= bnum_modexp y q p < p.
Proof.
  intros Hp Hq. rewrite bnum_modexp_spec by lia. apply Z.mod_pos_bound. exact Hp.
Qed.

Section SharedSecret.
Context {C : Capabilities}.

(** What [H_nn_pad] hashes when the first number has the width [len]. *)
Lemma H_nn_pad_at_width (alg : hash_alg) (n1 n2 : bnum) :
  0 <= n1 -> 0 <= n2 ->
  1 <= bnum_num_bytes n2 <= bnum_num_bytes n1 ->
  let len := Z.to_nat (bnum_num_bytes n1) in
  H_nn_pad alg n1 n2
  = Some (bnum_bin2bn (hash_md alg (be_bytes len n1 ++ be_bytes len n2))).
Proof.
  intros H1 H2 Hlen len. rewrite H_nn_pad_unfold.
  replace (bnum_num_bytes n2 <? 1) with false by (symmetry; apply Z.ltb_ge; lia).
  rewrite Z.gtb_ltb.
  replace (bnum_num_bytes n1 <? bnum_num_bytes n2) with false
    by (symmetry; apply Z.ltb_ge; lia).
  cbn [orb]. do 3 f_equal. unfold bnum_bn2bin. rewrite !Z.abs_eq by assumption.
  fold len. f_equal.
  replace len
    with (Z.to_nat (bnum_num_bytes n2)
          + Z.to_nat (bnum_num_bytes n1 - bnum_num_bytes n2))%nat
    by (unfold len; lia).
  rewrite be_bytes_pad; [reflexivity|].
  rewrite Z2Nat.id by lia.
  pose proof (bnum_abs_bound n2) as Hb. rewrite Z.abs_eq in Hb by assumption.
  split; assumption.
Qed.

(** The client and an honest server. The server holds the verifier
    v = g^x mod N for the client's x (salt, name and password), draws b
    and sends B = (k*v + g^b) mod N; it hashes A and B at the width of N.
    When the client's A has as many bytes as N, and B and u are not
    zero, the client answers, and the S it stores is the S of the server,
    (A * v^u)^b mod N; the session key is the digest of its bytes. When A
    has fewer bytes than N, the client hashes A and B at the width of A:
    the bytes behind its u are not those of the server. *)
Theorem srp_secret_agrees_with_server :
  forall (usr0 : SRPUser) (rnd b k : bnum) (bytes_s bytes_B : bytes),
    let alg := usr_alg usr0 in
    let N := ng_N (usr_ng usr0) in
    let g := ng_g (usr_ng usr0) in
    let usr := fst (srp_user_start_authentication usr0 rnd) in
    let A := usr_A usr in
    let B := bnum_bin2bn bytes_B in
    let x := calculate_x alg (bnum_bin2bn bytes_s) (usr_username usr0)
               (usr_password usr0) (usr_password_len usr0) in
    let v := bnum_modexp g x N in
    let r := srp_user_process_challenge usr bytes_s bytes_B in
    0 < N -> 0 <= rnd -> 0 <= b ->
    H_nn_pad alg N g = Some k ->
    B = srp6a_server_B N g k v b ->
    (bnum_num_bytes A = bnum_num_bytes N ->
     B <> 0 ->
     srp6a_u alg N A B <> 0 ->
     fst (snd r) = Some (usr_M (fst r))
     /\ usr_S (fst r) = srp6a_server_S alg N A B v b
     /\ srp_user_get_session_key (fst r)
        = (memcpy_into (usr_session_key usr0) (hash_num alg (usr_S (fst r))),
           hash_length alg))
    /\ (bnum_num_bytes A <> bnum_num_bytes N ->
        forall u,
          H_nn_pad alg A B = Some u ->
          exists input,
            u = bnum_bin2bn (hash_md alg input)
            /\ input <> srp6a_PAD N A ++ srp6a_PAD N B).
Proof.
  intros usr0 rnd b k bytes_s bytes_B alg N g usr A B x v r HN Hrnd Hb Hk HB.
  assert (HA : 0 <= A < N) by (apply bnum_modexp_range; assumption).
  assert (HBr : 0 <= B < N).
  { rewrite HB. unfold srp6a_server_B. apply Z.mod_pos_bound. exact HN. }
  split.
  - intros Hw HBnz Hu.
    assert (HnbB : 1 <= bnum_num_bytes B <= bnum_num_bytes A).
    { split; [apply bnum_num_bytes_pos; exact HBnz|].
      rewrite Hw. apply bnum_num_bytes_mono. lia. }
    pose proof (H_nn_pad_at_width alg A B ltac:(lia) ltac:(lia) HnbB) as HuAB.
    cbv zeta in HuAB. rewrite Hw in HuAB.
    change (bnum_bin2bn (hash_md alg (be_bytes (Z.to_nat (bnum_num_bytes N)) A
                                      ++ be_bytes (Z.to_nat (bnum_num_bytes N)) B)))
      with (srp6a_u alg N A B) in HuAB.
    subst r. unfold srp_user_process_challenge.
    change (usr_alg usr) with alg.
    change (ng_N (usr_ng usr)) with N.
    change (ng_g (usr_ng usr)) with g.
    change (usr_username usr) with (usr_username usr0).
    change (usr_password usr) with (usr_password usr0).
    change (usr_password_len usr) with (usr_password_len usr0).
    change (usr_A usr) with A. fold B. fold x.
    rewrite Hk, HuAB.
    unfold bnum_is_zero.
    destruct (B =? 0) eqn:EB; [apply Z.eqb_eq in EB; contradiction|].
    destruct (srp6a_u alg N A B =? 0) eqn:Eu; [apply Z.eqb_eq in Eu; contradiction|].
    cbn [negb andb fst snd usr_S usr_M with_session srp_user_get_session_key
         usr_session_key usr_session_key_len].
    split; [reflexivity|]. split; [|reflexivity].
    unfold srp6a_server_S. fold v.
    change (usr_a usr) with rnd.
    change A with (bnum_modexp g rnd N).
    assert (Hu0 : 0 <= srp6a_u alg N (bnum_modexp g rnd N) B) by apply bnum_bin2bn_nonneg.
    assert (Hx : 0 <= x) by apply bnum_bin2bn_nonneg.
    apply srp_secret_arithmetic; try assumption; try lia.
  - intros Hw u Hu.
    rewrite H_nn_pad_unfold in Hu.
    destruct (_ || _) eqn:E; [discriminate Hu|].
    injection Hu as <-. eexists. split; [reflexivity|].
    intro Heq. apply (f_equal (@length byte)) in Heq.
    unfold srp6a_PAD, bnum_bn2bin in Heq.
    rewrite !length_app, !length_be_bytes, length_zeros in Heq.
    apply orb_false_iff in E. destruct E as [E1 E2].
    apply Z.ltb_ge in E1. rewrite Z.gtb_ltb in E2. apply Z.ltb_ge in E2.
    assert (bnum_num_bytes A <= bnum_num_bytes N) by (apply bnum_num_bytes_mono; lia).
    pose proof (bnum_num_bytes_nonneg A). lia.
Qed.

End SharedSecret.

(* ------------------------------------------------------------------ *)
(** ** The handshakes: errors of the peer, and what is not checked *)

Lemma memcmp_equal_spec (n : nat) :
  forall s1 s2 : bytes,
    memcmp_equal n s1 s2 = true
    <-> (n <= length s1)%nat /\ (n <= length s2)%nat /\ firstn n s1 = firstn n s2.
Proof.
  induction n as [|n IH]; intros s1 s2.
  - cbn. split; [intros _; repeat split; lia | reflexivity].
  - destruct s1 as [|a s1], s2 as [|b s2]; cbn [memcmp_equal length firstn].
    + split; [discriminate | intros (H & _); lia].
    + split; [discriminate | intros (H & _); lia].
    + split; [discriminate | intros (_ & H & _); lia].
    + rewrite andb_true_iff, IH. split.
      * intros (Hab & H1 & H2 & Hf). apply byte_dec_bl in Hab. subst b.
        rewrite Hf. repeat split; lia.
      * intros (H1 & H2 & Hf). injection Hf as Hab Hf. subst b.
        split; [apply byte_dec_lb; reflexivity|]. repeat split; [lia | lia | exact Hf].
Qed.

Section Handshake.
Context {C : Capabilities}.

Lemma pair_setup_request1_user (sctx : pair_setup_context) :
  let sctx1 := fst (pair_setup_request1 sctx) in
  sctx_user sctx1
  = Some (srp_user_new HASH_SHA512 SRP_NG_3072 (cstr USERNAME) (sctx_pin sctx) 4 "" "")
  /\ sctx_pkB sctx1 = sctx_pkB sctx
  /\ sctx_salt sctx1 = sctx_salt sctx.
Proof.
  cbv zeta. unfold pair_setup_request1.
  destruct (tlv_format _ _); repeat split; reflexivity.
Qed.

(** A response that does not parse, or that carries an Error item of at
    least one byte whatever its code, makes each of the four response
    handlers return -1 with its own could-not-parse message: the message
    [response_process] chose for the error code is overwritten and never
    reaches the caller. (For an Error item of no bytes the code reads
    outside the item.) *)
Theorem peer_error_detail_lost :
  forall (data : bytes),
    (tlv_parse data = None
     \/ exists response e,
          tlv_parse data = Some response
          /\ tlv_get_value response TLVType_Error = Some e
          /\ e <> []) ->
    snd (response_process data) <> None
    /\ (forall sctx,
          pair_setup_response1 sctx data
          = (sctx_set_errmsg sctx "Setup response 1: Could not parse TLV", Error))
    /\ (forall sctx beyond,
          pair_setup_response2 sctx data beyond
          = (sctx_set_errmsg sctx "Setup response 2: Could not parse TLV", Error))
    /\ (forall sctx,
          pair_setup_response3 sctx data
          = (sctx_set_errmsg sctx "Setup response 3: Could not parse TLV", Error))
    /\ (forall vctx,
          pair_verify_response1 vctx data
          = (vctx_set_errmsg vctx "Verify response 1: Could not parse TLV", Error)).
Proof.
  intros data H.
  assert (Hnone : fst (response_process data) = Error /\ snd (response_process data) <> None).
  { unfold response_process.
    destruct H as [Hp | (response & e & Hp & He & Hne)]; rewrite Hp.
    - cbn [fst snd]. split; [reflexivity | discriminate].
    - rewrite He. destruct e as [|e0 e]; [contradiction|].
      cbn [fst snd]. split; [reflexivity | discriminate]. }
  destruct Hnone as [Hnone Hmsg].
  split; [exact Hmsg|].
  unfold pair_setup_response1, pair_setup_response2, pair_setup_response3,
    pair_verify_response1.
  rewrite Hnone. repeat split; reflexivity.
Qed.

(** [pair_setup_response2] on a response with a Proof item succeeds
    exactly when the user was authenticated before the call or the first
    [hash_length] bytes at the proof equal the user's H_AMK: the flag is
    set and never cleared, and the size of the proof is not looked at. *)
Theorem setup_response2_ok_iff :
  forall (sctx : pair_setup_context) (usr : SRPUser) (data beyond proof : bytes)
         (response : tlv_values),
    fst (response_process data) = Ok response ->
    tlv_get_value response TLVType_Proof = Some proof ->
    sctx_user sctx = Some usr ->
    let n := Z.to_nat (hash_length (usr_alg usr)) in
    (snd (pair_setup_response2 sctx data beyond) = Ok tt
     <-> usr_authenticated usr <> 0
         \/ ((n <= length (usr_H_AMK usr))%nat
             /\ (n <= length (proof ++ beyond))%nat
             /\ firstn n (usr_H_AMK usr) = firstn n (proof ++ beyond)))
    /\ (snd (pair_setup_response2 sctx data beyond) <> Ok tt ->
        snd (pair_setup_response2 sctx data beyond) = Error
        /\ sctx_errmsg (fst (pair_setup_response2 sctx data beyond))
           = Some "Setup response 2: Server authentication failed").
Proof.
  intros sctx usr data beyond proof response Hresp Hproof Husr n.
  unfold pair_setup_response2. rewrite Hresp, Hproof.
  cbn [sctx_user sctx_set_M2]. rewrite Husr.
  unfold srp_user_verify_session. fold n.
  rewrite <- memcmp_equal_spec.
  destruct (memcmp_equal n (usr_H_AMK usr) (proof ++ beyond)) eqn:Em.
  - unfold srp_user_is_authenticated. cbn [usr_authenticated srp_user_set_authenticated].
    change (1 =? 0) with false. cbn [fst snd]. split.
    + split; [intros _; right; reflexivity | reflexivity].
    + intro H. contradiction H. reflexivity.
  - unfold srp_user_is_authenticated.
    destruct (usr_authenticated usr =? 0) eqn:Ea; cbn [fst snd].
    + apply Z.eqb_eq in Ea. split.
      * split; [discriminate|]. intros [H | H]; [contradiction | discriminate H].
      * intros _. split; reflexivity.
    + apply Z.eqb_neq in Ea. split.
      * split; [intros _; left; exact Ea | reflexivity].
      * intro H. contradiction H. reflexivity.
Qed.

(** What [pair_setup_request2] does when the stored B is zero (all zero
    bytes, or nothing stored). *)
Lemma pair_setup_request2_zero_B (sctx : pair_setup_context) (usr : SRPUser) (rnd : bnum) :
  sctx_user sctx = Some usr ->
  bnum_bin2bn (buffer_or_empty (sctx_pkB sctx)) = 0 ->
  let started := srp_user_start_authentication usr rnd in
  let request :=
    tlv_add_value
      (tlv_add_value
         (tlv_add_value tlv_new TLVType_State [state (pair_keys_map PAIR_SETUP_MSG03)])
         TLVType_PublicKey (snd (snd started)))
      TLVType_Proof [] in
  sctx_user (fst (pair_setup_request2 sctx rnd)) = Some (fst started)
  /\ sctx_M1 (fst (pair_setup_request2 sctx rnd)) = None
  /\ snd (pair_setup_request2 sctx rnd)
     = match tlv_format request REQUEST_BUFSIZE with
       | Some out => Ok out
       | None => Error
       end.
Proof.
  intros Husr HB. cbv zeta. unfold pair_setup_request2. rewrite Husr.
  unfold srp_user_start_authentication. cbv beta iota.
  rewrite srp_challenge_zero_B by exact HB. cbv beta iota.
  cbn [buffer_or_empty fst snd].
  change (Z.to_nat 0) with 0%nat. cbn [firstn].
  destruct (tlv_format _ _); repeat split; reflexivity.
Qed.

(** A peer that answers M1 with a public value B of zero and M3 with a
    proof of 64 zero bytes is accepted. For B = 0 the SRP client computes
    nothing; [pair_setup_request2] does not notice and sends an empty
    proof; the H_AMK that [pair_setup_response2] compares the peer's
    proof with is then still the zeroed array of [srp_user_new]. The
    session key is still zero as well, with length 0. No PIN enters. *)
Theorem setup_zero_proof_accepted :
  forall (sctx0 : pair_setup_context) (rnd : bnum)
         (data1 data2 beyond pk salt' proof : bytes) (response1 response2 : tlv_values),
    fst (response_process data1) = Ok response1 ->
    tlv_get_value response1 TLVType_PublicKey = Some pk ->
    tlv_get_value response1 TLVType_Salt = Some salt' ->
    bnum_bin2bn pk = 0 ->
    fst (response_process data2) = Ok response2 ->
    tlv_get_value response2 TLVType_Proof = Some proof ->
    firstn 64 (proof ++ beyond) = zeros 64 ->
    let sctx1 := fst (pair_setup_request1 sctx0) in
    let sctx2 := fst (pair_setup_response1 sctx1 data1) in
    let sctx3 := fst (pair_setup_request2 sctx2 rnd) in
    let sctx4 := fst (pair_setup_response2 sctx3 data2 beyond) in
    snd (pair_setup_response1 sctx1 data1) = Ok tt
    /\ sctx_M1 sctx3 = None
    /\ snd (pair_setup_response2 sctx3 data2 beyond) = Ok tt
    /\ option_map srp_user_is_authenticated (sctx_user sctx4) = Some 1
    /\ option_map srp_user_get_session_key (sctx_user sctx4) = Some (zeros 64, 0).
Proof.
  intros sctx0 rnd data1 data2 beyond pk salt' proof response1 response2
    Hr1 Hpk Hsalt HB Hr2 Hproof Hzero.
  cbv zeta.
  destruct (pair_setup_request1_user sctx0) as (Hu1 & _ & _).
  set (sctx1 := fst (pair_setup_request1 sctx0)) in *.
  set (usr0 := srp_user_new HASH_SHA512 SRP_NG_3072 (cstr USERNAME) (sctx_pin sctx0) 4 "" "")
    in *.
  assert (H2 : pair_setup_response1 sctx1 data1 = (sctx_set_pkB_salt sctx1 pk salt', Ok tt)).
  { unfold pair_setup_response1. rewrite Hr1, Hpk, Hsalt. reflexivity. }
  rewrite H2. cbn [fst snd].
  set (sctx2 := sctx_set_pkB_salt sctx1 pk salt').
  assert (Hu2 : sctx_user sctx2 = Some usr0) by exact Hu1.
  assert (HB2 : bnum_bin2bn (buffer_or_empty (sctx_pkB sctx2)) = 0) by exact HB.
  destruct (pair_setup_request2_zero_B sctx2 usr0 rnd Hu2 HB2) as (Hu3 & HM1 & _).
  set (sctx3 := fst (pair_setup_request2 sctx2 rnd)) in *.
  split; [reflexivity|]. split; [exact HM1|].
  unfold pair_setup_response2. rewrite Hr2, Hproof.
  cbn [sctx_user sctx_set_M2]. rewrite Hu3.
  unfold srp_user_verify_session.
  cbn [srp_user_start_authentication fst usr_alg usr_H_AMK usr0 srp_user_new].
  change (Z.to_nat (hash_length HASH_SHA512)) with 64%nat.
  assert (Hm : memcmp_equal 64 (zeros 64) (proof ++ beyond) = true).
  { apply memcmp_equal_spec. split; [rewrite length_zeros; lia|].
    split.
    - apply (f_equal (@length byte)) in Hzero.
      rewrite length_firstn, length_zeros in Hzero. lia.
    - rewrite Hzero. reflexivity. }
  rewrite Hm. repeat split; reflexivity.
Qed.

(** [pair_verify_request1] draws nothing: the ephemeral private key of
    a context from [pair_verify_new] is the zeroed array, and stays so.
    The public key sent is the same for every credential and every run,
    and the shared secret a successful [pair_verify_response1] leaves for
    [pair_verify_result] is the scalar multiplication of the all-zero key
    with the public key of the response. *)
Theorem verify_ephemeral_key_is_zero :
  forall (authorisation_key device_id : option bytes) (vctx0 : pair_verify_context),
    pair_verify_new authorisation_key device_id = Some vctx0 ->
    let vctx1 := fst (pair_verify_request1 vctx0) in
    client_eph_private_key vctx1 = zeros 32
    /\ client_eph_public_key vctx1 = fst (crypto_scalarmult (zeros 32) basepoint)
    /\ (forall data,
          snd (pair_verify_response1 vctx1 data) = Ok tt ->
          exists response pk,
            fst (response_process data) = Ok response
            /\ tlv_get_value response TLVType_PublicKey = Some pk
            /\ fst (pair_verify_result (fst (pair_verify_response1 vctx1 data)))
               = fst (crypto_scalarmult (zeros 32) pk)).
Proof.
  intros authorisation_key device_id vctx0 Hnew. cbv zeta.
  assert (Hk0 : client_eph_private_key vctx0 = zeros 32).
  { unfold pair_verify_new in Hnew.
    destruct (sodium_init =? -1); [discriminate Hnew|].
    destruct authorisation_key as [key|]; [|discriminate Hnew].
    destruct (negb _); [discriminate Hnew|].
    destruct (device_id_rejected device_id); [discriminate Hnew|].
    injection Hnew as <-. reflexivity. }
  assert (H1 : client_eph_private_key (fst (pair_verify_request1 vctx0)) = zeros 32
               /\ client_eph_public_key (fst (pair_verify_request1 vctx0))
                  = fst (crypto_scalarmult (zeros 32) basepoint)).
  { unfold pair_verify_request1. rewrite Hk0.
    destruct (crypto_scalarmult (zeros 32) basepoint) as [q ret].
    destruct (ret <? 0); [split; [exact Hk0 | reflexivity]|].
    destruct (tlv_format _ _); (split; [exact Hk0 | reflexivity]). }
  destruct H1 as [Hk1 Hq1].
  set (vctx1 := fst (pair_verify_request1 vctx0)) in *.
  split; [exact Hk1|]. split; [exact Hq1|].
  intros data. unfold pair_verify_response1.
  destruct (fst (response_process data)) as [response| |] eqn:Er;
    [|discriminate|discriminate].
  destruct (tlv_get_value response TLVType_EncryptedData) as [ed|]; [|discriminate].
  destruct (tlv_get_value response TLVType_PublicKey) as [pk|] eqn:Epk; [|discriminate].
  destruct (negb _); [discriminate|].
  cbn [client_eph_private_key server_eph_public_key vctx_set_server_eph_public_key].
  rewrite Hk1.
  destruct (crypto_scalarmult (zeros 32) pk) as [secret ret] eqn:Es.
  destruct (ret <? 0); [discriminate|].
  destruct (hkdf_extract_expand _ _ _); try discriminate.
  destruct (_ <? AUTHTAG_LENGTH); [discriminate|].
  destruct (decrypt_chacha _ _ _ _ _) as [decrypted|]; [|discriminate].
  destruct (fst (response_process decrypted)); [|discriminate|discriminate].
  intros _. exists response, pk. split; [reflexivity|]. split; [exact Epk|].
  rewrite Es. reflexivity.
Qed.

(** [pair_setup_result] does not look at how far the pairing got: on a
    context just made by [pair_setup_new] it returns 0 and, as the
    credential, 192 characters '0' (the zeroed key arrays). *)
Theorem setup_result_without_pairing :
  forall (pin device_id : option bytes) (sctx : pair_setup_context),
    pair_setup_new pin device_id = Some sctx ->
    snd (pair_setup_result sctx) = Ok (repeat x30 192 ++ [x00]).
Proof.
  intros pin device_id sctx Hnew.
  unfold pair_setup_new in Hnew.
  destruct (sodium_init =? -1); [discriminate Hnew|].
  destruct pin as [pin'|]; [|discriminate Hnew].
  destruct (Nat.ltb _ _); [discriminate Hnew|].
  destruct (device_id_rejected device_id); [discriminate Hnew|].
  assert (Hk : sctx_public_key sctx = zeros 32 /\ sctx_private_key sctx = zeros 64
               /\ sctx_auth_key sctx = zeros 193).
  { injection Hnew as <-. repeat split; reflexivity. }
  destruct Hk as (Hpk & Hsk & Hak).
  pose proof (pair_setup_result_eq sctx) as H. cbv zeta in H.
  rewrite H, Hpk, Hsk, Hak. reflexivity.
Qed.

End Handshake.

Section HandshakeSafety.
Context {C : Capabilities}.
Variable crypto_sign_detached : bytes -> bytes -> bytes.

Lemma hkdf_never_traps_on (k : pair_keys) (okm_len : Z) (ikm : bytes) :
  derives_key k = true -> hkdf_extract_expand okm_len ikm k <> Trap.
Proof.
  unfold derives_key, hkdf_extract_expand. intro Hd.
  destruct (okm_len >? SHA512_DIGEST_LENGTH); [discriminate|].
  destruct hkdf_open_fails; [discriminate|].
  destruct (salt (pair_keys_map k)); [|discriminate Hd].
  destruct (info (pair_keys_map k)); [|discriminate Hd].
  destruct (hkdf_derive_fails _ _ _ _); discriminate.
Qed.

(** The request builders stop only for want of the SRP user. A stop
    here is the dereference of a NULL [sctx->user] or [strlen] of a NULL
    label: [pair_setup_request2] and [pair_setup_request3] reach the
    first exactly when the context has no user (before
    [pair_setup_request1]), and neither they nor [pair_verify_request2]
    reach the second, since every stage they derive a key for has its
    labels in the table. *)
Theorem requests_stop_only_without_user :
  (forall (sctx : pair_setup_context) (rnd : bnum) (keypair : bytes * bytes),
      sctx_user sctx <> None ->
      snd (pair_setup_request2 sctx rnd) <> Trap
      /\ snd (pair_setup_request3 crypto_sign_detached sctx keypair) <> Trap)
  /\ (forall (sctx : pair_setup_context) (rnd : bnum) (keypair : bytes * bytes),
        sctx_user sctx = None ->
        snd (pair_setup_request2 sctx rnd) = Trap
        /\ snd (pair_setup_request3 crypto_sign_detached sctx keypair) = Trap)
  /\ (forall (vctx : pair_verify_context),
        snd (pair_verify_request2 crypto_sign_detached vctx) <> Trap).
Proof.
  split; [|split].
  - intros sctx rnd keypair Husr.
    destruct (sctx_user sctx) as [usr|] eqn:Eu; [|contradiction Husr; reflexivity].
    split.
    + unfold pair_setup_request2. rewrite Eu.
      unfold srp_user_start_authentication.
      destruct (srp_user_process_challenge _ _ _) as [usr' [M1 M1_len]].
      destruct (tlv_format _ _); discriminate.
    + unfold pair_setup_request3. rewrite Eu.
      unfold srp_user_get_session_key.
      pose proof (hkdf_never_traps_on PAIR_SETUP_SIGN 32
                    (firstn (Z.to_nat (usr_session_key_len usr)) (usr_session_key usr))
                    eq_refl) as H1.
      destruct (hkdf_extract_expand 32 _ PAIR_SETUP_SIGN) as [device_x| |];
        [|discriminate|contradiction H1; reflexivity].
      destruct (create_and_sign_device_info _ _ _ _ _ _); [|discriminate].
      pose proof (hkdf_never_traps_on PAIR_SETUP_MSG05 32
                    (firstn 64 (usr_session_key usr)) eq_refl) as H2.
      destruct (hkdf_extract_expand 32 _ PAIR_SETUP_MSG05) as [derived_key| |];
        [|discriminate|contradiction H2; reflexivity].
      destruct (tlv_format _ _); [|discriminate].
      destruct (encrypt_chacha _ _ _ _) as [[c tag]|]; [|discriminate].
      destruct (tlv_format _ _); discriminate.
  - intros sctx rnd keypair Husr.
    unfold pair_setup_request2, pair_setup_request3. rewrite Husr. split; reflexivity.
  - intros vctx. unfold pair_verify_request2.
    destruct (create_and_sign_device_info _ _ _ _ _ _); [|discriminate].
    match goal with
    | |- context [hkdf_extract_expand 32 ?ikm PAIR_VERIFY_MSG03] =>
        pose proof (hkdf_never_traps_on PAIR_VERIFY_MSG03 32 ikm eq_refl) as H1;
        destruct (hkdf_extract_expand 32 ikm PAIR_VERIFY_MSG03) as [derived_key| |];
        [|discriminate|contradiction H1; reflexivity]
    end.
    destruct (encrypt_chacha _ _ _ _) as [[c tag]|]; [|discriminate].
    destruct (tlv_format _ _); discriminate.
Qed.

End HandshakeSafety.

(* ------------------------------------------------------------------ *)
(** ** The handshake properties on concrete inputs *)

(** A response that reports Backoff. *)
Lemma peer_error_detail_lost_witness :
  snd (response_process (C := Examples.FC) HandshakeExamples.backoff) <> None
  /\ pair_setup_response1 (C := Examples.FC) HandshakeExamples.setup_started
       HandshakeExamples.backoff
     = (sctx_set_errmsg HandshakeExamples.setup_started
          "Setup response 1: Could not parse TLV", Error)
  /\ pair_verify_response1 (C := Examples.FC) HandshakeExamples.verify_started
       HandshakeExamples.backoff
     = (vctx_set_errmsg HandshakeExamples.verify_started
          "Verify response 1: Could not parse TLV", Error).
Proof.
  destruct (peer_error_detail_lost (C := Examples.FC) HandshakeExamples.backoff)
    as (H0 & H1 & _ & _ & H4).
  - right. exists HandshakeExamples.backoff_items, [Fakes.error_code TLVError_Backoff].
    split; [reflexivity|]. split; [reflexivity | discriminate].
  - split; [exact H0|]. split; [apply H1 | apply H4].
Defined.

(** A user that is not authenticated and whose H_AMK is the zeroed
    array, against a proof of 64 zero bytes. *)
Lemma setup_response2_ok_iff_witness :
  snd (pair_setup_response2 (C := Examples.FC) HandshakeExamples.setup_started
         HandshakeExamples.zero_proof [])
  = Ok tt.
Proof.
  apply (proj1 (setup_response2_ok_iff (C := Examples.FC)
                  HandshakeExamples.setup_started
                  (srp_user_new HASH_SHA512 SRP_NG_3072 (cstr USERNAME)
                     Examples.pin 4 "" "")
                  HandshakeExamples.zero_proof [] (zeros 64)
                  HandshakeExamples.zero_proof_items eq_refl eq_refl eq_refl)).
  right. split; [simpl; lia | split; [simpl; lia | reflexivity]].
Defined.

(** The whole exchange from [pair_setup_request1] on. *)
Lemma setup_zero_proof_accepted_witness :
  snd (pair_setup_response2 (C := Examples.FC)
         (fst (pair_setup_request2 (C := Examples.FC)
                 (fst (pair_setup_response1 (C := Examples.FC)
                         (fst (pair_setup_request1 (C := Examples.FC) Examples.keyed_setup))
                         HandshakeExamples.zero_challenge))
                 1321))
         HandshakeExamples.zero_proof [])
  = Ok tt.
Proof.
  destruct (setup_zero_proof_accepted (C := Examples.FC) Examples.keyed_setup 1321
              HandshakeExamples.zero_challenge HandshakeExamples.zero_proof []
              (zeros 4) Examples.srp_salt (zeros 64)
              HandshakeExamples.zero_challenge_items HandshakeExamples.zero_proof_items
              eq_refl eq_refl eq_refl eq_refl eq_refl eq_refl eq_refl)
    as (_ & _ & H & _).
  exact H.
Defined.

(** The context made from [Examples.credential]. *)
Lemma verify_ephemeral_key_is_zero_witness :
  client_eph_public_key
    (fst (pair_verify_request1 (C := Examples.FC) HandshakeExamples.verify_started))
  = fst (Fakes.scalarmult (zeros 32) basepoint).
Proof.
  assert (Hnew : pair_verify_new (C := Examples.FC) (Some Examples.credential)
                   (Some Examples.device_id)
                 = Some HandshakeExamples.verify_started)
    by (vm_compute; reflexivity).
  exact (proj1 (proj2 (verify_ephemeral_key_is_zero (C := Examples.FC) _ _ _ Hnew))).
Defined.

(** The context made from [Examples.pin]. *)
Lemma setup_result_without_pairing_witness :
  option_map (fun sctx => snd (pair_setup_result sctx))
    (pair_setup_new (C := Examples.FC) (Some Examples.pin) (Some Examples.device_id))
  = Some (Ok (repeat x30 192 ++ [x00])).
Proof.
  destruct (pair_setup_new (C := Examples.FC) (Some Examples.pin) (Some Examples.device_id))
    as [sctx|] eqn:E.
  - cbn [option_map]. f_equal.
    exact (setup_result_without_pairing (C := Examples.FC) _ _ sctx E).
  - vm_compute in E. discriminate E.
Defined.

(** The started Pair-Setup context, with a key pair to sign with. *)
Lemma requests_stop_only_without_user_witness :
  snd (pair_setup_request3 (C := Examples.FC) HandshakeExamples.sign
         HandshakeExamples.setup_started (Examples.public_key, Examples.private_key))
  <> Trap.
Proof.
  destruct (proj1 (requests_stop_only_without_user (C := Examples.FC) HandshakeExamples.sign)
              HandshakeExamples.setup_started 0
              (Examples.public_key, Examples.private_key)) as (_ & H).
  - discriminate.
  - exact H.
Defined.

(** The client of [Examples.pin] against the server of [SRPExamples]:
    with the exponent 1321 its A has the 8 bytes of N and the two sides
    agree; with the exponent 21 its A has 7 bytes, and against the
    server's b = 139 the client answers with another S than the
    server's. *)
Lemma srp_secret_agrees_with_server_witness :
  (let usr := fst (srp_user_start_authentication SRPExamples.client 1321) in
   let r := srp_user_process_challenge (C := Examples.FC) usr Examples.srp_salt
              SRPExamples.server_B in
   fst (snd r) = Some (usr_M (fst r))
   /\ usr_S (fst r)
      = srp6a_server_S (C := Examples.FC) HASH_SHA512 SRPExamples.N (usr_A usr)
          (bnum_bin2bn SRPExamples.server_B) SRPExamples.v 7)
  /\ (let usr := fst (srp_user_start_authentication SRPExamples.client 21) in
      let r := srp_user_process_challenge (C := Examples.FC) usr Examples.srp_salt
                 SRPExamples.short_B in
      fst (snd r) <> None
      /\ usr_S (fst r)
         <> srp6a_server_S (C := Examples.FC) HASH_SHA512 SRPExamples.N (usr_A usr)
              (bnum_bin2bn SRPExamples.short_B) SRPExamples.v 139).
Proof.
  split.
  - pose proof (srp_secret_agrees_with_server (C := Examples.FC) SRPExamples.client 1321 7
                  SRPExamples.k Examples.srp_salt SRPExamples.server_B) as H.
    cbv zeta in H.
    destruct H as [H _].
    + vm_compute. reflexivity.
    + lia.
    + lia.
    + vm_compute. reflexivity.
    + vm_compute. reflexivity.
    + destruct H as (H1 & H2 & _).
      * vm_compute. reflexivity.
      * vm_compute. discriminate.
      * vm_compute. discriminate.
      * cbv zeta. split; [exact H1 | exact H2].
  - cbv zeta. split; vm_compute; discriminate.
Defined.

(* ------------------------------------------------------------------ *)
(** ** The channel as a stream of blocks *)

Section ChannelStream.
Context {C : Capabilities}.

Lemma advance_succ (n : nat) (counter : Z) :
  advance (S n) counter = advance n (to_uint64 (counter + 1)).
Proof. unfold advance. rewrite Nat.iter_succ_r. reflexivity. Qed.

Lemma advance_add (n m : nat) (counter : Z) :
  advance (n + m) counter = advance m (advance n counter).
Proof.
  unfold advance. rewrite Nat.add_comm, Nat.iter_add. reflexivity.
Qed.

Lemma frames_app (key : bytes) :
  forall counter p1 w1 l1,
    frames key counter p1 w1 l1 ->
    forall p2 w2 l2,
      frames key (advance (length l1) counter) p2 w2 l2 ->
      frames key counter (p1 ++ p2) (w1 ++ w2) (l1 ++ l2).
Proof.
  intros counter p1 w1 l1 Hf.
  induction Hf as [counter | counter chunk c tag plain wire lens Hsize Hseal Hc Htag Hrest IH];
    intros p2 w2 l2 H2.
  - exact H2.
  - cbn [length] in H2. rewrite advance_succ in H2.
    rewrite <- !app_assoc. cbn [app].
    apply frames_block; try assumption.
    apply IH. exact H2.
Qed.

(** The output of two successive [pair_encrypt] calls, given to
    [pair_decrypt] as one buffer, decrypts to the two plaintexts one
    after the other, and the receiver is then in step with the sender:
    the channel is a stream of blocks, and the boundaries of the
    messages need not survive the transport. *)
Theorem coalesced_messages_decrypt :
  aead_lengths -> aead_opens ->
  forall (p1 p2 out1 out2 : bytes) (s s1 s2 r : pair_cipher_context),
    Z.of_nat (length p1) <= PLAINTEXT_LEN_MAX ->
    Z.of_nat (length p2) <= PLAINTEXT_LEN_MAX ->
    in_sync s r ->
    pair_encrypt (Some p1) s = (s1, Ok out1) ->
    pair_encrypt (Some p2) s1 = (s2, Ok out2) ->
    exists r',
      pair_decrypt (Some (out1 ++ out2)) r = (r', Ok (p1 ++ p2))
      /\ in_sync s2 r'.
Proof.
  intros Hlens Hopens p1 p2 out1 out2 s s1 s2 r Hm1 Hm2 [Hk Hc] E1 E2.
  destruct (pair_encrypt_ok_inv Hlens p1 out1 s s1 Hm1 E1)
    as (Hpos1 & Hn1 & Hf1 & Hl1 & Hk1 & Hc1).
  destruct (pair_encrypt_ok_inv Hlens p2 out2 s1 s2 Hm2 E2)
    as (Hpos2 & Hn2 & Hf2 & Hl2 & Hk2 & Hc2).
  rewrite Hk1, Hc1 in Hf2.
  rewrite <- (length_chunk_lengths (Z.to_nat (blocks_of p1)) (Z.of_nat (length p1))) in Hf2
    at 1.
  pose proof (frames_app _ _ _ _ _ Hf1 _ _ _ Hf2) as Hf.
  destruct (frames_decodes_advance Hopens _ _ _ _ _ Hf r Hk Hc) as (r' & Hdec & Hrk & Hrc).
  rewrite length_app, !length_chunk_lengths, advance_add in Hrc.
  exists r'. split.
  - apply pair_decrypt_decodes; [exact Hdec | |];
      rewrite !length_app; unfold AUTHTAG_LENGTH in Hl1, Hl2;
      assert (1 <= blocks_of p1) by lia; assert (1 <= blocks_of p2) by lia; lia.
  - split; [rewrite Hrk, Hk2, Hk1; reflexivity|].
    rewrite Hrc, Hc2, Hc1. reflexivity.
Qed.

End ChannelStream.

(* ------------------------------------------------------------------ *)
(** ** The device id that is signed *)

Lemma strlen_prefix (d rest : bytes) :
  strlen (firstn (strlen d) d ++ x00 :: rest) = strlen d.
Proof.
  induction d as [|b d IH]; [reflexivity|].
  cbn [strlen]. destruct (Byte.eqb b x00) eqn:E; [reflexivity|].
  cbn [firstn app strlen]. rewrite E, IH. reflexivity.
Qed.

Lemma length_strlen_prefix (d : bytes) : length (firstn (strlen d) d) = strlen d.
Proof. rewrite length_firstn. pose proof (strlen_le d). lia. Qed.

(** The [char device_id[17]] of a context read as a string is the
    device id the constructor was given, for an accepted one. *)
Lemma device_id_array_string (device_id : option bytes) :
  device_id_rejected device_id = false ->
  firstn (strlen (device_id_array device_id)) (device_id_array device_id)
  = match device_id with
    | Some d => firstn 16 d
    | None => []
    end.
Proof.
  intro H. destruct device_id as [d|]; [|reflexivity].
  unfold device_id_rejected in H. apply negb_false_iff, Nat.eqb_eq in H.
  unfold device_id_array, memcpy_into.
  rewrite length_strlen_prefix, H.
  change (skipn 16 (zeros 17)) with [x00].
  rewrite <- H at 1. rewrite strlen_prefix, H.
  rewrite firstn_app, length_firstn.
  pose proof (strlen_le d) as Hle. rewrite H in Hle.
  replace (16 - Nat.min 16 (length d))%nat with 0%nat by lia.
  rewrite firstn_O, app_nil_r. apply firstn_all2.
  rewrite length_firstn. lia.
Qed.

Section SignedDeviceInfo.
Context {C : Capabilities}.
Variable crypto_sign_detached : bytes -> bytes -> bytes.

(** What [create_and_sign_device_info] signs and sends for a context
    made by a constructor: the Identifier item is the 16 characters of
    the device id given to the constructor, or empty when that was NULL,
    and the signature is over the first key, these characters and the
    second key. The 17th byte of the array, never written, is what ends
    the string. *)
Theorem device_info_identifier_as_given :
  forall (device_id : option bytes) (data_len : Z) (device_pk pk sk : bytes),
    device_id_rejected device_id = false ->
    let id := match device_id with
              | Some d => firstn 16 d
              | None => []
              end in
    create_and_sign_device_info crypto_sign_detached data_len
      (device_id_array device_id) device_pk pk sk
    = tlv_format
        (tlv_add_value
           (tlv_add_value tlv_new TLVType_Identifier id)
           TLVType_Signature
           (firstn 64 (crypto_sign_detached (device_pk ++ id ++ pk) sk)))
        data_len.
Proof.
  intros device_id data_len device_pk pk sk H. cbv zeta.
  unfold create_and_sign_device_info.
  rewrite (device_id_array_string device_id H). reflexivity.
Qed.

End SignedDeviceInfo.

(** Two messages, of 1025 bytes and of 2 bytes. *)
Lemma coalesced_messages_decrypt_witness :
  exists r',
    pair_decrypt (C := Examples.FC)
      (Some (SessionExamples.wire_1025
             ++ SessionExamples.ok_or_empty
                  (snd (pair_encrypt (C := Examples.FC) (Some [x68; x69])
                          SessionExamples.sender_after_1025))))
      (ChannelExamples.peer_of ChannelExamples.sender)
    = (r', Ok (ChannelExamples.plain_1025 ++ [x68; x69]))
    /\ in_sync
         (fst (pair_encrypt (C := Examples.FC) (Some [x68; x69])
                 SessionExamples.sender_after_1025))
         r'.
Proof.
  apply (coalesced_messages_decrypt (C := Examples.FC) fakes_aead_lengths fakes_aead_opens
           ChannelExamples.plain_1025 [x68; x69] SessionExamples.wire_1025 _
           ChannelExamples.sender SessionExamples.sender_after_1025 _
           (ChannelExamples.peer_of ChannelExamples.sender)
           plain_1025_in_range).
  - vm_compute. discriminate.
  - exact sender_peer_in_sync.
  - exact sent_1025.
  - vm_compute. reflexivity.
Defined.

(** The device id of [Examples.device_id]. *)
Lemma device_info_identifier_as_given_witness :
  create_and_sign_device_info (C := Examples.FC) HandshakeExamples.sign REQUEST_BUFSIZE
    (device_id_array (Some Examples.device_id))
    (zeros 32) Examples.public_key Examples.private_key
  = @tlv_format Examples.FC
      (@tlv_add_value Examples.FC
         (@tlv_add_value Examples.FC (@tlv_new Examples.FC)
            TLVType_Identifier (firstn 16 Examples.device_id))
         TLVType_Signature
         (firstn 64 (HandshakeExamples.sign
                       (zeros 32 ++ firstn 16 Examples.device_id ++ Examples.public_key)
                       Examples.private_key)))
      REQUEST_BUFSIZE.
Proof.
  apply (device_info_identifier_as_given (C := Examples.FC) HandshakeExamples.sign
           (Some Examples.device_id) REQUEST_BUFSIZE (zeros 32)
           Examples.public_key Examples.private_key).
  reflexivity.
Defined.
